(** * SCINE Heron haptic device manager: a shallow embedding

    The development follows [haptic/src/openhaptics.cpp] and its headers.

    Modelling conventions.
    - A C++ [double] is a real number ([R]): rounding, infinities and NaN
      are outside the model.  Comparisons on doubles become the decision
      procedures of the reals.
    - A C++ [int] is an integer of [Z]; where the source converts an [int]
      to [size_t] for a comparison, the conversion is written out.  The
      [int] loop counters of the source scan vectors whose size fits in an
      [int].
    - [std::vector] is [list].  An access out of range is undefined in C++:
      the mutators of the public interface return [None] there, the reads
      of the servicing loop use [nth] with a default.
    - The OpenHaptics SDK (the [hd...] and [hdu...] calls) is not part of
      the repository.  What a tick reads from the device is a record
      [HDFrame]; what it writes back and the listener calls it performs are
      returned in a [TickResult].
    - Listener calls are recorded as a trace, in call order; a listener
      does not call back into the manager.
    - The mutexes of the manager protect copies of whole fields; one
      operation of the interface or one tick is one step of a run. *)

From Stdlib Require Import Reals Lra Lia ZArith List Bool.
Import ListNotations.

Local Open Scope R_scope.

(** ** Comparisons on doubles *)

Definition Rltb (x y : R) : bool := if Rlt_dec x y then true else false.
Definition Rleb (x y : R) : bool := if Rle_dec x y then true else false.
Definition Reqb (x y : R) : bool := if Req_dec_T x y then true else false.

(** ** The part of the OpenHaptics SDK the manager uses *)

Module HD.

(** [hduVector3Dd]: three doubles, read with [v[0]], [v[1]], [v[2]]. *)
Record hduVector3Dd : Type := mkVec { vx : R; vy : R; vz : R }.

Definition zero : hduVector3Dd := mkVec 0 0 0.

(** Modelled from the spec: [hduVecScaleInPlace(v, s)] of the SDK is not in
    the sources; the force is "scaled by" the coefficient, component by
    component. *)
Definition hduVecScale (v : hduVector3Dd) (s : R) : hduVector3Dd :=
  mkVec (vx v * s) (vy v * s) (vz v * s).

(** Modelled from the spec: [hduVecMagnitude(v)] of the SDK is not in the
    sources; the magnitude of a force vector is its Euclidean length. *)
Definition hduVecMagnitude (v : hduVector3Dd) : R :=
  sqrt (vx v * vx v + vy v * vy v + vz v * vz v).

(** Modelled from the spec: [hduVecNormalizeInPlace(v)] of the SDK is not in
    the sources; the vector is "renormalized to unit length", that is
    divided by its magnitude. *)
Definition hduVecNormalize (v : hduVector3Dd) : hduVector3Dd :=
  mkVec (vx v / hduVecMagnitude v) (vy v / hduVecMagnitude v)
        (vz v / hduVecMagnitude v).

(** Modelled from the spec: [hduVecSubtract(res, a, b)] of the SDK is not in
    the sources; the raw force is "target - selectedAtomDevicePos", so
    [res = a - b]. *)
Definition hduVecSubtract (a b : hduVector3Dd) : hduVector3Dd :=
  mkVec (vx a - vx b) (vy a - vy b) (vz a - vz b).

(** Modelled from the spec: the SDK header with the button masks is not in
    the sources; the tick compares the masked buttons with 1 and with 2,
    the masks of the "two independent buttons". *)
Definition HD_DEVICE_BUTTON_1 : Z := 1.
Definition HD_DEVICE_BUTTON_2 : Z := 2.

(** Modelled from the spec: the SDK header with the invalid handle is not
    in the sources; no property depends on its value. *)
Definition HD_INVALID_HANDLE : Z := 4294967295.

End HD.
Import HD.

(** ** Data classes *)

(** [AtomData] of [atom_data.h]; its [getPosX], [getPosY], [getPosZ] are
    [atomPosX], [atomPosY], [atomPosZ] here, apart from those of
    [HapticData]. *)
Record AtomData : Type := mkAtomData {
  getId : Z;
  atomPosX : R;
  atomPosY : R;
  atomPosZ : R;
  getDistance : R
}.

(** [HapticData] of [haptic_data.h]. *)
Record HapticData : Type := mkHapticData {
  getPosX : R;
  getPosY : R;
  getPosZ : R
}.

(** [std::vector<std::vector<double>>], read with [m[i][j]]. *)
Definition Matrix : Type := list (list R).

Definition at2 (m : Matrix) (i j : nat) : R := nth j (nth i m []) 0.

Definition identity4 : Matrix :=
  [[1; 0; 0; 0]; [0; 1; 0; 0]; [0; 0; 1; 0]; [0; 0; 0; 1]].

(** ** Utilities *)

Definition transformToAppCoordinates (pos : hduVector3Dd)
    (transformation_matrix : Matrix) (scale_factor : Z) : HapticData :=
  let x := at2 transformation_matrix 0 0 * vx pos +
           at2 transformation_matrix 0 1 * vy pos +
           at2 transformation_matrix 0 2 * vz pos +
           at2 transformation_matrix 0 3 in
  let y := at2 transformation_matrix 1 0 * vx pos +
           at2 transformation_matrix 1 1 * vy pos +
           at2 transformation_matrix 1 2 * vz pos +
           at2 transformation_matrix 1 3 in
  let z := at2 transformation_matrix 2 0 * vx pos +
           at2 transformation_matrix 2 1 * vy pos +
           at2 transformation_matrix 2 2 * vz pos +
           at2 transformation_matrix 2 3 in
  mkHapticData (x / IZR scale_factor) (y / IZR scale_factor)
               (z / IZR scale_factor).

Definition transformToHapticCoordinates (x y z : R)
    (invert_matrix : Matrix) (scale_factor : Z) : hduVector3Dd :=
  let new_x := at2 invert_matrix 0 0 * x * IZR scale_factor +
               at2 invert_matrix 0 1 * y * IZR scale_factor +
               at2 invert_matrix 0 2 * z * IZR scale_factor +
               at2 invert_matrix 0 3 in
  let new_y := at2 invert_matrix 1 0 * x * IZR scale_factor +
               at2 invert_matrix 1 1 * y * IZR scale_factor +
               at2 invert_matrix 1 2 * z * IZR scale_factor +
               at2 invert_matrix 1 3 in
  let new_z := at2 invert_matrix 2 0 * x * IZR scale_factor +
               at2 invert_matrix 2 1 * y * IZR scale_factor +
               at2 invert_matrix 2 2 * z * IZR scale_factor +
               at2 invert_matrix 2 3 in
  mkVec new_x new_y new_z.

Definition calculateDistance (atom : AtomData) (data : HapticData) : R :=
  let x_d := (atomPosX atom - getPosX data) * (atomPosX atom - getPosX data) in
  let y_d := (atomPosY atom - getPosY data) * (atomPosY atom - getPosY data) in
  let z_d := (atomPosZ atom - getPosZ data) * (atomPosZ atom - getPosZ data) in
  sqrt (x_d + y_d + z_d).

(** The loop of [findClosestAtomIndex]: [i] is the loop counter,
    [closest_atom_index] and [best_d] the two locals. *)
Fixpoint findClosest_loop (molecule : list AtomData) (data : HapticData)
    (i : Z) (closest_atom_index : Z) (best_d : R) : Z :=
  match molecule with
  | [] => closest_atom_index
  | atom :: rest =>
      let d := calculateDistance atom data in
      if (closest_atom_index =? -1)%Z || Rltb d best_d
      then findClosest_loop rest data (i + 1) i d
      else findClosest_loop rest data (i + 1) closest_atom_index best_d
  end.

Definition findClosestAtomIndex (molecule : list AtomData)
    (data : HapticData) : Z :=
  findClosest_loop molecule data 0 (-1) (-1).

(** [scaleForce]; [force_clamp] is what the device answers to
    [hdGetDoublev(HD_NOMINAL_MAX_CONTINUOUS_FORCE, ...)]. *)
Definition scaleForce (force_clamp : R) (force : hduVector3Dd)
    (anchor_stiffness : R) : hduVector3Dd :=
  let force := hduVecScale force anchor_stiffness in
  if Rltb force_clamp (hduVecMagnitude force)
  then hduVecScale (hduVecNormalize force) force_clamp
  else force.

Definition calculateAzimuth (position last_position : hduVector3Dd) : R :=
  vx last_position - vx position.

Definition calculateElevation (position last_position : hduVector3Dd) : R :=
  vy last_position - vy position.

Definition calculateZoom (position last_position : hduVector3Dd) : R :=
  if Rleb (vz last_position - vz position) (-1.2) then 0.90
  else if Rleb 1.2 (vz last_position - vz position) then 1.10
  else 1.

(** ** Listeners *)

Module HapticCallback.

(** A registered listener is a pointer; only its identity matters. *)
Definition handle : Type := nat.

(** The five virtual methods of [HapticCallback], as calls performed. *)
Inductive call : Type :=
| move (data : HapticData) (azimuth elevation zoom : R)
| first_button_up
| first_button_down
| second_button_up
| second_button_down (atom_index : Z).

End HapticCallback.

(** One performed call: which listener, which method. *)
Definition Notification : Type :=
  (HapticCallback.handle * HapticCallback.call)%type.

(** ** The manager *)

Record HapticDeviceManager : Type := mkManager {
  ghHD : Z;
  hUpdateDeviceCallback : Z;
  calc_gradient_in_loop : bool;
  first_button_down : bool;
  second_button_down : bool;
  call_first_time : bool;
  last_send_data : hduVector3Dd;
  transformation_matrix : Matrix;
  invert_matrix : Matrix;
  gradient : Matrix;
  callbacks : list HapticCallback.handle;
  molecule : list AtomData;
  last_event_timestamp : Z
}.

Definition scale_factor : Z := 10.

(** The default member initialisers of [openhaptics.h].  The clock value
    is the epoch of a default [time_point]; [last_send_data] is a default
    [hduVector3Dd]. *)
Definition new_manager : HapticDeviceManager :=
  {| ghHD := HD_INVALID_HANDLE;
     hUpdateDeviceCallback := HD_INVALID_HANDLE;
     calc_gradient_in_loop := false;
     first_button_down := false;
     second_button_down := false;
     call_first_time := true;
     last_send_data := zero;
     transformation_matrix := identity4;
     invert_matrix := identity4;
     gradient := [];
     callbacks := [];
     molecule := [];
     last_event_timestamp := 0 |}.

(** [setForce]: the value handed to [hdSetDoublev(HD_CURRENT_FORCE, ...)]. *)
Definition setForce (force_clamp : R)
    (position atom_pos atom_gradient : hduVector3Dd)
    (p_this : HapticDeviceManager) : hduVector3Dd :=
  let force := zero in
  if calc_gradient_in_loop p_this && second_button_down p_this then
    let new_pos := mkVec (vx atom_pos - vx atom_gradient)
                         (vy atom_pos - vy atom_gradient)
                         (vz atom_pos - vz atom_gradient) in
    let force := hduVecSubtract new_pos atom_pos in
    scaleForce force_clamp force 0.8
  else force.

(** ** One tick of the servicing loop *)

(** What the tick reads from the device and from the clock. *)
Record HDFrame : Type := mkFrame {
  HD_CURRENT_POSITION : hduVector3Dd;
  HD_LAST_POSITION : hduVector3Dd;
  HD_CURRENT_BUTTONS : Z;
  HD_LAST_BUTTONS : Z;
  HD_DEVICE_ERROR : bool;
  HD_NOMINAL_MAX_CONTINUOUS_FORCE : R;
  steady_clock_now : Z
}.

(** What the tick leaves behind: the manager, the force written to the
    device (if any write happened) and the listener calls, in order. *)
Record TickResult : Type := mkTick {
  manager : HapticDeviceManager;
  HD_CURRENT_FORCE : option hduVector3Dd;
  calls : list Notification
}.

(** Conversion of an [int] to [size_t] (64 bits). *)
Definition to_size_t (n : Z) : Z := (n mod 2 ^ 64)%Z.

Definition no_atom : AtomData := mkAtomData 0 0 0 0 0.

(** Lines 183-210 of [updateDeviceCallback]: the selected atom id and the
    force written, if the molecule is not empty. *)
Definition selectAndSetForce (frame : HDFrame) (p_this : HapticDeviceManager)
    (molecule : list AtomData) (invert_matrix gradients : Matrix)
    (data : HapticData) : Z * option hduVector3Dd :=
  let selected_atom_id := (-1)%Z in
  if (0 <? length molecule)%nat then
    let gradient := [0; 0; 0] in
    let closest_atom_index := findClosestAtomIndex molecule data in
    let closest_atom := nth (Z.to_nat closest_atom_index) molecule no_atom in
    let '(selected_atom_id, gradient) :=
      if Rleb (calculateDistance closest_atom data)
              (3 * getDistance closest_atom)
      then
        let selected_atom_id := getId closest_atom in
        if (to_size_t selected_atom_id <? Z.of_nat (length gradients))%Z
        then (selected_atom_id, nth (Z.to_nat selected_atom_id) gradients [])
        else (selected_atom_id, gradient)
      else (selected_atom_id, gradient) in
    let transformed_atom :=
      transformToHapticCoordinates (atomPosX closest_atom)
        (atomPosY closest_atom) (atomPosZ closest_atom)
        invert_matrix scale_factor in
    let transformed_gradient :=
      transformToHapticCoordinates (nth 0 gradient 0) (nth 1 gradient 0)
        (nth 2 gradient 0) invert_matrix scale_factor in
    (selected_atom_id,
     Some (setForce (HD_NOMINAL_MAX_CONTINUOUS_FORCE frame)
             (HD_CURRENT_POSITION frame) transformed_atom
             transformed_gradient p_this))
  else (selected_atom_id, None).

(** A loop [for (auto* callback : callbacks) { flag = value; callback->c(); }]
    started with the flag at [flag]. *)
Definition notify_all (callbacks : list HapticCallback.handle)
    (flag value : bool) (c : HapticCallback.call) : bool * list Notification :=
  fold_left (fun acc callback => (value, snd acc ++ [(callback, c)]))
            callbacks (flag, []).

(** The throttle: [microseconds(1000000) / kMaxEventsPerSecond], an integer
    number of microseconds, compared with a difference of [steady_clock]
    time points, which count nanoseconds. *)
Definition kMaxEventsPerSecond : Z := 60.
Definition kMinDelay_microseconds : Z := (1000000 / kMaxEventsPerSecond)%Z.
Definition kMinDelay : Z := (kMinDelay_microseconds * 1000)%Z.

Definition with_buttons (p : HapticDeviceManager) (b1 b2 : bool)
  : HapticDeviceManager :=
  {| ghHD := ghHD p;
     hUpdateDeviceCallback := hUpdateDeviceCallback p;
     calc_gradient_in_loop := calc_gradient_in_loop p;
     first_button_down := b1;
     second_button_down := b2;
     call_first_time := call_first_time p;
     last_send_data := last_send_data p;
     transformation_matrix := transformation_matrix p;
     invert_matrix := invert_matrix p;
     gradient := gradient p;
     callbacks := callbacks p;
     molecule := molecule p;
     last_event_timestamp := last_event_timestamp p |}.

Definition with_session (p : HapticDeviceManager) (first : bool)
    (sent : hduVector3Dd) (stamp : Z) : HapticDeviceManager :=
  {| ghHD := ghHD p;
     hUpdateDeviceCallback := hUpdateDeviceCallback p;
     calc_gradient_in_loop := calc_gradient_in_loop p;
     first_button_down := first_button_down p;
     second_button_down := second_button_down p;
     call_first_time := first;
     last_send_data := sent;
     transformation_matrix := transformation_matrix p;
     invert_matrix := invert_matrix p;
     gradient := gradient p;
     callbacks := callbacks p;
     molecule := molecule p;
     last_event_timestamp := stamp |}.

(** [updateDeviceCallback]; [None] is [exit(-1)] on a device error. *)
Definition updateDeviceCallback (frame : HDFrame)
    (p_this : HapticDeviceManager) : option TickResult :=
  let current_position := HD_CURRENT_POSITION frame in
  let last_position := HD_LAST_POSITION frame in
  let current_buttons := HD_CURRENT_BUTTONS frame in
  let last_buttons := HD_LAST_BUTTONS frame in
  if HD_DEVICE_ERROR frame then None else
  let data := transformToAppCoordinates current_position
                (transformation_matrix p_this) scale_factor in
  let '(selected_atom_id, force) :=
    selectAndSetForce frame p_this (molecule p_this) (invert_matrix p_this)
      (gradient p_this) data in
  (* button state transitions *)
  let '(b1, calls1) :=
    if negb (Z.land current_buttons HD_DEVICE_BUTTON_1 =? 0)%Z
       && (Z.land last_buttons HD_DEVICE_BUTTON_1 =? 0)%Z
    then notify_all (callbacks p_this) (first_button_down p_this) true
           HapticCallback.first_button_down
    else (first_button_down p_this, []) in
  let '(b1, calls2) :=
    if negb (Z.land current_buttons HD_DEVICE_BUTTON_1 =? 1)%Z
       && (Z.land last_buttons HD_DEVICE_BUTTON_1 =? 1)%Z
    then notify_all (callbacks p_this) b1 false
           HapticCallback.first_button_up
    else (b1, []) in
  let '(b2, calls3) :=
    if negb (Z.land current_buttons HD_DEVICE_BUTTON_2 =? 0)%Z
       && (Z.land last_buttons HD_DEVICE_BUTTON_2 =? 0)%Z
    then notify_all (callbacks p_this) (second_button_down p_this) true
           (HapticCallback.second_button_down selected_atom_id)
    else (second_button_down p_this, []) in
  let '(b2, calls4) :=
    if negb (Z.land current_buttons HD_DEVICE_BUTTON_2 =? 2)%Z
       && (Z.land last_buttons HD_DEVICE_BUTTON_2 =? 2)%Z
    then notify_all (callbacks p_this) b2 false
           HapticCallback.second_button_up
    else (b2, []) in
  let p_this := with_buttons p_this b1 b2 in
  let button_calls := calls1 ++ calls2 ++ calls3 ++ calls4 in
  (* reduce move callback counts *)
  let now := steady_clock_now frame in
  if (now - last_event_timestamp p_this <? kMinDelay)%Z then
    Some (mkTick p_this force button_calls)
  else
    let stamp := now in
    (* init last_send_data *)
    let '(first, sent) :=
      if call_first_time p_this then (false, last_position)
      else (call_first_time p_this, last_send_data p_this) in
    let last_data := transformToAppCoordinates sent
                       (transformation_matrix p_this) scale_factor in
    let azimuth := calculateAzimuth current_position sent in
    let elevation := calculateElevation current_position sent in
    let zoom := calculateZoom current_position sent in
    let move_calls :=
      if negb (Reqb (getPosX data) (getPosX last_data))
         || negb (Reqb (getPosY data) (getPosY last_data))
         || negb (Reqb (getPosZ data) (getPosZ last_data))
      then map (fun callback =>
                  (callback, HapticCallback.move data azimuth elevation zoom))
               (callbacks p_this)
      else [] in
    (* update last_send_data *)
    Some (mkTick (with_session p_this first current_position stamp)
                 force (button_calls ++ move_calls)).

(** ** The public interface *)

Definition with_handles (p : HapticDeviceManager) (device scheduler : Z)
  : HapticDeviceManager :=
  {| ghHD := device;
     hUpdateDeviceCallback := scheduler;
     calc_gradient_in_loop := calc_gradient_in_loop p;
     first_button_down := first_button_down p;
     second_button_down := second_button_down p;
     call_first_time := call_first_time p;
     last_send_data := last_send_data p;
     transformation_matrix := transformation_matrix p;
     invert_matrix := invert_matrix p;
     gradient := gradient p;
     callbacks := callbacks p;
     molecule := molecule p;
     last_event_timestamp := last_event_timestamp p |}.

(** The shared scene state: guidance flag, matrices, gradient table,
    listeners and atoms. *)
Definition with_scene (p : HapticDeviceManager) (guidance : bool)
    (t_matrix i_matrix grad : Matrix) (cbs : list HapticCallback.handle)
    (atoms : list AtomData) : HapticDeviceManager :=
  {| ghHD := ghHD p;
     hUpdateDeviceCallback := hUpdateDeviceCallback p;
     calc_gradient_in_loop := guidance;
     first_button_down := first_button_down p;
     second_button_down := second_button_down p;
     call_first_time := call_first_time p;
     last_send_data := last_send_data p;
     transformation_matrix := t_matrix;
     invert_matrix := i_matrix;
     gradient := grad;
     callbacks := cbs;
     molecule := atoms;
     last_event_timestamp := last_event_timestamp p |}.

(** What the SDK answers during [init_haptic_device]. *)
Record HDInit : Type := mkInit {
  hdInitDevice : Z;
  init_error : bool;
  hdScheduleAsynchronous : Z;
  scheduler_error : bool
}.

Definition init_haptic_device (hd : HDInit) (p : HapticDeviceManager)
  : HapticDeviceManager * bool :=
  let p := with_handles p (hdInitDevice hd) (hUpdateDeviceCallback p) in
  if init_error hd then (p, false) else
  let p := with_handles p (ghHD p) (hdScheduleAsynchronous hd) in
  if scheduler_error hd then (p, false) else (p, true).

Definition add_haptic_callback (callback : HapticCallback.handle)
    (p : HapticDeviceManager) : HapticDeviceManager :=
  with_scene p (calc_gradient_in_loop p) (transformation_matrix p)
    (invert_matrix p) (gradient p) (callbacks p ++ [callback]) (molecule p).

Definition clear_molecule (p : HapticDeviceManager) : HapticDeviceManager :=
  with_scene p (calc_gradient_in_loop p) (transformation_matrix p)
    (invert_matrix p) (gradient p) (callbacks p) [].

Definition add_atom (atom : AtomData) (p : HapticDeviceManager)
  : HapticDeviceManager :=
  with_scene p (calc_gradient_in_loop p) (transformation_matrix p)
    (invert_matrix p) (gradient p) (callbacks p) (molecule p ++ [atom]).

(** [v[n] = x] on a vector; the callers check the range. *)
Fixpoint list_set {A : Type} (l : list A) (n : nat) (x : A) : list A :=
  match l, n with
  | [], _ => []
  | _ :: t, O => x :: t
  | h :: t, S n' => h :: list_set t n' x
  end.

(** [molecule[atom.getId()] = atom]; [None] when the index is out of range. *)
Definition update_atom (atom : AtomData) (p : HapticDeviceManager)
  : option HapticDeviceManager :=
  if (to_size_t (getId atom) <? Z.of_nat (length (molecule p)))%Z then
    Some (with_scene p (calc_gradient_in_loop p) (transformation_matrix p)
            (invert_matrix p) (gradient p) (callbacks p)
            (list_set (molecule p) (Z.to_nat (getId atom)) atom))
  else None.

Definition set_calc_gradient_in_loop (gradient_in_loop : bool)
    (p : HapticDeviceManager) : HapticDeviceManager :=
  with_scene p gradient_in_loop (transformation_matrix p)
    (invert_matrix p) (gradient p) (callbacks p) (molecule p).

(** [m[i][j] = value]; [None] when [i] or [j] is out of range. *)
Definition set_at2 (m : Matrix) (i j : nat) (value : R) : option Matrix :=
  match nth_error m i with
  | Some row =>
      if (j <? length row)%nat then Some (list_set m i (list_set row j value))
      else None
  | None => None
  end.

(** The loop [for (auto value : list) { m[index / w][index % w] = value;
    ++index; }], from [index] on. *)
Fixpoint write_flat (w : nat) (m : Matrix) (index : nat) (values : list R)
  : option Matrix :=
  match values with
  | [] => Some m
  | value :: rest =>
      match set_at2 m (index / w) (index mod w) value with
      | Some m' => write_flat w m' (S index) rest
      | None => None
      end
  end.

(** The first loop of [update_gradient]: rows of three zeros are pushed
    while the table has fewer than [n] rows. *)
Definition grow_gradient (gradient : Matrix) (n : nat) : Matrix :=
  gradient ++ repeat [0; 0; 0] (n - length gradient).

Definition update_gradient (gradient_list : list R) (p : HapticDeviceManager)
  : option HapticDeviceManager :=
  let grown := grow_gradient (gradient p) (length gradient_list / 3) in
  match write_flat 3 grown 0 gradient_list with
  | Some g =>
      Some (with_scene p (calc_gradient_in_loop p) (transformation_matrix p)
              (invert_matrix p) g (callbacks p) (molecule p))
  | None => None
  end.

Definition set_transformation_matrix (t_matrix i_matrix : list R)
    (p : HapticDeviceManager) : option HapticDeviceManager :=
  match write_flat 4 (transformation_matrix p) 0 t_matrix with
  | Some t =>
      match write_flat 4 (invert_matrix p) 0 i_matrix with
      | Some i =>
          Some (with_scene p (calc_gradient_in_loop p) t i (gradient p)
                  (callbacks p) (molecule p))
      | None => None
      end
  | None => None
  end.

Definition exit_haptic_device (p : HapticDeviceManager)
  : HapticDeviceManager :=
  if negb (ghHD p =? HD_INVALID_HANDLE)%Z
  then with_handles p HD_INVALID_HANDLE (hUpdateDeviceCallback p)
  else p.

(** ** Runs of the manager *)

(** One thing that happens to a manager: a call of the public interface
    or a tick of the scheduler. *)
Inductive Op : Type :=
| op_init_haptic_device (hd : HDInit)
| op_add_haptic_callback (callback : HapticCallback.handle)
| op_exit_haptic_device
| op_clear_molecule
| op_add_atom (atom : AtomData)
| op_update_atom (atom : AtomData)
| op_update_gradient (gradient_list : list R)
| op_set_calc_gradient_in_loop (gradient_in_loop : bool)
| op_set_transformation_matrix (t_matrix i_matrix : list R)
| op_tick (frame : HDFrame).

(** The manager after the operation, and what a tick produced.  [None]:
    the process exited or ran into an access out of range. *)
Definition step (op : Op) (p : HapticDeviceManager)
  : option (HapticDeviceManager * list TickResult) :=
  match op with
  | op_init_haptic_device hd => Some (fst (init_haptic_device hd p), [])
  | op_add_haptic_callback callback => Some (add_haptic_callback callback p, [])
  | op_exit_haptic_device => Some (exit_haptic_device p, [])
  | op_clear_molecule => Some (clear_molecule p, [])
  | op_add_atom atom => Some (add_atom atom p, [])
  | op_update_atom atom =>
      option_map (fun p' => (p', [])) (update_atom atom p)
  | op_update_gradient l =>
      option_map (fun p' => (p', [])) (update_gradient l p)
  | op_set_calc_gradient_in_loop b => Some (set_calc_gradient_in_loop b p, [])
  | op_set_transformation_matrix t i =>
      option_map (fun p' => (p', [])) (set_transformation_matrix t i p)
  | op_tick frame =>
      option_map (fun r => (manager r, [r])) (updateDeviceCallback frame p)
  end.

Fixpoint run (ops : list Op) (p : HapticDeviceManager)
  : option (HapticDeviceManager * list TickResult) :=
  match ops with
  | [] => Some (p, [])
  | op :: rest =>
      match step op p with
      | Some (p', out) =>
          match run rest p' with
          | Some (p'', out') => Some (p'', out ++ out')
          | None => None
          end
      | None => None
      end
  end.

(** ** Vocabulary of the properties *)

(** Entry [(i, j)] of the product of two 4x4 matrices. *)
Definition mat_mul4 (A B : Matrix) (i j : nat) : R :=
  at2 A i 0 * at2 B 0 j + at2 A i 1 * at2 B 1 j +
  at2 A i 2 * at2 B 2 j + at2 A i 3 * at2 B 3 j.

Definition kronecker (i j : nat) : R := if (i =? j)%nat then 1 else 0.

(** [Tinv] is the matrix inverse of [T]: both products are the identity. *)
Definition exact_inverse (T Tinv : Matrix) : Prop :=
  forall i j, (i < 4)%nat -> (j < 4)%nat ->
    mat_mul4 T Tinv i j = kronecker i j /\
    mat_mul4 Tinv T i j = kronecker i j.

(** The fourth row of an affine transform is [0 0 0 1]. *)
Definition affine (T : Matrix) : Prop :=
  at2 T 3 0 = 0 /\ at2 T 3 1 = 0 /\ at2 T 3 2 = 0 /\ at2 T 3 3 = 1.

(** Device to application coordinates and back. *)
Definition round_trip (T Tinv : Matrix) (s : Z) (v : hduVector3Dd)
  : hduVector3Dd :=
  let data := transformToAppCoordinates v T s in
  transformToHapticCoordinates (getPosX data) (getPosY data) (getPosZ data)
    Tinv s.

(** The force of guidance mode before clamping: [(atom - gradient) - atom]
    scaled by the stiffness 0.8. *)
Definition raw_guidance_force (atom_pos atom_gradient : hduVector3Dd)
  : hduVector3Dd :=
  hduVecScale (hduVecSubtract (hduVecSubtract atom_pos atom_gradient) atom_pos)
              0.8.

(** The pointer in application coordinates, as the tick computes it. *)
Definition tick_data (frame : HDFrame) (p : HapticDeviceManager)
  : HapticData :=
  transformToAppCoordinates (HD_CURRENT_POSITION frame)
    (transformation_matrix p) scale_factor.

(** The pair computed by lines 183-210 during a tick. *)
Definition tick_selection (frame : HDFrame) (p : HapticDeviceManager)
  : Z * option hduVector3Dd :=
  selectAndSetForce frame p (molecule p) (invert_matrix p) (gradient p)
    (tick_data frame p).

(** The local [selected_atom_id] of a tick. *)
Definition selected_atom_id (frame : HDFrame) (p : HapticDeviceManager) : Z :=
  fst (tick_selection frame p).

(** The local [closest_atom] of a tick with a non-empty molecule. *)
Definition closest_atom (frame : HDFrame) (p : HapticDeviceManager)
  : AtomData :=
  nth (Z.to_nat (findClosestAtomIndex (molecule p) (tick_data frame p)))
      (molecule p) no_atom.

(** The four button conditions of the tick. *)
Definition rising (mask current last : Z) : bool :=
  negb (Z.land current mask =? 0)%Z && (Z.land last mask =? 0)%Z.
Definition falling (mask current last : Z) : bool :=
  negb (Z.land current mask =? mask)%Z && (Z.land last mask =? mask)%Z.

(** One call of [c] per entry of the listener list, in registration
    order. *)
Definition to_all (cbs : list HapticCallback.handle)
    (c : HapticCallback.call) : list Notification :=
  map (fun callback => (callback, c)) cbs.

Definition edge_calls (edge : bool) (cbs : list HapticCallback.handle)
    (c : HapticCallback.call) : list Notification :=
  if edge then to_all cbs c else [].

(** A flag assigned inside the loop over the listeners changes only when
    there is a listener. *)
Definition edge_flag (edge : bool) (cbs : list HapticCallback.handle)
    (flag value : bool) : bool :=
  if edge then match cbs with [] => flag | _ :: _ => value end else flag.

Definition button_calls (frame : HDFrame) (p : HapticDeviceManager)
  : list Notification :=
  let current := HD_CURRENT_BUTTONS frame in
  let last := HD_LAST_BUTTONS frame in
  edge_calls (rising HD_DEVICE_BUTTON_1 current last) (callbacks p)
    HapticCallback.first_button_down ++
  edge_calls (falling HD_DEVICE_BUTTON_1 current last) (callbacks p)
    HapticCallback.first_button_up ++
  edge_calls (rising HD_DEVICE_BUTTON_2 current last) (callbacks p)
    (HapticCallback.second_button_down (selected_atom_id frame p)) ++
  edge_calls (falling HD_DEVICE_BUTTON_2 current last) (callbacks p)
    HapticCallback.second_button_up.

Definition first_flag_after (frame : HDFrame) (p : HapticDeviceManager)
  : bool :=
  let current := HD_CURRENT_BUTTONS frame in
  let last := HD_LAST_BUTTONS frame in
  edge_flag (falling HD_DEVICE_BUTTON_1 current last) (callbacks p)
    (edge_flag (rising HD_DEVICE_BUTTON_1 current last) (callbacks p)
       (first_button_down p) true) false.

Definition second_flag_after (frame : HDFrame) (p : HapticDeviceManager)
  : bool :=
  let current := HD_CURRENT_BUTTONS frame in
  let last := HD_LAST_BUTTONS frame in
  edge_flag (falling HD_DEVICE_BUTTON_2 current last) (callbacks p)
    (edge_flag (rising HD_DEVICE_BUTTON_2 current last) (callbacks p)
       (second_button_down p) true) false.

(** The throttle test of the tick. *)
Definition throttled (frame : HDFrame) (p : HapticDeviceManager) : bool :=
  (steady_clock_now frame - last_event_timestamp p <? kMinDelay)%Z.

(** The device position the tick compares with: the one recorded by the
    last pass through the throttle, or the device's previous position on
    the first pass. *)
Definition previous_sent (frame : HDFrame) (p : HapticDeviceManager)
  : hduVector3Dd :=
  if call_first_time p then HD_LAST_POSITION frame else last_send_data p.

Definition previous_data (frame : HDFrame) (p : HapticDeviceManager)
  : HapticData :=
  transformToAppCoordinates (previous_sent frame p)
    (transformation_matrix p) scale_factor.

(** The move call of a tick. *)
Definition move_call (frame : HDFrame) (p : HapticDeviceManager)
  : HapticCallback.call :=
  HapticCallback.move (tick_data frame p)
    (calculateAzimuth (HD_CURRENT_POSITION frame) (previous_sent frame p))
    (calculateElevation (HD_CURRENT_POSITION frame) (previous_sent frame p))
    (calculateZoom (HD_CURRENT_POSITION frame) (previous_sent frame p)).

Definition position_changed (frame : HDFrame) (p : HapticDeviceManager)
  : bool :=
  negb (Reqb (getPosX (tick_data frame p)) (getPosX (previous_data frame p)))
  || negb (Reqb (getPosY (tick_data frame p)) (getPosY (previous_data frame p)))
  || negb (Reqb (getPosZ (tick_data frame p)) (getPosZ (previous_data frame p))).

Definition move_calls (frame : HDFrame) (p : HapticDeviceManager)
  : list Notification :=
  if throttled frame p then []
  else if position_changed frame p
       then to_all (callbacks p) (move_call frame p)
       else [].

Definition manager_after (frame : HDFrame) (p : HapticDeviceManager)
  : HapticDeviceManager :=
  let q := with_buttons p (first_flag_after frame p)
             (second_flag_after frame p) in
  if throttled frame p then q
  else with_session q false (HD_CURRENT_POSITION frame)
         (steady_clock_now frame).

(** The calls of a trace that are [move] calls, and those of one button. *)
Definition is_move (n : Notification) : bool :=
  match snd n with HapticCallback.move _ _ _ _ => true | _ => false end.

Definition is_button1 (n : Notification) : bool :=
  match snd n with
  | HapticCallback.first_button_down | HapticCallback.first_button_up => true
  | _ => false
  end.

Definition is_button2 (n : Notification) : bool :=
  match snd n with
  | HapticCallback.second_button_down _ | HapticCallback.second_button_up =>
      true
  | _ => false
  end.

(** The calls one listener receives, in order. *)
Definition received (l : HapticCallback.handle) (ns : list Notification)
  : list HapticCallback.call :=
  map snd (filter (fun n => (fst n =? l)%nat) ns).

(** What a tick without device error returns. *)
Definition tick_result (frame : HDFrame) (p : HapticDeviceManager)
  : TickResult :=
  mkTick (manager_after frame p) (snd (tick_selection frame p))
         (button_calls frame p ++ move_calls frame p).

(** The manager is idle: no listener, no button flag set. *)
Definition idle (p : HapticDeviceManager) : Prop :=
  callbacks p = [] /\ first_button_down p = false /\
  second_button_down p = false.

Definition registers_listener (op : Op) : bool :=
  match op with op_add_haptic_callback _ => true | _ => false end.

(** The force of a tick is zero whenever one is written. *)
Definition force_is_zero (r : TickResult) : Prop :=
  HD_CURRENT_FORCE r = None \/ HD_CURRENT_FORCE r = Some zero.

(** The loop session state of the manager. *)
Definition loop_session (p : HapticDeviceManager)
  : bool * bool * bool * hduVector3Dd * Z :=
  (first_button_down p, second_button_down p, call_first_time p,
   last_send_data p, last_event_timestamp p).

(** A flat list cut into 3-vectors. *)
Fixpoint chunk3 (l : list R) : Matrix :=
  match l with
  | x :: y :: z :: rest => [x; y; z] :: chunk3 rest
  | _ => []
  end.

(** Every row of the gradient table has three entries. *)
Definition rows_of_three (g : Matrix) : Prop :=
  Forall (fun row => length row = 3%nat) g.

(** The state of the scan after the atoms of [pre]: nothing found yet, or
    the first atom of least distance in [pre] and that distance. *)
Definition scan_invariant (pre : list AtomData) (data : HapticData)
    (closest_atom_index : Z) (best_d : R) : Prop :=
  (pre = [] /\ closest_atom_index = (-1)%Z) \/
  (exists n a,
      closest_atom_index = Z.of_nat n /\ nth_error pre n = Some a /\
      best_d = calculateDistance a data /\
      (forall m b, nth_error pre m = Some b ->
         calculateDistance a data <= calculateDistance b data) /\
      (forall m b, nth_error pre m = Some b -> (m < n)%nat ->
         calculateDistance a data < calculateDistance b data)).

(** ** Sample data *)

(** A matrix with fourth row [0 0 0 2] and its inverse. *)
Definition skew_T : Matrix :=
  [[1; 0; 0; 1]; [0; 1; 0; 0]; [0; 0; 1; 0]; [0; 0; 0; 2]].

Definition skew_Tinv : Matrix :=
  [[1; 0; 0; -1/2]; [0; 1; 0; 0]; [0; 0; 1; 0]; [0; 0; 0; 1/2]].

(** A uniform scaling by 2 with a translation, and its inverse. *)
Definition affine_T : Matrix :=
  [[2; 0; 0; 1]; [0; 2; 0; 0]; [0; 0; 2; 0]; [0; 0; 0; 1]].

Definition affine_Tinv : Matrix :=
  [[1/2; 0; 0; -1/2]; [0; 1/2; 0; 0]; [0; 0; 1/2; 0]; [0; 0; 0; 1]].

(** Guidance mode on, second button held. *)
Definition guided_manager : HapticDeviceManager :=
  with_buttons (set_calc_gradient_in_loop true new_manager) false true.

(** A listener is registered, then a tick one second after the epoch sees
    the first button pressed. *)
Definition press_frame : HDFrame :=
  mkFrame zero zero 1 0 false 1 1000000000.

(** The manager that tick leaves. *)
Definition pressed_manager : HapticDeviceManager :=
  with_session (with_buttons (add_haptic_callback 7%nat new_manager) true false)
    false zero 1000000000.

(** A table of two rows, as [update_gradient] leaves it after six values. *)
Definition two_rows_manager : HapticDeviceManager :=
  with_scene new_manager false identity4 identity4
    [[1; 2; 3]; [4; 5; 6]] [] [].

(** Four values: one 3-vector and one value more. *)
Definition four_values : list R := [1; 2; 3; 4].

(** Three atoms on the axes, each at distance 1 from the origin. *)
Definition three_atoms : list AtomData :=
  [mkAtomData 0 1 0 0 1; mkAtomData 1 0 1 0 1; mkAtomData 2 0 0 1 1].

Definition origin : HapticData := mkHapticData 0 0 0.

(** A new manager with one listener. *)
Definition listening_manager : HapticDeviceManager :=
  add_haptic_callback 7%nat new_manager.

(** Four milliseconds after [press_frame], the pointer moved, the button
    still held. *)
Definition soon_frame : HDFrame :=
  mkFrame (mkVec 5 0 0) zero 1 1 false 1 1004000000.

(** Twenty milliseconds after [press_frame], the button released. *)
Definition later_frame : HDFrame :=
  mkFrame (mkVec 5 0 0) (mkVec 5 0 0) 0 1 false 1 1020000000.

(** The frame before [press_frame]: nothing pressed. *)
Definition rest_frame : HDFrame :=
  mkFrame zero zero 0 0 false 1 999000000.

(** Guidance mode on, one atom of radius 1 at the origin, no listener. *)
Definition one_atom_manager : HapticDeviceManager :=
  add_atom (mkAtomData 0 0 0 0 1)
    (set_calc_gradient_in_loop true new_manager).

(** Both buttons pressed, one second after the epoch. *)
Definition both_buttons_frame : HDFrame :=
  mkFrame zero zero 3 0 false 1 1000000000.

(** ** Vocabulary of the further properties *)

(** The values of a 32-bit [int]. *)
Definition is_int (n : Z) : Prop := (- 2 ^ 31 <= n < 2 ^ 31)%Z.

(** The atoms are added one by one after a [clear_molecule]. *)
Definition clear_and_fill (atoms : list AtomData) : list Op :=
  op_clear_molecule :: map op_add_atom atoms.

(** Everything of the manager the servicing loop only reads. *)
Definition scene (p : HapticDeviceManager)
  : Z * Z * bool * Matrix * Matrix * Matrix *
    list HapticCallback.handle * list AtomData :=
  (ghHD p, hUpdateDeviceCallback p, calc_gradient_in_loop p,
   transformation_matrix p, invert_matrix p, gradient p, callbacks p,
   molecule p).

(** The listeners a run registers, in order. *)
Definition registered (ops : list Op) : list HapticCallback.handle :=
  flat_map (fun op => match op with
                      | op_add_haptic_callback callback => [callback]
                      | _ => []
                      end) ops.

(** The local [gradient] of a tick after lines 186-195. *)
Definition tick_gradient (frame : HDFrame) (p : HapticDeviceManager)
  : list R :=
  if Rleb (calculateDistance (closest_atom frame p) (tick_data frame p))
          (3 * getDistance (closest_atom frame p))
  then
    if (to_size_t (getId (closest_atom frame p)) <?
        Z.of_nat (length (gradient p)))%Z
    then nth (Z.to_nat (getId (closest_atom frame p))) (gradient p) []
    else [0; 0; 0]
  else [0; 0; 0].

(** A flat list cut into rows of four. *)
Fixpoint chunk4 (l : list R) : Matrix :=
  match l with
  | a :: b :: c :: d :: rest => [a; b; c; d] :: chunk4 rest
  | _ => []
  end.

(** Every row has [w] entries. *)
Definition rows_of (w : nat) (m : Matrix) : Prop :=
  Forall (fun row => length row = w) m.

Definition is4x4 (m : Matrix) : Prop := length m = 4%nat /\ rows_of 4 m.

(** The pointer moves to x = 5 on the first tick, one second after the
    epoch, and on to x = 7 twenty milliseconds later. *)
Definition move_frame1 : HDFrame :=
  mkFrame (mkVec 5 0 0) zero 0 0 false 1 1000000000.

Definition move_frame2 : HDFrame :=
  mkFrame (mkVec 7 0 0) (mkVec 5 0 0) 0 0 false 1 1020000000.

(** [one_atom_manager] with a listener, after a tick that saw both buttons
    pressed; and a later frame with both buttons still held. *)
Definition held_manager : HapticDeviceManager :=
  manager_after both_buttons_frame
    (add_haptic_callback 7%nat one_atom_manager).

Definition hold_frame : HDFrame :=
  mkFrame zero zero 3 3 false 1 1020000000.

(** A rest, then a move: after [move_frame1] the pointer stays at x = 5
    twenty milliseconds later, and is at x = 7 five milliseconds after
    that. *)
Definition stay_frame : HDFrame :=
  mkFrame (mkVec 5 0 0) (mkVec 5 0 0) 0 0 false 1 1020000000.

Definition jump_frame : HDFrame :=
  mkFrame (mkVec 7 0 0) (mkVec 5 0 0) 0 0 false 1 1025000000.

Definition moved_result : TickResult :=
  tick_result move_frame1 listening_manager.

Definition stayed_result : TickResult :=
  tick_result stay_frame (manager moved_result).

Definition jumped_result : TickResult :=
  tick_result jump_frame (manager stayed_result).

(** * Properties *)

(** ** Comparisons on doubles *)

Lemma Rltb_true x y : Rltb x y = true <-> x < y.
Proof. unfold Rltb; destruct (Rlt_dec x y); split; intros; try easy. Qed.

Lemma Rltb_false x y : Rltb x y = false <-> y <= x.
Proof.
  unfold Rltb; destruct (Rlt_dec x y); split; intros; try easy; lra.
Qed.

Lemma Rleb_true x y : Rleb x y = true <-> x <= y.
Proof. unfold Rleb; destruct (Rle_dec x y); split; intros; try easy. Qed.

Lemma Rleb_false x y : Rleb x y = false <-> y < x.
Proof.
  unfold Rleb; destruct (Rle_dec x y); split; intros; try easy; lra.
Qed.

Lemma Reqb_true x y : Reqb x y = true <-> x = y.
Proof. unfold Reqb; destruct (Req_dec_T x y); split; intros; try easy. Qed.

Lemma Reqb_false x y : Reqb x y = false <-> x <> y.
Proof. unfold Reqb; destruct (Req_dec_T x y); split; intros; try easy. Qed.

(** ** Geometry *)

Lemma exact_inverse_rows T Tinv i j :
  exact_inverse T Tinv -> (i < 4)%nat -> (j < 4)%nat ->
  mat_mul4 Tinv T i j = kronecker i j.
Proof. intros H Hi Hj. exact (proj2 (H i j Hi Hj)). Qed.

Ltac below_four i :=
  destruct i as [|[|[|[|i]]]]; [ | | | | lia ].

Lemma skew_exact_inverse : exact_inverse skew_T skew_Tinv.
Proof.
  intros i j Hi Hj.
  below_four i; below_four j;
    unfold mat_mul4, at2, kronecker, skew_T, skew_Tinv; simpl; split; lra.
Qed.

(** C5, as stated, fails: [skew_T] has an exact inverse, and the point
    [(0, 0, 0)] comes back as [(1/2, 0, 0)], because the two transforms
    never read the fourth row of their matrix. *)
Lemma round_trip_not_for_every_invertible_matrix :
  ~ (forall T Tinv s v,
        exact_inverse T Tinv -> s <> 0%Z -> round_trip T Tinv s v = v).
Proof.
  intros H.
  specialize (H skew_T skew_Tinv scale_factor zero skew_exact_inverse).
  assert (Hs : scale_factor <> 0%Z) by (unfold scale_factor; lia).
  specialize (H Hs).
  apply (f_equal vx) in H.
  unfold round_trip, transformToAppCoordinates, transformToHapticCoordinates,
    at2, skew_T, skew_Tinv, scale_factor, zero in H; simpl in H.
  lra.
Qed.

(** C5, amended: for an affine [T] (fourth row [0 0 0 1]) with exact
    inverse [Tinv] and a scale factor other than zero,
    [transformToHapticCoordinates] with [Tinv] undoes
    [transformToAppCoordinates] with [T], exactly over the reals. *)
Theorem round_trip_affine (T Tinv : Matrix) (s : Z) (v : hduVector3Dd) :
  affine T -> exact_inverse T Tinv -> s <> 0%Z ->
  round_trip T Tinv s v = v.
Proof.
  intros (A0 & A1 & A2 & A3) Hinv Hs.
  assert (Hs' : IZR s <> 0) by (apply not_0_IZR; exact Hs).
  assert (E : forall i j, (i < 3)%nat -> (j < 4)%nat ->
            at2 Tinv i 0 * at2 T 0 j + at2 Tinv i 1 * at2 T 1 j +
            at2 Tinv i 2 * at2 T 2 j =
            kronecker i j - at2 Tinv i 3 * at2 T 3 j).
  { intros i j Hi Hj.
    pose proof (exact_inverse_rows T Tinv i j Hinv ltac:(lia) Hj) as H.
    unfold mat_mul4 in H. lra. }
  destruct v as [x y z].
  unfold round_trip, transformToAppCoordinates, transformToHapticCoordinates.
  cbn [getPosX getPosY getPosZ vx vy vz].
  pose proof (E 0%nat 0%nat ltac:(lia) ltac:(lia)) as E00.
  pose proof (E 0%nat 1%nat ltac:(lia) ltac:(lia)) as E01.
  pose proof (E 0%nat 2%nat ltac:(lia) ltac:(lia)) as E02.
  pose proof (E 0%nat 3%nat ltac:(lia) ltac:(lia)) as E03.
  pose proof (E 1%nat 0%nat ltac:(lia) ltac:(lia)) as E10.
  pose proof (E 1%nat 1%nat ltac:(lia) ltac:(lia)) as E11.
  pose proof (E 1%nat 2%nat ltac:(lia) ltac:(lia)) as E12.
  pose proof (E 1%nat 3%nat ltac:(lia) ltac:(lia)) as E13.
  pose proof (E 2%nat 0%nat ltac:(lia) ltac:(lia)) as E20.
  pose proof (E 2%nat 1%nat ltac:(lia) ltac:(lia)) as E21.
  pose proof (E 2%nat 2%nat ltac:(lia) ltac:(lia)) as E22.
  pose proof (E 2%nat 3%nat ltac:(lia) ltac:(lia)) as E23.
  rewrite A0, A1, A2, A3 in *.
  unfold kronecker in *; simpl in *.
  f_equal.
  - transitivity
      ((at2 Tinv 0 0 * at2 T 0 0 + at2 Tinv 0 1 * at2 T 1 0 +
        at2 Tinv 0 2 * at2 T 2 0) * x +
       (at2 Tinv 0 0 * at2 T 0 1 + at2 Tinv 0 1 * at2 T 1 1 +
        at2 Tinv 0 2 * at2 T 2 1) * y +
       (at2 Tinv 0 0 * at2 T 0 2 + at2 Tinv 0 1 * at2 T 1 2 +
        at2 Tinv 0 2 * at2 T 2 2) * z +
       (at2 Tinv 0 0 * at2 T 0 3 + at2 Tinv 0 1 * at2 T 1 3 +
        at2 Tinv 0 2 * at2 T 2 3) + at2 Tinv 0 3).
    + field; exact Hs'.
    + rewrite E00, E01, E02, E03. ring.
  - transitivity
      ((at2 Tinv 1 0 * at2 T 0 0 + at2 Tinv 1 1 * at2 T 1 0 +
        at2 Tinv 1 2 * at2 T 2 0) * x +
       (at2 Tinv 1 0 * at2 T 0 1 + at2 Tinv 1 1 * at2 T 1 1 +
        at2 Tinv 1 2 * at2 T 2 1) * y +
       (at2 Tinv 1 0 * at2 T 0 2 + at2 Tinv 1 1 * at2 T 1 2 +
        at2 Tinv 1 2 * at2 T 2 2) * z +
       (at2 Tinv 1 0 * at2 T 0 3 + at2 Tinv 1 1 * at2 T 1 3 +
        at2 Tinv 1 2 * at2 T 2 3) + at2 Tinv 1 3).
    + field; exact Hs'.
    + rewrite E10, E11, E12, E13. ring.
  - transitivity
      ((at2 Tinv 2 0 * at2 T 0 0 + at2 Tinv 2 1 * at2 T 1 0 +
        at2 Tinv 2 2 * at2 T 2 0) * x +
       (at2 Tinv 2 0 * at2 T 0 1 + at2 Tinv 2 1 * at2 T 1 1 +
        at2 Tinv 2 2 * at2 T 2 1) * y +
       (at2 Tinv 2 0 * at2 T 0 2 + at2 Tinv 2 1 * at2 T 1 2 +
        at2 Tinv 2 2 * at2 T 2 2) * z +
       (at2 Tinv 2 0 * at2 T 0 3 + at2 Tinv 2 1 * at2 T 1 3 +
        at2 Tinv 2 2 * at2 T 2 3) + at2 Tinv 2 3).
    + field; exact Hs'.
    + rewrite E20, E21, E22, E23. ring.
Qed.

Lemma round_trip_affine_witness :
  affine affine_T /\ exact_inverse affine_T affine_Tinv /\
  scale_factor <> 0%Z /\
  round_trip affine_T affine_Tinv scale_factor (mkVec 1 2 3) = mkVec 1 2 3.
Proof.
  assert (A : affine affine_T).
  { unfold affine, at2, affine_T; simpl; repeat split; lra. }
  assert (I : exact_inverse affine_T affine_Tinv).
  { intros i j Hi Hj.
    below_four i; below_four j;
      unfold mat_mul4, at2, kronecker, affine_T, affine_Tinv; simpl;
      split; lra. }
  assert (S : scale_factor <> 0%Z) by (unfold scale_factor; lia).
  split; [exact A | split; [exact I | split; [exact S | ]]].
  exact (round_trip_affine affine_T affine_Tinv scale_factor
           (mkVec 1 2 3) A I S).
Defined.

(** ** Force *)

Lemma magnitude_nonneg v : 0 <= hduVecMagnitude v.
Proof. apply sqrt_pos. Qed.

Lemma magnitude_square v :
  hduVecMagnitude v * hduVecMagnitude v =
  vx v * vx v + vy v * vy v + vz v * vz v.
Proof. unfold hduVecMagnitude. apply sqrt_def. nra. Qed.

Lemma magnitude_scale v s :
  0 <= s -> hduVecMagnitude (hduVecScale v s) = hduVecMagnitude v * s.
Proof.
  intros Hs. unfold hduVecMagnitude, hduVecScale; simpl.
  replace (vx v * s * (vx v * s) + vy v * s * (vy v * s) +
           vz v * s * (vz v * s))
    with ((vx v * vx v + vy v * vy v + vz v * vz v) * (s * s)) by ring.
  rewrite sqrt_mult by nra.
  rewrite (sqrt_square s) by exact Hs.
  reflexivity.
Qed.

Lemma magnitude_normalize v :
  0 < hduVecMagnitude v -> hduVecMagnitude (hduVecNormalize v) = 1.
Proof.
  intros Hm.
  pose proof (magnitude_square v) as Hsq.
  set (m := hduVecMagnitude v) in *.
  unfold hduVecNormalize. fold m.
  unfold hduVecMagnitude at 1; simpl.
  replace (vx v / m * (vx v / m) + vy v / m * (vy v / m) +
           vz v / m * (vz v / m))
    with ((vx v * vx v + vy v * vy v + vz v * vz v) / (m * m))
    by (field; lra).
  rewrite <- Hsq.
  replace (m * m / (m * m)) with 1 by (field; lra).
  apply sqrt_1.
Qed.

Lemma magnitude_zero : hduVecMagnitude zero = 0.
Proof.
  unfold hduVecMagnitude, zero; simpl.
  replace (0 * 0 + 0 * 0 + 0 * 0) with 0 by ring. apply sqrt_0.
Qed.

(** What [scaleForce] returns, by cases on the scaled magnitude. *)
Lemma scaleForce_cases force_clamp force stiffness :
  0 <= force_clamp ->
  let scaled := hduVecScale force stiffness in
  (hduVecMagnitude scaled <= force_clamp ->
     scaleForce force_clamp force stiffness = scaled) /\
  (force_clamp < hduVecMagnitude scaled ->
     scaleForce force_clamp force stiffness =
       hduVecScale (hduVecNormalize scaled) force_clamp /\
     hduVecMagnitude (hduVecNormalize scaled) = 1 /\
     hduVecMagnitude (scaleForce force_clamp force stiffness) = force_clamp) /\
  hduVecMagnitude (scaleForce force_clamp force stiffness) <= force_clamp.
Proof.
  intros Hc scaled.
  assert (Hover : force_clamp < hduVecMagnitude scaled ->
     scaleForce force_clamp force stiffness =
       hduVecScale (hduVecNormalize scaled) force_clamp /\
     hduVecMagnitude (hduVecNormalize scaled) = 1 /\
     hduVecMagnitude (scaleForce force_clamp force stiffness) = force_clamp).
  { intros Hlt.
    assert (Hunit : hduVecMagnitude (hduVecNormalize scaled) = 1)
      by (apply magnitude_normalize; lra).
    assert (Heq : scaleForce force_clamp force stiffness =
                  hduVecScale (hduVecNormalize scaled) force_clamp).
    { unfold scaleForce. fold scaled.
      destruct (Rltb force_clamp (hduVecMagnitude scaled)) eqn:E;
        [reflexivity|]. apply Rltb_false in E. lra. }
    repeat split; try assumption.
    rewrite Heq, magnitude_scale by exact Hc. rewrite Hunit. ring. }
  assert (Hunder : hduVecMagnitude scaled <= force_clamp ->
     scaleForce force_clamp force stiffness = scaled).
  { intros Hle. unfold scaleForce. fold scaled.
    destruct (Rltb force_clamp (hduVecMagnitude scaled)) eqn:E;
      [|reflexivity]. apply Rltb_true in E. lra. }
  repeat split; try assumption; try (apply Hover; assumption).
  destruct (Rle_dec (hduVecMagnitude scaled) force_clamp) as [Hle|Hgt].
  - rewrite (Hunder Hle). exact Hle.
  - destruct (Hover ltac:(lra)) as (_ & _ & ->). lra.
Qed.

(** C1: with guidance mode on and the second button held, [setForce]
    writes [(atom_pos - atom_gradient) - atom_pos] scaled by 0.8 when that
    is within the device's ceiling, and otherwise that vector normalised to
    unit length and rescaled to exactly the ceiling; the written magnitude
    never exceeds the ceiling.  In every other case it writes the zero
    vector.  The ceiling of a device is not negative. *)
Theorem setForce_spec (force_clamp : R)
    (position atom_pos atom_gradient : hduVector3Dd)
    (p_this : HapticDeviceManager) :
  0 <= force_clamp ->
  let written := setForce force_clamp position atom_pos atom_gradient p_this in
  let raw := raw_guidance_force atom_pos atom_gradient in
  (calc_gradient_in_loop p_this = true /\ second_button_down p_this = true ->
     (hduVecMagnitude raw <= force_clamp -> written = raw) /\
     (force_clamp < hduVecMagnitude raw ->
        written = hduVecScale (hduVecNormalize raw) force_clamp /\
        hduVecMagnitude (hduVecNormalize raw) = 1 /\
        hduVecMagnitude written = force_clamp) /\
     hduVecMagnitude written <= force_clamp) /\
  (calc_gradient_in_loop p_this = false \/ second_button_down p_this = false ->
     written = zero).
Proof.
  intros Hc written raw. split.
  - intros [Hg Hb].
    assert (Hw : written =
                 scaleForce force_clamp
                   (hduVecSubtract (hduVecSubtract atom_pos atom_gradient)
                      atom_pos) 0.8).
    { unfold written, setForce. rewrite Hg, Hb. reflexivity. }
    rewrite Hw.
    exact (scaleForce_cases force_clamp _ 0.8 Hc).
  - intros Hoff. unfold written, setForce.
    destruct Hoff as [-> | ->]; [reflexivity|].
    rewrite andb_false_r. reflexivity.
Qed.

Lemma setForce_spec_witness :
  0 <= 1 /\
  hduVecMagnitude
    (setForce 1 zero (mkVec 1 0 0) (mkVec 3 4 0) guided_manager) <= 1.
Proof.
  split; [lra|].
  apply (setForce_spec 1 zero (mkVec 1 0 0) (mkVec 3 4 0) guided_manager
           ltac:(lra)).
  split; reflexivity.
Defined.

(** ** Proximity *)

Lemma scan_invariant_step pre data c best atom :
  scan_invariant pre data c best ->
  let d := calculateDistance atom data in
  if (c =? -1)%Z || Rltb d best
  then scan_invariant (pre ++ [atom]) data (Z.of_nat (length pre)) d
  else scan_invariant (pre ++ [atom]) data c best.
Proof.
  intros Hinv d.
  destruct Hinv as [[-> ->] | (n & a & -> & Hn & -> & Hmin & Hfirst)].
  - simpl. right. exists 0%nat, atom. simpl. repeat split.
    + intros [|m] b Hb; simpl in Hb.
      * injection Hb as <-. lra.
      * destruct m; discriminate.
    + intros m b _ Hm. lia.
  - assert (Hneq : (Z.of_nat n =? -1)%Z = false) by (apply Z.eqb_neq; lia).
    rewrite Hneq. simpl.
    assert (Hlen : (n < length pre)%nat)
      by (apply nth_error_Some; rewrite Hn; discriminate).
    destruct (Rltb d (calculateDistance a data)) eqn:E.
    + apply Rltb_true in E. right. exists (length pre), atom.
      repeat split.
      * rewrite nth_error_app2 by lia. rewrite Nat.sub_diag. reflexivity.
      * intros m b Hb.
        destruct (Nat.lt_ge_cases m (length pre)) as [Hm|Hm].
        -- rewrite nth_error_app1 in Hb by exact Hm.
           specialize (Hmin m b Hb). fold d. lra.
        -- rewrite nth_error_app2 in Hb by exact Hm.
           destruct (m - length pre)%nat as [|k]; simpl in Hb.
           ++ injection Hb as <-. lra.
           ++ destruct k; discriminate.
      * intros m b Hb Hm.
        rewrite nth_error_app1 in Hb by exact Hm.
        specialize (Hmin m b Hb). fold d. lra.
    + apply Rltb_false in E. right. exists n, a.
      repeat split.
      * rewrite nth_error_app1 by exact Hlen. exact Hn.
      * intros m b Hb.
        destruct (Nat.lt_ge_cases m (length pre)) as [Hm|Hm].
        -- rewrite nth_error_app1 in Hb by exact Hm. exact (Hmin m b Hb).
        -- rewrite nth_error_app2 in Hb by exact Hm.
           destruct (m - length pre)%nat as [|k]; simpl in Hb.
           ++ injection Hb as <-. exact E.
           ++ destruct k; discriminate.
      * intros m b Hb Hm.
        rewrite nth_error_app1 in Hb by lia. exact (Hfirst m b Hb Hm).
Qed.

Lemma findClosest_loop_invariant rest : forall pre data c best,
  scan_invariant pre data c best ->
  exists best',
    scan_invariant (pre ++ rest) data
      (findClosest_loop rest data (Z.of_nat (length pre)) c best) best'.
Proof.
  induction rest as [|atom rest IH]; intros pre data c best Hinv.
  - exists best. rewrite app_nil_r. exact Hinv.
  - simpl.
    pose proof (scan_invariant_step pre data c best atom Hinv) as Hstep.
    simpl in Hstep.
    replace (pre ++ atom :: rest) with ((pre ++ [atom]) ++ rest)
      by (rewrite <- app_assoc; reflexivity).
    replace (Z.of_nat (length pre) + 1)%Z
      with (Z.of_nat (length (pre ++ [atom])))
      by (rewrite length_app; simpl; lia).
    destruct ((c =? -1)%Z || Rltb (calculateDistance atom data) best);
      apply IH; exact Hstep.
Qed.

(** C2: on the empty list [findClosestAtomIndex] returns -1; on any other
    list it returns the index of an atom whose distance to the pointer is
    least in the list, and every atom at that same distance has an index
    at least as large. *)
Theorem findClosestAtomIndex_spec (molecule : list AtomData)
    (data : HapticData) :
  (molecule = [] -> findClosestAtomIndex molecule data = (-1)%Z) /\
  (molecule <> [] ->
   exists n a,
     findClosestAtomIndex molecule data = Z.of_nat n /\
     nth_error molecule n = Some a /\
     forall m b, nth_error molecule m = Some b ->
       calculateDistance a data <= calculateDistance b data /\
       (calculateDistance b data = calculateDistance a data -> (n <= m)%nat)).
Proof.
  split.
  - intros ->. reflexivity.
  - intros Hne.
    destruct (findClosest_loop_invariant molecule [] data (-1)%Z (-1))
      as [best' Hinv].
    { left. split; reflexivity. }
    simpl in Hinv. fold (findClosestAtomIndex molecule data) in Hinv.
    destruct Hinv as [[Hnil _] | (n & a & Hidx & Hn & _ & Hmin & Hfirst)].
    + contradiction.
    + exists n, a. repeat split; try assumption.
      * exact (Hmin m b H).
      * intros Heq. destruct (Nat.le_gt_cases n m) as [Hle|Hlt]; [exact Hle|].
        specialize (Hfirst m b H Hlt). lra.
Qed.

(** ** The tick, in closed form *)

Lemma notify_all_eq cbs flag value c :
  notify_all cbs flag value c =
  (match cbs with [] => flag | _ :: _ => value end, to_all cbs c).
Proof.
  unfold notify_all, to_all.
  assert (G : forall l f out,
    fold_left (fun (acc : bool * list Notification) callback =>
                 (value, snd acc ++ [(callback, c)])) l (f, out) =
    (match l with [] => f | _ :: _ => value end,
     out ++ map (fun callback => (callback, c)) l)).
  { induction l as [|h t IH]; intros f out; simpl.
    - rewrite app_nil_r. reflexivity.
    - rewrite IH. rewrite <- app_assoc. simpl.
      destruct t; reflexivity. }
  rewrite G. reflexivity.
Qed.

Lemma tick_shape frame p :
  HD_DEVICE_ERROR frame = false ->
  updateDeviceCallback frame p =
  Some (mkTick (manager_after frame p) (snd (tick_selection frame p))
               (button_calls frame p ++ move_calls frame p)).
Proof.
  intros Herr.
  unfold updateDeviceCallback. rewrite Herr.
  unfold manager_after, button_calls, move_calls, first_flag_after,
    second_flag_after, selected_atom_id, throttled, position_changed,
    move_call, previous_data, previous_sent.
  fold (tick_data frame p).
  fold (tick_selection frame p).
  destruct (tick_selection frame p) as [sel force].
  rewrite !notify_all_eq.
  unfold edge_calls, edge_flag, rising, falling.
  cbn [fst snd].
  destruct (negb (Z.land (HD_CURRENT_BUTTONS frame) HD_DEVICE_BUTTON_1 =? 0)%Z
            && (Z.land (HD_LAST_BUTTONS frame) HD_DEVICE_BUTTON_1 =? 0)%Z);
  destruct (negb (Z.land (HD_CURRENT_BUTTONS frame) HD_DEVICE_BUTTON_1 =?
                  HD_DEVICE_BUTTON_1)%Z
            && (Z.land (HD_LAST_BUTTONS frame) HD_DEVICE_BUTTON_1 =?
                HD_DEVICE_BUTTON_1)%Z) eqn:F1;
  destruct (negb (Z.land (HD_CURRENT_BUTTONS frame) HD_DEVICE_BUTTON_2 =? 0)%Z
            && (Z.land (HD_LAST_BUTTONS frame) HD_DEVICE_BUTTON_2 =? 0)%Z);
  destruct (negb (Z.land (HD_CURRENT_BUTTONS frame) HD_DEVICE_BUTTON_2 =?
                  HD_DEVICE_BUTTON_2)%Z
            && (Z.land (HD_LAST_BUTTONS frame) HD_DEVICE_BUTTON_2 =?
                HD_DEVICE_BUTTON_2)%Z) eqn:F2;
  unfold HD_DEVICE_BUTTON_1, HD_DEVICE_BUTTON_2 in *;
  rewrite ?F1, ?F2;
  repeat (first [rewrite notify_all_eq | progress cbn beta iota zeta]);
  cbn [with_buttons last_event_timestamp call_first_time last_send_data
       transformation_matrix callbacks];
  destruct (steady_clock_now frame - last_event_timestamp p <? kMinDelay)%Z;
  rewrite ?app_nil_r; try reflexivity;
  destruct (call_first_time p); reflexivity.
Qed.

Lemma tick_returns frame p :
  HD_DEVICE_ERROR frame = false ->
  updateDeviceCallback frame p = Some (tick_result frame p).
Proof. apply tick_shape. Qed.

Lemma tick_inversion frame p r :
  updateDeviceCallback frame p = Some r ->
  HD_DEVICE_ERROR frame = false /\ r = tick_result frame p.
Proof.
  intros H.
  assert (Herr : HD_DEVICE_ERROR frame = false).
  { unfold updateDeviceCallback in H.
    destruct (HD_DEVICE_ERROR frame); [discriminate|reflexivity]. }
  split; [exact Herr|].
  rewrite (tick_returns frame p Herr) in H. injection H as <-. reflexivity.
Qed.

Lemma filter_to_all_keep (f : Notification -> bool) cbs c :
  (forall cb, f (cb, c) = true) -> filter f (to_all cbs c) = to_all cbs c.
Proof.
  intros H. unfold to_all.
  induction cbs as [|h t IH]; simpl; [reflexivity|].
  rewrite H, IH. reflexivity.
Qed.

Lemma filter_to_all_drop (f : Notification -> bool) cbs c :
  (forall cb, f (cb, c) = false) -> filter f (to_all cbs c) = [].
Proof.
  intros H. unfold to_all.
  induction cbs as [|h t IH]; simpl; [reflexivity|].
  rewrite H, IH. reflexivity.
Qed.

Lemma filter_edge_keep (f : Notification -> bool) e cbs c :
  (forall cb, f (cb, c) = true) ->
  filter f (edge_calls e cbs c) = edge_calls e cbs c.
Proof.
  intros H. destruct e; simpl; [apply filter_to_all_keep; exact H|reflexivity].
Qed.

Lemma filter_edge_drop (f : Notification -> bool) e cbs c :
  (forall cb, f (cb, c) = false) -> filter f (edge_calls e cbs c) = [].
Proof.
  intros H. destruct e; simpl; [apply filter_to_all_drop; exact H|reflexivity].
Qed.

Lemma move_calls_no_button frame p (f : Notification -> bool) :
  (forall cb, f (cb, move_call frame p) = false) ->
  filter f (move_calls frame p) = [].
Proof.
  intros H. unfold move_calls.
  destruct (throttled frame p); [reflexivity|].
  destruct (position_changed frame p); [|reflexivity].
  apply filter_to_all_drop; exact H.
Qed.

Lemma button1_calls_of_tick frame p :
  filter is_button1 (button_calls frame p ++ move_calls frame p) =
  edge_calls (rising HD_DEVICE_BUTTON_1 (HD_CURRENT_BUTTONS frame)
                (HD_LAST_BUTTONS frame)) (callbacks p)
    HapticCallback.first_button_down ++
  edge_calls (falling HD_DEVICE_BUTTON_1 (HD_CURRENT_BUTTONS frame)
                (HD_LAST_BUTTONS frame)) (callbacks p)
    HapticCallback.first_button_up.
Proof.
  unfold button_calls. rewrite !filter_app.
  rewrite (move_calls_no_button frame p is_button1) by reflexivity.
  rewrite (filter_edge_keep is_button1 _ _ HapticCallback.first_button_down),
    (filter_edge_keep is_button1 _ _ HapticCallback.first_button_up),
    (filter_edge_drop is_button1 _ _ (HapticCallback.second_button_down _)),
    (filter_edge_drop is_button1 _ _ HapticCallback.second_button_up)
    by reflexivity.
  rewrite !app_nil_r. reflexivity.
Qed.

Lemma button2_calls_of_tick frame p :
  filter is_button2 (button_calls frame p ++ move_calls frame p) =
  edge_calls (rising HD_DEVICE_BUTTON_2 (HD_CURRENT_BUTTONS frame)
                (HD_LAST_BUTTONS frame)) (callbacks p)
    (HapticCallback.second_button_down (selected_atom_id frame p)) ++
  edge_calls (falling HD_DEVICE_BUTTON_2 (HD_CURRENT_BUTTONS frame)
                (HD_LAST_BUTTONS frame)) (callbacks p)
    HapticCallback.second_button_up.
Proof.
  unfold button_calls. rewrite !filter_app.
  rewrite (move_calls_no_button frame p is_button2) by reflexivity.
  rewrite (filter_edge_drop is_button2 _ _ HapticCallback.first_button_down),
    (filter_edge_drop is_button2 _ _ HapticCallback.first_button_up),
    (filter_edge_keep is_button2 _ _ (HapticCallback.second_button_down _)),
    (filter_edge_keep is_button2 _ _ HapticCallback.second_button_up)
    by reflexivity.
  rewrite !app_nil_r. reflexivity.
Qed.

Lemma move_calls_of_tick frame p :
  filter is_move (button_calls frame p ++ move_calls frame p) =
  move_calls frame p.
Proof.
  unfold button_calls. rewrite !filter_app.
  rewrite (filter_edge_drop is_move _ _ HapticCallback.first_button_down),
    (filter_edge_drop is_move _ _ HapticCallback.first_button_up),
    (filter_edge_drop is_move _ _ (HapticCallback.second_button_down _)),
    (filter_edge_drop is_move _ _ HapticCallback.second_button_up)
    by reflexivity.
  simpl. unfold move_calls.
  destruct (throttled frame p); [reflexivity|].
  destruct (position_changed frame p); [|reflexivity].
  apply filter_to_all_keep. reflexivity.
Qed.

Lemma position_changed_true frame p :
  position_changed frame p = true <-> tick_data frame p <> previous_data frame p.
Proof.
  unfold position_changed.
  destruct (tick_data frame p) as [x y z].
  destruct (previous_data frame p) as [x' y' z']. simpl.
  destruct (Reqb x x') eqn:Ex; destruct (Reqb y y') eqn:Ey;
    destruct (Reqb z z') eqn:Ez; simpl;
    rewrite ?Reqb_true, ?Reqb_false in *;
    split; intros H; try reflexivity; try discriminate;
    try (intros E; injection E as Hx Hy Hz; contradiction).
  subst. exfalso. apply H. reflexivity.
Qed.

Lemma position_changed_false frame p :
  position_changed frame p = false <-> tick_data frame p = previous_data frame p.
Proof.
  unfold position_changed.
  destruct (tick_data frame p) as [x y z].
  destruct (previous_data frame p) as [x' y' z']. simpl.
  destruct (Reqb x x') eqn:Ex; destruct (Reqb y y') eqn:Ey;
    destruct (Reqb z z') eqn:Ez; simpl;
    rewrite ?Reqb_true, ?Reqb_false in *;
    split; intros H; try reflexivity; try discriminate;
    try (subst; reflexivity);
    injection H as Hx Hy Hz; contradiction.
Qed.

(** ** Selection *)

Lemma selected_none_when_empty frame p :
  molecule p = [] -> selected_atom_id frame p = (-1)%Z.
Proof.
  intros H. unfold selected_atom_id, tick_selection, selectAndSetForce.
  rewrite H. reflexivity.
Qed.

Lemma selected_cases frame p :
  molecule p <> [] ->
  selected_atom_id frame p =
  if Rleb (calculateDistance (closest_atom frame p) (tick_data frame p))
          (3 * getDistance (closest_atom frame p))
  then getId (closest_atom frame p) else (-1)%Z.
Proof.
  intros Hne.
  unfold selected_atom_id, tick_selection, selectAndSetForce.
  fold (closest_atom frame p).
  destruct (molecule p) as [|a0 rest] eqn:Hm; [contradiction|].
  cbn [length Nat.ltb Nat.leb].
  destruct (Rleb (calculateDistance (closest_atom frame p) (tick_data frame p))
                 (3 * getDistance (closest_atom frame p))); [|reflexivity].
  destruct (to_size_t (getId (closest_atom frame p)) <?
            Z.of_nat (length (gradient p)))%Z; reflexivity.
Qed.



(** ** Throttling of move events *)

Lemma kMinDelay_value : kMinDelay = 16666000%Z.
Proof. reflexivity. Qed.

Lemma throttled_true frame p :
  throttled frame p = true <->
  (steady_clock_now frame - last_event_timestamp p < kMinDelay)%Z.
Proof. unfold throttled. apply Z.ltb_lt. Qed.

Lemma throttled_false frame p :
  throttled frame p = false <->
  (kMinDelay <= steady_clock_now frame - last_event_timestamp p)%Z.
Proof. unfold throttled. apply Z.ltb_ge. Qed.

(** *** Steps and runs *)

Lemma step_tick frame p p' out :
  step (op_tick frame) p = Some (p', out) ->
  HD_DEVICE_ERROR frame = false /\ p' = manager_after frame p /\
  out = [tick_result frame p].
Proof.
  cbn [step]. intros H.
  destruct (updateDeviceCallback frame p) as [r|] eqn:E; [|discriminate].
  apply tick_inversion in E. destruct E as [Herr ->].
  injection H as <- <-. repeat split. exact Herr.
Qed.

Lemma step_interface op p p' out :
  (forall frame, op <> op_tick frame) ->
  step op p = Some (p', out) ->
  out = [] /\ loop_session p' = loop_session p /\
  callbacks p' = callbacks p ++ registered [op].
Proof.
  intros Hop Hstep.
  destruct op; cbn [step] in Hstep; cbn [registered flat_map];
    rewrite ?app_nil_r.
  - injection Hstep as <- <-. unfold init_haptic_device.
    destruct (init_error hd); [|destruct (scheduler_error hd)];
      repeat split.
  - injection Hstep as <- <-. repeat split.
  - injection Hstep as <- <-. unfold exit_haptic_device.
    destruct (negb _); repeat split.
  - injection Hstep as <- <-. repeat split.
  - injection Hstep as <- <-. repeat split.
  - unfold update_atom in Hstep. destruct (_ <? _)%Z; [|discriminate].
    injection Hstep as <- <-. repeat split.
  - unfold update_gradient in Hstep.
    destruct (write_flat _ _ _ _); [|discriminate].
    injection Hstep as <- <-. repeat split.
  - injection Hstep as <- <-. repeat split.
  - unfold set_transformation_matrix in Hstep.
    destruct (write_flat _ _ _ t_matrix); [|discriminate].
    destruct (write_flat _ _ _ i_matrix); [|discriminate].
    injection Hstep as <- <-. repeat split.
  - exfalso. apply (Hop frame). reflexivity.
Qed.

Lemma step_cases op p p' out :
  step op p = Some (p', out) ->
  (exists frame, op = op_tick frame /\ HD_DEVICE_ERROR frame = false /\
                 p' = manager_after frame p /\ out = [tick_result frame p]) \/
  ((forall frame, op <> op_tick frame) /\ out = [] /\
   loop_session p' = loop_session p /\
   callbacks p' = callbacks p ++ registered [op]).
Proof.
  intros Hstep.
  destruct op;
    try (right; split; [intros f; discriminate|];
         apply step_interface; [intros f; discriminate|exact Hstep]).
  left. exists frame. split; [reflexivity|]. apply step_tick. exact Hstep.
Qed.

(** A relation that every step respects holds along every run. *)
Lemma run_relation (Rel : HapticDeviceManager -> HapticDeviceManager -> Prop) :
  (forall p, Rel p p) ->
  (forall a b c, Rel a b -> Rel b c -> Rel a c) ->
  (forall op p p' out, step op p = Some (p', out) -> Rel p p') ->
  forall ops p p' out, run ops p = Some (p', out) -> Rel p p'.
Proof.
  intros Hrefl Htrans Hstep.
  induction ops as [|op ops IH]; intros p p' out Hrun.
  - injection Hrun as <- <-. apply Hrefl.
  - cbn [run] in Hrun.
    destruct (step op p) as [[p1 out1]|] eqn:Es; [|discriminate].
    destruct (run ops p1) as [[p2 out2]|] eqn:Er; [|discriminate].
    injection Hrun as <- <-.
    exact (Htrans _ _ _ (Hstep _ _ _ _ Es) (IH _ _ _ Er)).
Qed.

Lemma kMinDelay_positive : (0 < kMinDelay)%Z.
Proof. rewrite kMinDelay_value. lia. Qed.

Lemma step_session_order op p p' out :
  step op p = Some (p', out) ->
  (last_event_timestamp p <= last_event_timestamp p')%Z /\
  (call_first_time p = false -> call_first_time p' = false).
Proof.
  intros Hstep.
  destruct (step_cases op p p' out Hstep)
    as [(frame & -> & _ & -> & _) | (_ & _ & Hs & _)].
  - unfold manager_after.
    destruct (throttled frame p) eqn:E; cbn.
    + split; [lia|auto].
    + apply throttled_false in E. pose proof kMinDelay_positive.
      split; [lia|auto].
  - unfold loop_session in Hs. injection Hs as _ _ Hc _ Ht.
    rewrite Hc, Ht. split; [lia|auto].
Qed.

Lemma session_only_advances_aux ops p p' out :
  run ops p = Some (p', out) ->
  (last_event_timestamp p <= last_event_timestamp p')%Z /\
  (call_first_time p = false -> call_first_time p' = false).
Proof.
  apply (run_relation
           (fun a b =>
              (last_event_timestamp a <= last_event_timestamp b)%Z /\
              (call_first_time a = false -> call_first_time b = false))).
  - intros a. split; [lia|auto].
  - intros a b c [H1 H2] [H3 H4]. split; [lia|auto].
  - intros op a b o H. exact (step_session_order op a b o H).
Qed.

(** Two consecutive ticks, the second one on the manager [q] the first one
    left, and the throttle timestamp of [q].  Less than [kMinDelay] after
    the timestamp the second tick performs no [move] call and leaves the
    timestamp and the recorded device position alone.  From [kMinDelay]
    on it performs one [move] call per listener entry when the
    application position differs from the one of the recorded device
    position, and sets the timestamp and the recorded position whether or
    not it differs. *)
Lemma throttle_two_ticks (p : HapticDeviceManager) (f1 f2 : HDFrame)
    (r1 : TickResult) :
  updateDeviceCallback f1 p = Some r1 ->
  HD_DEVICE_ERROR f2 = false ->
  let q := manager r1 in
  let elapsed := (steady_clock_now f2 - last_event_timestamp q)%Z in
  exists r2,
    updateDeviceCallback f2 q = Some r2 /\
    ((elapsed < kMinDelay)%Z ->
       filter is_move (calls r2) = [] /\
       last_event_timestamp (manager r2) = last_event_timestamp q /\
       last_send_data (manager r2) = last_send_data q) /\
    ((kMinDelay <= elapsed)%Z ->
       (tick_data f2 q <> previous_data f2 q ->
          filter is_move (calls r2) = to_all (callbacks q) (move_call f2 q)) /\
       (tick_data f2 q = previous_data f2 q ->
          filter is_move (calls r2) = []) /\
       last_event_timestamp (manager r2) = steady_clock_now f2 /\
       last_send_data (manager r2) = HD_CURRENT_POSITION f2) /\
    ((kMinDelay <= steady_clock_now f1 - last_event_timestamp p)%Z ->
       last_event_timestamp q = steady_clock_now f1 /\
       previous_sent f2 q = HD_CURRENT_POSITION f1) /\
    (filter is_move (calls r1) <> [] ->
       last_event_timestamp q = steady_clock_now f1 /\
       previous_data f2 q = tick_data f1 p) /\
    kMinDelay_microseconds = 16666%Z /\
    (60 * kMinDelay <= 1000000000 < 60 * (kMinDelay + 1000))%Z.
Proof.
  intros H1 Herr2 q elapsed.
  exists (mkTick (manager_after f2 q) (snd (tick_selection f2 q))
                 (button_calls f2 q ++ move_calls f2 q)).
  split; [apply tick_shape; exact Herr2|].
  cbn [calls manager]. rewrite move_calls_of_tick.
  assert (Hr1 : HD_DEVICE_ERROR f1 = false /\ r1 = tick_result f1 p)
    by (apply tick_inversion; exact H1).
  destruct Hr1 as [Herr1 Hr1].
  assert (Hpass : throttled f1 p = false ->
            last_event_timestamp q = steady_clock_now f1 /\
            previous_sent f2 q = HD_CURRENT_POSITION f1 /\
            transformation_matrix q = transformation_matrix p).
  { intros Hge1. unfold q, previous_sent. rewrite Hr1.
    cbn [manager tick_result]. unfold manager_after. rewrite Hge1.
    repeat split; reflexivity. }
  split; [|split; [|split; [|split; [|split]]]].
  - intros Hlt. apply throttled_true in Hlt.
    unfold move_calls, manager_after. rewrite Hlt.
    repeat split; reflexivity.
  - intros Hge. apply throttled_false in Hge.
    unfold move_calls, manager_after. rewrite Hge.
    repeat split; try reflexivity.
    + intros Hne. apply position_changed_true in Hne. rewrite Hne.
      reflexivity.
    + intros Heq. apply position_changed_false in Heq. rewrite Heq.
      reflexivity.
  - intros Hge1. apply throttled_false in Hge1.
    destruct (Hpass Hge1) as (Ht & Hs & _). split; assumption.
  - intros Hmoved.
    assert (Hge1 : throttled f1 p = false).
    { destruct (throttled f1 p) eqn:E; [|reflexivity].
      exfalso. apply Hmoved. rewrite Hr1. cbn [calls tick_result].
      rewrite move_calls_of_tick. unfold move_calls. rewrite E.
      reflexivity. }
    destruct (Hpass Hge1) as (Ht & Hs & Hm). split; [exact Ht|].
    unfold previous_data, tick_data. rewrite Hs, Hm. reflexivity.
  - reflexivity.
  - rewrite kMinDelay_value. lia.
Qed.

Lemma emitting_tick_stamps frame p r :
  updateDeviceCallback frame p = Some r ->
  filter is_move (calls r) <> [] ->
  last_event_timestamp (manager r) = steady_clock_now frame.
Proof.
  intros Hr Hm. apply tick_inversion in Hr. destruct Hr as [_ ->].
  cbn [calls manager tick_result] in *. rewrite move_calls_of_tick in Hm.
  unfold move_calls in Hm. unfold manager_after.
  destruct (throttled frame p); [contradiction|]. reflexivity.
Qed.

(** C3, as stated, fails in its second half.  Three ticks with one
    listener: the first, one second after the epoch, reports a move to
    x = 5; the second, 20 ms later, passes the throttle with the pointer
    at rest, reports nothing and refreshes the timestamp; the third, 5 ms
    after the second, finds the pointer at x = 7.  For the pair of the
    second and the third tick, 25 ms have passed since the last move call
    and the application position differs from the one last reported, yet
    the third tick performs no [move] call and sets neither the timestamp
    nor the recorded device position: the interval is measured from the
    last pass through the throttle, not from the last move reported. *)
Lemma rest_then_move_is_suppressed :
  run [op_tick move_frame1; op_tick stay_frame; op_tick jump_frame]
      listening_manager =
    Some (manager jumped_result,
          [moved_result; stayed_result; jumped_result]) /\
  filter is_move (calls moved_result) =
    [(7%nat, move_call move_frame1 listening_manager)] /\
  filter is_move (calls stayed_result) = [] /\
  (kMinDelay <= steady_clock_now jump_frame - steady_clock_now move_frame1)%Z
  /\
  tick_data jump_frame (manager stayed_result) <>
    tick_data move_frame1 listening_manager /\
  filter is_move (calls jumped_result) = [] /\
  last_event_timestamp (manager jumped_result) <>
    steady_clock_now jump_frame /\
  last_send_data (manager jumped_result) <> HD_CURRENT_POSITION jump_frame.
Proof.
  split; [|split; [|split; [|split; [|split; [|split; [|split]]]]]].
  - unfold run, step.
    rewrite (tick_returns move_frame1 listening_manager) by reflexivity.
    cbn [option_map]. fold moved_result.
    rewrite (tick_returns stay_frame (manager moved_result)) by reflexivity.
    cbn [option_map]. fold stayed_result.
    rewrite (tick_returns jump_frame (manager stayed_result)) by reflexivity.
    cbn [option_map]. fold jumped_result. reflexivity.
  - unfold moved_result. cbn [calls tick_result].
    rewrite move_calls_of_tick. unfold move_calls.
    assert (Ht : throttled move_frame1 listening_manager = false)
      by reflexivity.
    assert (Hd : position_changed move_frame1 listening_manager = true).
    { apply position_changed_true. intros E. apply (f_equal getPosX) in E.
      unfold tick_data, previous_data, previous_sent,
        transformToAppCoordinates, at2, scale_factor in E.
      simpl in E. lra. }
    rewrite Ht, Hd. reflexivity.
  - unfold stayed_result. cbn [calls tick_result].
    rewrite move_calls_of_tick. unfold move_calls.
    assert (Ht : throttled stay_frame (manager moved_result) = false)
      by reflexivity.
    assert (Hd : position_changed stay_frame (manager moved_result) = false).
    { apply position_changed_false. reflexivity. }
    rewrite Ht, Hd. reflexivity.
  - rewrite kMinDelay_value. cbn. lia.
  - intros E. apply (f_equal getPosX) in E.
    unfold tick_data, transformToAppCoordinates, at2, scale_factor in E.
    simpl in E. lra.
  - unfold jumped_result. cbn [calls tick_result].
    rewrite move_calls_of_tick. unfold move_calls.
    assert (Ht : throttled jump_frame (manager stayed_result) = true)
      by reflexivity.
    rewrite Ht. reflexivity.
  - assert (Hs : last_event_timestamp (manager jumped_result) =
                 1020000000%Z) by reflexivity.
    rewrite Hs. cbn. lia.
  - assert (Hs : last_send_data (manager jumped_result) = mkVec 5 0 0)
      by reflexivity.
    rewrite Hs. intros E. apply (f_equal vx) in E. simpl in E. lra.
Qed.

(** C3, amended: take a tick on the manager [q] that an earlier tick left.
    If it comes less than [kMinDelay] (the sixtieth of a second, in whole
    microseconds) after a tick that performed a [move] call, whatever
    happened in between, it performs no [move] call, even if the position
    changed.  The interval that decides is the one since the throttle
    timestamp of [q], the time of the last tick that passed the throttle,
    whether or not that tick reported a move: less than [kMinDelay] after
    it the tick performs no [move] call and leaves the timestamp and the
    recorded device position alone; from [kMinDelay] on, every entry of
    the listener list gets exactly one [move] call when the application
    position differs from the one of the recorded device position, and
    the timestamp and the recorded device position are set to the current
    ones whether or not the position differs.  When the earlier tick
    passed the throttle, and so whenever it performed a [move] call, the
    timestamp and the recorded position are those of that tick. *)
Theorem move_throttle (p : HapticDeviceManager) (f1 f2 : HDFrame)
    (r1 : TickResult) :
  updateDeviceCallback f1 p = Some r1 ->
  HD_DEVICE_ERROR f2 = false ->
  let q := manager r1 in
  let elapsed := (steady_clock_now f2 - last_event_timestamp q)%Z in
  exists r2,
    updateDeviceCallback f2 q = Some r2 /\
    (forall p0 f0 r0 ops out0,
       updateDeviceCallback f0 p0 = Some r0 ->
       filter is_move (calls r0) <> [] ->
       run ops (manager r0) = Some (q, out0) ->
       (steady_clock_now f2 - steady_clock_now f0 < kMinDelay)%Z ->
       filter is_move (calls r2) = []) /\
    ((elapsed < kMinDelay)%Z ->
       filter is_move (calls r2) = [] /\
       last_event_timestamp (manager r2) = last_event_timestamp q /\
       last_send_data (manager r2) = last_send_data q) /\
    ((kMinDelay <= elapsed)%Z ->
       (tick_data f2 q <> previous_data f2 q ->
          filter is_move (calls r2) = to_all (callbacks q) (move_call f2 q)) /\
       (tick_data f2 q = previous_data f2 q ->
          filter is_move (calls r2) = []) /\
       last_event_timestamp (manager r2) = steady_clock_now f2 /\
       last_send_data (manager r2) = HD_CURRENT_POSITION f2) /\
    ((kMinDelay <= steady_clock_now f1 - last_event_timestamp p)%Z ->
       last_event_timestamp q = steady_clock_now f1 /\
       previous_sent f2 q = HD_CURRENT_POSITION f1) /\
    (filter is_move (calls r1) <> [] ->
       last_event_timestamp q = steady_clock_now f1 /\
       previous_data f2 q = tick_data f1 p) /\
    kMinDelay_microseconds = 16666%Z /\
    (60 * kMinDelay <= 1000000000 < 60 * (kMinDelay + 1000))%Z.
Proof.
  intros H1 Herr2 q elapsed.
  destruct (throttle_two_ticks p f1 f2 r1 H1 Herr2) as (r2 & Hr2 & Hrest).
  fold q in Hr2, Hrest.
  exists r2. split; [exact Hr2|]. split; [|exact Hrest].
  intros p0 f0 r0 ops out0 H0 M0 Hrun Hsoon.
  apply (proj1 Hrest).
  pose proof (emitting_tick_stamps f0 p0 r0 H0 M0) as Hstamp.
  destruct (session_only_advances_aux ops (manager r0) q out0 Hrun)
    as [Hle _].
  lia.
Qed.

Lemma move_throttle_witness :
  updateDeviceCallback move_frame1 listening_manager = Some moved_result /\
  HD_DEVICE_ERROR soon_frame = false /\
  filter is_move (calls moved_result) <> [] /\
  run [] (manager moved_result) = Some (manager moved_result, []) /\
  (steady_clock_now soon_frame - steady_clock_now move_frame1 < kMinDelay)%Z
  /\
  exists r2,
    updateDeviceCallback soon_frame (manager moved_result) = Some r2 /\
    filter is_move (calls r2) = [].
Proof.
  assert (H1 : updateDeviceCallback move_frame1 listening_manager =
               Some moved_result)
    by (apply tick_returns; reflexivity).
  assert (H2 : HD_DEVICE_ERROR soon_frame = false) by reflexivity.
  assert (M1 : filter is_move (calls moved_result) <> []).
  { unfold moved_result. cbn [calls tick_result].
    rewrite move_calls_of_tick. unfold move_calls.
    assert (Ht : throttled move_frame1 listening_manager = false)
      by reflexivity.
    assert (Hd : position_changed move_frame1 listening_manager = true).
    { apply position_changed_true. intros E. apply (f_equal getPosX) in E.
      unfold tick_data, previous_data, previous_sent,
        transformToAppCoordinates, at2, scale_factor in E.
      simpl in E. lra. }
    rewrite Ht, Hd. discriminate. }
  assert (Hrun : run [] (manager moved_result) =
                 Some (manager moved_result, [])) by reflexivity.
  assert (Hsoon : (steady_clock_now soon_frame -
                   steady_clock_now move_frame1 < kMinDelay)%Z)
    by (rewrite kMinDelay_value; cbn; lia).
  split; [exact H1|]. split; [exact H2|]. split; [exact M1|].
  split; [exact Hrun|]. split; [exact Hsoon|].
  destruct (move_throttle listening_manager move_frame1 soon_frame
              moved_result H1 H2)
    as (r2 & Hr2 & Hlast & _).
  exists r2. split; [exact Hr2|].
  exact (Hlast listening_manager move_frame1 moved_result [] [] H1 M1 Hrun
           Hsoon).
Defined.

(** ** Button edges *)

Lemma manager_after_scene frame p :
  callbacks (manager_after frame p) = callbacks p /\
  molecule (manager_after frame p) = molecule p /\
  gradient (manager_after frame p) = gradient p /\
  calc_gradient_in_loop (manager_after frame p) = calc_gradient_in_loop p /\
  first_button_down (manager_after frame p) = first_flag_after frame p /\
  second_button_down (manager_after frame p) = second_flag_after frame p.
Proof.
  unfold manager_after. destruct (throttled frame p); repeat split.
Qed.

Lemma received_app l a b : received l (a ++ b) = received l a ++ received l b.
Proof. unfold received. rewrite filter_app, map_app. reflexivity. Qed.

Lemma received_to_all l cbs c :
  received l (to_all cbs c) = repeat c (count_occ Nat.eq_dec cbs l).
Proof.
  unfold received, to_all.
  induction cbs as [|h t IH]; simpl; [reflexivity|].
  destruct (Nat.eq_dec h l) as [E|E].
  - apply Nat.eqb_eq in E. rewrite E. simpl. rewrite IH. reflexivity.
  - apply Nat.eqb_neq in E. rewrite E. exact IH.
Qed.

Lemma four_ticks p f1 f2 f3 f4 :
  HD_DEVICE_ERROR f1 = false -> HD_DEVICE_ERROR f2 = false ->
  HD_DEVICE_ERROR f3 = false -> HD_DEVICE_ERROR f4 = false ->
  let r1 := tick_result f1 p in
  let r2 := tick_result f2 (manager r1) in
  let r3 := tick_result f3 (manager r2) in
  let r4 := tick_result f4 (manager r3) in
  run [op_tick f1; op_tick f2; op_tick f3; op_tick f4] p =
  Some (manager r4, [r1; r2; r3; r4]).
Proof.
  intros E1 E2 E3 E4 r1 r2 r3 r4.
  unfold run, step.
  rewrite (tick_returns f1 p E1). cbn [option_map]. fold r1.
  rewrite (tick_returns f2 (manager r1) E2). cbn [option_map]. fold r2.
  rewrite (tick_returns f3 (manager r2) E3). cbn [option_map]. fold r3.
  rewrite (tick_returns f4 (manager r3) E4). cbn [option_map]. fold r4.
  reflexivity.
Qed.

Lemma edges_of_bits mask current last c l :
  (mask = 1 \/ mask = 2)%Z ->
  Z.land current mask = c -> Z.land last mask = l ->
  (c = 0 \/ c = mask)%Z -> (l = 0 \/ l = mask)%Z ->
  rising mask current last = (negb (c =? 0) && (l =? 0))%Z /\
  falling mask current last = ((c =? 0) && negb (l =? 0))%Z.
Proof.
  intros Hm Hc Hl Hcv Hlv. unfold rising, falling. rewrite Hc, Hl.
  destruct Hm as [Hm|Hm]; destruct Hcv as [Hcv|Hcv];
    destruct Hlv as [Hlv|Hlv]; rewrite Hcv, Hlv, ?Hm; split; reflexivity.
Qed.

(** C4: four consecutive ticks whose button-1 bit reads 0, 1, 1, 0, each
    tick seeing the previous tick's buttons as its last buttons and the
    first one starting from a released button.  Every entry of the
    listener list gets one [first_button_down] on the second tick, one
    [first_button_up] on the fourth and no button-1 call on the other two,
    so a listener registered [k] times receives [k] downs followed by [k]
    ups.  The same holds for button 2 with its own bit, whatever button 1
    does; its [second_button_down] carries the atom id selected in that
    tick, which is -1 when the atom list is empty or the closest atom is
    farther than three radii. *)
Theorem button_edges (p : HapticDeviceManager) (f1 f2 f3 f4 : HDFrame) :
  HD_DEVICE_ERROR f1 = false -> HD_DEVICE_ERROR f2 = false ->
  HD_DEVICE_ERROR f3 = false -> HD_DEVICE_ERROR f4 = false ->
  HD_LAST_BUTTONS f2 = HD_CURRENT_BUTTONS f1 ->
  HD_LAST_BUTTONS f3 = HD_CURRENT_BUTTONS f2 ->
  HD_LAST_BUTTONS f4 = HD_CURRENT_BUTTONS f3 ->
  exists r1 r2 r3 r4,
    run [op_tick f1; op_tick f2; op_tick f3; op_tick f4] p =
      Some (manager r4, [r1; r2; r3; r4]) /\
    updateDeviceCallback f1 p = Some r1 /\
    updateDeviceCallback f2 (manager r1) = Some r2 /\
    updateDeviceCallback f3 (manager r2) = Some r3 /\
    updateDeviceCallback f4 (manager r3) = Some r4 /\
    (Z.land (HD_LAST_BUTTONS f1) HD_DEVICE_BUTTON_1 = 0%Z ->
     map (fun f => Z.land (HD_CURRENT_BUTTONS f) HD_DEVICE_BUTTON_1)
         [f1; f2; f3; f4] = [0; 1; 1; 0]%Z ->
     map (fun r => filter is_button1 (calls r)) [r1; r2; r3; r4] =
       [ []; to_all (callbacks p) HapticCallback.first_button_down;
         []; to_all (callbacks p) HapticCallback.first_button_up ] /\
     forall l,
       received l (filter is_button1
                     (calls r1 ++ calls r2 ++ calls r3 ++ calls r4)) =
       repeat HapticCallback.first_button_down
              (count_occ Nat.eq_dec (callbacks p) l) ++
       repeat HapticCallback.first_button_up
              (count_occ Nat.eq_dec (callbacks p) l)) /\
    (Z.land (HD_LAST_BUTTONS f1) HD_DEVICE_BUTTON_2 = 0%Z ->
     map (fun f => Z.land (HD_CURRENT_BUTTONS f) HD_DEVICE_BUTTON_2)
         [f1; f2; f3; f4] = [0; 2; 2; 0]%Z ->
     let id := selected_atom_id f2 (manager r1) in
     map (fun r => filter is_button2 (calls r)) [r1; r2; r3; r4] =
       [ []; to_all (callbacks p) (HapticCallback.second_button_down id);
         []; to_all (callbacks p) HapticCallback.second_button_up ] /\
     (forall l,
       received l (filter is_button2
                     (calls r1 ++ calls r2 ++ calls r3 ++ calls r4)) =
       repeat (HapticCallback.second_button_down id)
              (count_occ Nat.eq_dec (callbacks p) l) ++
       repeat HapticCallback.second_button_up
              (count_occ Nat.eq_dec (callbacks p) l)) /\
     (molecule p = [] -> id = (-1)%Z) /\
     (molecule p <> [] ->
      3 * getDistance (closest_atom f2 (manager r1)) <
      calculateDistance (closest_atom f2 (manager r1))
        (tick_data f2 (manager r1)) ->
      id = (-1)%Z)).
Proof.
  intros E1 E2 E3 E4 L2 L3 L4.
  pose (r1 := tick_result f1 p).
  pose (r2 := tick_result f2 (manager r1)).
  pose (r3 := tick_result f3 (manager r2)).
  pose (r4 := tick_result f4 (manager r3)).
  assert (C1 : callbacks (manager r1) = callbacks p)
    by apply manager_after_scene.
  assert (C2 : callbacks (manager r2) = callbacks p).
  { unfold r2. cbn [manager tick_result].
    rewrite (proj1 (manager_after_scene f2 (manager r1))). exact C1. }
  assert (C3 : callbacks (manager r3) = callbacks p).
  { unfold r3. cbn [manager tick_result].
    rewrite (proj1 (manager_after_scene f3 (manager r2))). exact C2. }
  assert (M1 : molecule (manager r1) = molecule p)
    by apply manager_after_scene.
  exists r1, r2, r3, r4.
  split; [exact (four_ticks p f1 f2 f3 f4 E1 E2 E3 E4)|].
  split; [exact (tick_returns f1 p E1)|].
  split; [exact (tick_returns f2 (manager r1) E2)|].
  split; [exact (tick_returns f3 (manager r2) E3)|].
  split; [exact (tick_returns f4 (manager r3) E4)|].
  split.
  - intros B0 Bs. cbn [map] in Bs.
    injection Bs as B1 B2 B3 B4.
    assert (F1 : filter is_button1 (calls r1) = []).
    { unfold r1. cbn [calls tick_result]. rewrite button1_calls_of_tick.
      destruct (edges_of_bits HD_DEVICE_BUTTON_1 (HD_CURRENT_BUTTONS f1) (HD_LAST_BUTTONS f1)
                  0 0)%Z as [-> ->]; auto. }
    assert (F2 : filter is_button1 (calls r2) =
                 to_all (callbacks p) HapticCallback.first_button_down).
    { unfold r2. cbn [calls tick_result]. rewrite button1_calls_of_tick.
      destruct (edges_of_bits HD_DEVICE_BUTTON_1 (HD_CURRENT_BUTTONS f2) (HD_LAST_BUTTONS f2)
                  1 0)%Z as [-> ->]; auto; [rewrite L2; exact B1|].
      rewrite C1. simpl. apply app_nil_r. }
    assert (F3 : filter is_button1 (calls r3) = []).
    { unfold r3. cbn [calls tick_result]. rewrite button1_calls_of_tick.
      destruct (edges_of_bits HD_DEVICE_BUTTON_1 (HD_CURRENT_BUTTONS f3) (HD_LAST_BUTTONS f3)
                  1 1)%Z as [-> ->]; auto. rewrite L3; exact B2. }
    assert (F4 : filter is_button1 (calls r4) =
                 to_all (callbacks p) HapticCallback.first_button_up).
    { unfold r4. cbn [calls tick_result]. rewrite button1_calls_of_tick.
      destruct (edges_of_bits HD_DEVICE_BUTTON_1 (HD_CURRENT_BUTTONS f4) (HD_LAST_BUTTONS f4)
                  0 1)%Z as [-> ->]; auto; [rewrite L4; exact B3|].
      rewrite C3. reflexivity. }
    split.
    + cbn [map]. rewrite F1, F2, F3, F4. reflexivity.
    + intros l. rewrite !filter_app, F1, F2, F3, F4. simpl.
      rewrite received_app, !received_to_all. reflexivity.
  - intros B0 Bs id. cbn [map] in Bs.
    injection Bs as B1 B2 B3 B4.
    assert (F1 : filter is_button2 (calls r1) = []).
    { unfold r1. cbn [calls tick_result]. rewrite button2_calls_of_tick.
      destruct (edges_of_bits HD_DEVICE_BUTTON_2 (HD_CURRENT_BUTTONS f1) (HD_LAST_BUTTONS f1)
                  0 0)%Z as [-> ->]; auto. }
    assert (F2 : filter is_button2 (calls r2) =
                 to_all (callbacks p) (HapticCallback.second_button_down id)).
    { unfold r2. cbn [calls tick_result]. rewrite button2_calls_of_tick.
      destruct (edges_of_bits HD_DEVICE_BUTTON_2 (HD_CURRENT_BUTTONS f2) (HD_LAST_BUTTONS f2)
                  2 0)%Z as [-> ->]; auto; [rewrite L2; exact B1|].
      rewrite C1. simpl. apply app_nil_r. }
    assert (F3 : filter is_button2 (calls r3) = []).
    { unfold r3. cbn [calls tick_result]. rewrite button2_calls_of_tick.
      destruct (edges_of_bits HD_DEVICE_BUTTON_2 (HD_CURRENT_BUTTONS f3) (HD_LAST_BUTTONS f3)
                  2 2)%Z as [-> ->]; auto. rewrite L3; exact B2. }
    assert (F4 : filter is_button2 (calls r4) =
                 to_all (callbacks p) HapticCallback.second_button_up).
    { unfold r4. cbn [calls tick_result]. rewrite button2_calls_of_tick.
      destruct (edges_of_bits HD_DEVICE_BUTTON_2 (HD_CURRENT_BUTTONS f4) (HD_LAST_BUTTONS f4)
                  0 2)%Z as [-> ->]; auto; [rewrite L4; exact B3|].
      rewrite C3. reflexivity. }
    split; [|split; [|split]].
    + cbn [map]. rewrite F1, F2, F3, F4. reflexivity.
    + intros l. rewrite !filter_app, F1, F2, F3, F4. simpl.
      rewrite received_app, !received_to_all. reflexivity.
    + intros Hm. apply selected_none_when_empty. rewrite M1. exact Hm.
    + intros Hm Hfar. unfold id.
      rewrite selected_cases by (rewrite M1; exact Hm).
      destruct (Rleb _ _) eqn:E; [|reflexivity].
      apply Rleb_true in E. lra.
Qed.

(** ** A manager without listeners *)

Lemma force_zero_without_second_button frame p mol inv grads data :
  second_button_down p = false ->
  snd (selectAndSetForce frame p mol inv grads data) = None \/
  snd (selectAndSetForce frame p mol inv grads data) = Some zero.
Proof.
  intros Hb. unfold selectAndSetForce.
  destruct (0 <? length mol)%nat; [|left; reflexivity].
  right.
  destruct (Rleb _ _); [destruct (_ <? _)%Z|];
    cbn [snd]; unfold setForce; rewrite Hb, andb_false_r; reflexivity.
Qed.

Lemma tick_without_listeners frame p r :
  callbacks p = [] ->
  updateDeviceCallback frame p = Some r ->
  callbacks (manager r) = [] /\
  first_button_down (manager r) = first_button_down p /\
  second_button_down (manager r) = second_button_down p /\
  calls r = [] /\
  (second_button_down p = false -> force_is_zero r).
Proof.
  intros Hcb Hr.
  apply tick_inversion in Hr. destruct Hr as [_ ->].
  cbn [manager calls tick_result].
  destruct (manager_after_scene frame p) as (Hc & _ & _ & _ & H1 & H2).
  rewrite Hc, H1, H2.
  unfold first_flag_after, second_flag_after, button_calls, move_calls.
  rewrite Hcb.
  repeat split.
  - destruct (rising _ _ _); destruct (falling _ _ _); reflexivity.
  - destruct (rising HD_DEVICE_BUTTON_2 _ _);
      destruct (falling HD_DEVICE_BUTTON_2 _ _); reflexivity.
  - unfold edge_calls, to_all.
    destruct (rising HD_DEVICE_BUTTON_1 _ _);
      destruct (falling HD_DEVICE_BUTTON_1 _ _);
      destruct (rising HD_DEVICE_BUTTON_2 _ _);
      destruct (falling HD_DEVICE_BUTTON_2 _ _);
      destruct (throttled frame p); destruct (position_changed frame p);
      reflexivity.
  - intros Hb. unfold force_is_zero. cbn [HD_CURRENT_FORCE tick_result].
    apply force_zero_without_second_button. exact Hb.
Qed.

Lemma step_keeps_idle op p p' out :
  registers_listener op = false ->
  idle p -> step op p = Some (p', out) ->
  idle p' /\ forall r, In r out -> idle (manager r) /\ force_is_zero r.
Proof.
  intros Hop (Hc & H1 & H2) Hstep.
  destruct op; cbn [step registers_listener] in *; try discriminate.
  - injection Hstep as <- <-. split; [|intros r []].
    unfold init_haptic_device.
    destruct (init_error hd); [|destruct (scheduler_error hd)];
      repeat split; assumption.
  - injection Hstep as <- <-. split; [|intros r []].
    unfold exit_haptic_device. destruct (negb _); repeat split; assumption.
  - injection Hstep as <- <-. split; [|intros r []].
    repeat split; assumption.
  - injection Hstep as <- <-. split; [|intros r []].
    repeat split; assumption.
  - unfold update_atom in Hstep.
    destruct (_ <? _)%Z; [|discriminate].
    injection Hstep as <- <-. split; [|intros r []].
    repeat split; assumption.
  - unfold update_gradient in Hstep.
    destruct (write_flat _ _ _ _); [|discriminate].
    injection Hstep as <- <-. split; [|intros r []].
    repeat split; assumption.
  - injection Hstep as <- <-. split; [|intros r []].
    repeat split; assumption.
  - unfold set_transformation_matrix in Hstep.
    destruct (write_flat _ _ _ t_matrix); [|discriminate].
    destruct (write_flat _ _ _ i_matrix); [|discriminate].
    injection Hstep as <- <-. split; [|intros r []].
    repeat split; assumption.
  - destruct (updateDeviceCallback frame p) as [r|] eqn:E; [|discriminate].
    injection Hstep as <- <-.
    destruct (tick_without_listeners frame p r Hc E)
      as (Hc' & H1' & H2' & _ & Hf).
    assert (Hi : idle (manager r)).
    { repeat split; [exact Hc'|rewrite H1'; exact H1|rewrite H2'; exact H2]. }
    split; [exact Hi|].
    intros r' [<-|[]]. split; [exact Hi|exact (Hf H2)].
Qed.

Lemma run_keeps_idle ops : forall p p' out,
  forallb (fun op => negb (registers_listener op)) ops = true ->
  idle p -> run ops p = Some (p', out) ->
  idle p' /\ forall r, In r out -> idle (manager r) /\ force_is_zero r.
Proof.
  induction ops as [|op ops IH]; intros p p' out Hops Hidle Hrun.
  - injection Hrun as <- <-. split; [exact Hidle|intros r []].
  - cbn [forallb] in Hops. apply andb_true_iff in Hops.
    destruct Hops as [Hop Hops]. apply negb_true_iff in Hop.
    cbn [run] in Hrun.
    destruct (step op p) as [[p1 out1]|] eqn:Es; [|discriminate].
    destruct (run ops p1) as [[p2 out2]|] eqn:Er; [|discriminate].
    injection Hrun as <- <-.
    destruct (step_keeps_idle op p p1 out1 Hop Hidle Es) as [Hi1 Ho1].
    destruct (IH p1 p2 out2 Hops Hi1 Er) as [Hi2 Ho2].
    split; [exact Hi2|].
    intros r Hin. apply in_app_or in Hin. destruct Hin; auto.
Qed.

Lemma new_manager_idle : idle new_manager.
Proof. repeat split. Qed.

(** C10: the two button flags are assigned only in the loops over the
    listeners.  A tick of a manager without listeners leaves both flags as
    they were, whatever the button masks, and performs no call.  So in
    every run from a new manager in which no listener is registered, the
    flags are [false] after every tick, and every force a tick writes is
    the zero vector. *)
Theorem flags_need_listeners :
  (forall frame p r,
      callbacks p = [] ->
      updateDeviceCallback frame p = Some r ->
      first_button_down (manager r) = first_button_down p /\
      second_button_down (manager r) = second_button_down p /\
      calls r = []) /\
  (forall ops p' out,
      forallb (fun op => negb (registers_listener op)) ops = true ->
      run ops new_manager = Some (p', out) ->
      first_button_down p' = false /\ second_button_down p' = false /\
      forall r, In r out ->
        first_button_down (manager r) = false /\
        second_button_down (manager r) = false /\
        force_is_zero r).
Proof.
  split.
  - intros frame p r Hc Hr.
    destruct (tick_without_listeners frame p r Hc Hr) as (_ & H1 & H2 & H3 & _).
    repeat split; assumption.
  - intros ops p' out Hops Hrun.
    destruct (run_keeps_idle ops new_manager p' out Hops new_manager_idle Hrun)
      as [(_ & H1 & H2) Hout].
    repeat split; try assumption;
      destruct (Hout r H) as [(_ & Hr1 & Hr2) Hf]; assumption.
Qed.

(** ** Device stop *)

Lemma exit_invalidates_handle p :
  ghHD (exit_haptic_device p) = HD_INVALID_HANDLE.
Proof.
  unfold exit_haptic_device.
  destruct (ghHD p =? HD_INVALID_HANDLE)%Z eqn:E; simpl; [|reflexivity].
  apply Z.eqb_eq. exact E.
Qed.

Lemma pressed_manager_reached :
  exists r,
    run [op_add_haptic_callback 7%nat; op_tick press_frame] new_manager =
    Some (pressed_manager, [r]).
Proof.
  exists (tick_result press_frame (add_haptic_callback 7%nat new_manager)).
  unfold run, step.
  rewrite (tick_returns press_frame) by reflexivity.
  reflexivity.
Qed.

(** C8, as stated, fails: in [pressed_manager], reached by one tick with a
    listener and the first button pressed, the first-button flag is set,
    the first-tick flag is cleared and the timestamp is one second;
    [exit_haptic_device] leaves all of that in place. *)
Lemma exit_does_not_reset_session :
  ~ (forall p, loop_session (exit_haptic_device p) = loop_session new_manager).
Proof.
  intros H. specialize (H pressed_manager).
  unfold loop_session in H. cbn in H. discriminate H.
Qed.

(** C8, amended: [exit_haptic_device] leaves the loop session state (both
    button flags, the first-tick flag, the recorded device position and the
    throttle timestamp) exactly as it was and only invalidates the device
    handle; [init_haptic_device] does not touch the session state either. *)
Theorem exit_keeps_session (p : HapticDeviceManager) :
  loop_session (exit_haptic_device p) = loop_session p /\
  ghHD (exit_haptic_device p) = HD_INVALID_HANDLE /\
  forall hd, loop_session (fst (init_haptic_device hd p)) = loop_session p.
Proof.
  split; [|split].
  - unfold exit_haptic_device. destruct (negb _); reflexivity.
  - apply exit_invalidates_handle.
  - intros hd. unfold init_haptic_device.
    destruct (init_error hd); [|destruct (scheduler_error hd)]; reflexivity.
Qed.

(** ** The gradient table *)

Lemma div_mod_3 n r :
  (r < 3)%nat -> ((3 * n + r) / 3 = n /\ (3 * n + r) mod 3 = r)%nat.
Proof.
  intros Hr. split; symmetry.
  - apply (Nat.div_unique _ 3 n r); lia.
  - apply (Nat.mod_unique _ 3 n r); lia.
Qed.

Lemma list_set_length {A} (l : list A) n x :
  length (list_set l n x) = length l.
Proof.
  revert n. induction l as [|h t IH]; intros [|n]; simpl; auto.
Qed.

Lemma list_set_middle {A} (pre : list A) h t x :
  list_set (pre ++ h :: t) (length pre) x = pre ++ x :: t.
Proof.
  induction pre as [|a pre IH]; simpl; [reflexivity|].
  rewrite IH. reflexivity.
Qed.

Lemma set_at2_middle pre row t j v :
  (j < length row)%nat ->
  set_at2 (pre ++ row :: t) (length pre) j v =
  Some (pre ++ list_set row j v :: t).
Proof.
  intros Hj. unfold set_at2.
  rewrite nth_error_app2 by lia. rewrite Nat.sub_diag. cbn [nth_error].
  apply Nat.ltb_lt in Hj. rewrite Hj.
  rewrite list_set_middle. reflexivity.
Qed.

Lemma set_at2_length m i j v m' :
  set_at2 m i j v = Some m' -> length m' = length m.
Proof.
  unfold set_at2. destruct (nth_error m i); [|discriminate].
  destruct (_ <? _)%nat; [|discriminate].
  intros E. injection E as <-. apply list_set_length.
Qed.

Lemma set_at2_beyond_rows m i j v :
  (length m <= i)%nat -> set_at2 m i j v = None.
Proof.
  intros H. unfold set_at2.
  apply nth_error_None in H. rewrite H. reflexivity.
Qed.

Lemma write_flat_cons w m i v rest :
  write_flat w m i (v :: rest) =
  match set_at2 m (i / w) (i mod w) v with
  | Some m' => write_flat w m' (S i) rest
  | None => None
  end.
Proof. reflexivity. Qed.

Lemma write_flat_length w values : forall m i m',
  write_flat w m i values = Some m' -> length m' = length m.
Proof.
  induction values as [|v rest IH]; intros m i m' H.
  - injection H as <-. reflexivity.
  - rewrite write_flat_cons in H.
    destruct (set_at2 m (i / w) (i mod w) v) as [m1|] eqn:E; [|discriminate].
    rewrite (IH m1 (S i) m' H). exact (set_at2_length _ _ _ _ _ E).
Qed.

Lemma write_flat_app w l1 : forall l2 m i,
  write_flat w m i (l1 ++ l2) =
  match write_flat w m i l1 with
  | Some m' => write_flat w m' (i + length l1) l2
  | None => None
  end.
Proof.
  induction l1 as [|v rest IH]; intros l2 m i.
  - simpl. rewrite Nat.add_0_r. reflexivity.
  - rewrite <- app_comm_cons, !write_flat_cons.
    destruct (set_at2 m (i / w) (i mod w) v) as [m1|]; [|reflexivity].
    rewrite IH. cbn [length]. rewrite Nat.add_succ_comm. reflexivity.
Qed.

Lemma write_row pre a b c t x y z rest :
  write_flat 3 (pre ++ [a; b; c] :: t) (3 * length pre)
    (x :: y :: z :: rest) =
  write_flat 3 (pre ++ [x; y; z] :: t) (3 * length pre + 3) rest.
Proof.
  destruct (div_mod_3 (length pre) 0) as [D0 M0]; [lia|].
  destruct (div_mod_3 (length pre) 1) as [D1 M1]; [lia|].
  destruct (div_mod_3 (length pre) 2) as [D2 M2]; [lia|].
  rewrite Nat.add_0_r in D0, M0.
  rewrite write_flat_cons, D0, M0, set_at2_middle by (simpl; lia).
  replace (S (3 * length pre)) with (3 * length pre + 1)%nat by lia.
  rewrite write_flat_cons, D1, M1, set_at2_middle by (simpl; lia).
  replace (S (3 * length pre + 1)) with (3 * length pre + 2)%nat by lia.
  rewrite write_flat_cons, D2, M2, set_at2_middle by (simpl; lia).
  replace (S (3 * length pre + 2)) with (3 * length pre + 3)%nat by lia.
  reflexivity.
Qed.

Lemma write_flat_rows k : forall l pre g,
  length l = (3 * k)%nat -> rows_of_three g -> (k <= length g)%nat ->
  write_flat 3 (pre ++ g) (3 * length pre) l =
  Some (pre ++ chunk3 l ++ skipn k g).
Proof.
  induction k as [|k IH]; intros l pre g Hl Hg Hk.
  - destruct l; [|discriminate]. reflexivity.
  - destruct l as [|x [|y [|z rest]]]; try (simpl in Hl; lia).
    destruct g as [|row g']; [simpl in Hk; lia|].
    inversion Hg as [|? ? Hrow Hg']; subst.
    destruct row as [|a [|b [|c [|]]]]; try discriminate.
    rewrite write_row.
    replace (pre ++ [x; y; z] :: g') with ((pre ++ [[x; y; z]]) ++ g')
      by (rewrite <- app_assoc; reflexivity).
    replace (3 * length pre + 3)%nat with (3 * length (pre ++ [[x; y; z]]))%nat
      by (rewrite length_app; simpl; lia).
    rewrite IH; [| simpl in Hl; lia | exact Hg' | simpl in Hk; lia].
    rewrite <- app_assoc. reflexivity.
Qed.

Lemma grow_gradient_rows g n :
  rows_of_three g -> rows_of_three (grow_gradient g n).
Proof.
  intros H. unfold grow_gradient, rows_of_three.
  apply Forall_app. split; [exact H|].
  apply Forall_forall. intros row Hin.
  apply repeat_spec in Hin. subst. reflexivity.
Qed.

Lemma grow_gradient_length g n :
  length (grow_gradient g n) = Nat.max (length g) n.
Proof.
  unfold grow_gradient. rewrite length_app, repeat_length. lia.
Qed.

Lemma skipn_grow_gradient g k :
  skipn k (grow_gradient g k) = skipn k g.
Proof.
  unfold grow_gradient. rewrite skipn_app.
  rewrite (skipn_all2 (n := k - length g)) by (rewrite repeat_length; lia).
  apply app_nil_r.
Qed.

Lemma chunk3_length k : forall l,
  length l = (3 * k)%nat -> length (chunk3 l) = k.
Proof.
  induction k as [|k IH]; intros l Hl.
  - destruct l; [reflexivity|discriminate].
  - destruct l as [|x [|y [|z rest]]]; try (simpl in Hl; lia).
    simpl. rewrite IH; [reflexivity|simpl in Hl; lia].
Qed.

Lemma list_set_forall {A} (P : A -> Prop) (l : list A) n x :
  Forall P l -> P x -> Forall P (list_set l n x).
Proof.
  intros Hl Hx. revert n.
  induction Hl as [|h t Hh Ht IH]; intros [|n]; simpl; constructor; auto.
Qed.

Lemma set_at2_rows m i j v m' :
  rows_of_three m -> set_at2 m i j v = Some m' -> rows_of_three m'.
Proof.
  intros Hm. unfold set_at2.
  destruct (nth_error m i) as [row|] eqn:En; [|discriminate].
  destruct (_ <? _)%nat; [|discriminate].
  intros E. injection E as <-.
  apply list_set_forall; [exact Hm|].
  rewrite list_set_length.
  unfold rows_of_three in Hm. rewrite Forall_forall in Hm.
  apply Hm. eapply nth_error_In. exact En.
Qed.

Lemma write_flat_in_range values : forall m i,
  rows_of_three m -> (i + length values <= 3 * length m)%nat ->
  exists m', write_flat 3 m i values = Some m'.
Proof.
  induction values as [|v rest IH]; intros m i Hm Hfit.
  - exists m. reflexivity.
  - rewrite write_flat_cons. cbn [length] in Hfit.
    assert (Hrow : (i / 3 < length m)%nat)
      by (apply Nat.Div0.div_lt_upper_bound; lia).
    destruct (nth_error m (i / 3)) as [row|] eqn:En;
      [|apply nth_error_None in En; lia].
    assert (Hlen : length row = 3%nat).
    { unfold rows_of_three in Hm. rewrite Forall_forall in Hm.
      apply Hm. eapply nth_error_In. exact En. }
    assert (Hcol : (i mod 3 < 3)%nat) by (apply Nat.mod_upper_bound; lia).
    destruct (set_at2 m (i / 3) (i mod 3) v) as [m1|] eqn:Es.
    + apply IH.
      * exact (set_at2_rows _ _ _ _ _ Hm Es).
      * rewrite (set_at2_length _ _ _ _ _ Es). lia.
    + unfold set_at2 in Es. rewrite En, Hlen in Es.
      apply Nat.ltb_lt in Hcol. rewrite Hcol in Es. discriminate.
Qed.

Lemma update_gradient_table l p k :
  rows_of_three (gradient p) -> length l = (3 * k)%nat ->
  exists q,
    update_gradient l p = Some q /\
    gradient q = chunk3 l ++ skipn k (gradient p).
Proof.
  intros Hg Hl. unfold update_gradient.
  assert (Hk : (length l / 3 = k)%nat).
  { rewrite Hl, Nat.mul_comm. apply Nat.div_mul. lia. }
  rewrite Hk.
  pose proof (write_flat_rows k l [] (grow_gradient (gradient p) k) Hl
                (grow_gradient_rows _ _ Hg)) as H.
  rewrite grow_gradient_length in H. specialize (H ltac:(lia)).
  simpl in H. rewrite H. eexists. split; [reflexivity|].
  cbn [gradient with_scene]. rewrite skipn_grow_gradient. reflexivity.
Qed.

Lemma two_rows_manager_reached :
  update_gradient [1; 2; 3; 4; 5; 6] new_manager = Some two_rows_manager.
Proof. reflexivity. Qed.

Lemma two_rows_then_one :
  option_map gradient (update_gradient [7; 8; 9] two_rows_manager) =
  Some [[7; 8; 9]; [4; 5; 6]].
Proof. reflexivity. Qed.

(** C7, as stated, fails: a call with three values on a table of two rows
    leaves two rows, the second one from the earlier call. *)
Lemma update_gradient_keeps_old_rows :
  ~ (forall p l k,
       rows_of_three (gradient p) -> length l = (3 * k)%nat ->
       option_map gradient (update_gradient l p) = Some (chunk3 l)).
Proof.
  intros H.
  specialize (H two_rows_manager [7; 8; 9] 1%nat).
  rewrite two_rows_then_one in H.
  assert (Hrows : rows_of_three (gradient two_rows_manager)).
  { repeat constructor. }
  specialize (H Hrows eq_refl).
  simpl in H. discriminate H.
Qed.

(** C7, amended: after [update_gradient] with a flat list of [3 * k]
    values, the first [k] rows of the table are the [k] 3-vectors of the
    list, in order, and the rows from [k] on are the ones the table had
    before: the table never shrinks, its length is the larger of its
    previous length and [k].  When the table had at most [k] rows it
    consists exactly of the [k] 3-vectors of the list. *)
Theorem update_gradient_rows (p : HapticDeviceManager) (l : list R)
    (k : nat) :
  rows_of_three (gradient p) -> length l = (3 * k)%nat ->
  exists q,
    update_gradient l p = Some q /\
    gradient q = chunk3 l ++ skipn k (gradient p) /\
    length (chunk3 l) = k /\
    firstn k (gradient q) = chunk3 l /\
    length (gradient q) = Nat.max (length (gradient p)) k /\
    ((length (gradient p) <= k)%nat -> gradient q = chunk3 l) /\
    rows_of_three (gradient q).
Proof.
  intros Hg Hl.
  destruct (update_gradient_table l p k Hg Hl) as (q & Hq & Hrows).
  pose proof (chunk3_length k l Hl) as Hc.
  exists q. split; [exact Hq|]. split; [exact Hrows|]. split; [exact Hc|].
  split; [|split; [|split]].
  - rewrite Hrows. rewrite firstn_app, Hc, Nat.sub_diag. simpl.
    rewrite app_nil_r. apply firstn_all2. lia.
  - rewrite Hrows, length_app, Hc, length_skipn. lia.
  - intros Hle. rewrite Hrows, skipn_all2 by exact Hle. apply app_nil_r.
  - rewrite Hrows. apply Forall_app. split.
    + clear Hq Hrows Hc q Hg. revert l Hl.
      induction k as [|k IH]; intros l Hl.
      * destruct l; [constructor|discriminate].
      * destruct l as [|x [|y [|z rest]]]; try (simpl in Hl; lia).
        simpl. constructor; [reflexivity|]. apply IH. simpl in Hl. lia.
    + unfold rows_of_three in *.
      rewrite <- (firstn_skipn k (gradient p)) in Hg.
      apply Forall_app in Hg. exact (proj2 Hg).
Qed.

Lemma update_gradient_rows_witness :
  rows_of_three (gradient two_rows_manager) /\
  length [7; 8; 9] = (3 * 1)%nat /\
  exists q,
    update_gradient [7; 8; 9] two_rows_manager = Some q /\
    gradient q = chunk3 [7; 8; 9] ++ skipn 1 (gradient two_rows_manager).
Proof.
  assert (Hrows : rows_of_three (gradient two_rows_manager))
    by (repeat constructor).
  split; [exact Hrows|]. split; [reflexivity|].
  destruct (update_gradient_rows two_rows_manager [7; 8; 9] 1 Hrows eq_refl)
    as (q & Hq & Hg & _).
  exists q. split; [exact Hq|exact Hg].
Defined.

(** C9: when the flat list has a length that is a multiple of 3, every
    write [gradient[index / 3][index % 3]] of [update_gradient] falls
    inside the table as the first loop has grown it, so the call returns.
    When the length is not a multiple of 3 and exceeds three times the
    size of the table, the write after the last full row falls outside
    the table.  A list no longer than three times the size of the table
    is written inside it whatever its length. *)
Theorem update_gradient_in_bounds (p : HapticDeviceManager) (l : list R) :
  rows_of_three (gradient p) ->
  ((length l mod 3 = 0)%nat ->
     exists q, update_gradient l p = Some q /\
               length (gradient q) =
               length (grow_gradient (gradient p) (length l / 3))) /\
  ((length l mod 3 <> 0)%nat -> (3 * length (gradient p) < length l)%nat ->
     update_gradient l p = None) /\
  ((length l <= 3 * length (gradient p))%nat ->
     exists q, update_gradient l p = Some q).
Proof.
  intros Hg. split; [|split].
  - intros Hmod.
    assert (Hl : length l = (3 * (length l / 3))%nat).
    { pose proof (Nat.div_mod_eq (length l) 3). lia. }
    destruct (update_gradient_table l p _ Hg Hl) as (q & Hq & Hrows).
    exists q. split; [exact Hq|].
    rewrite Hrows, length_app, length_skipn, grow_gradient_length.
    rewrite (chunk3_length _ _ Hl). lia.
  - intros Hmod Hlen. unfold update_gradient.
    set (k := (length l / 3)%nat).
    assert (Hdm : length l = (3 * k + length l mod 3)%nat)
      by (apply Nat.div_mod_eq).
    assert (Hr : (length l mod 3 < 3)%nat) by (apply Nat.mod_upper_bound; lia).
    assert (Hgrown : length (grow_gradient (gradient p) k) = k).
    { rewrite grow_gradient_length. lia. }
    rewrite <- (firstn_skipn (3 * k) l).
    destruct (skipn (3 * k) l) as [|v rest] eqn:Es.
    { apply (f_equal (@length R)) in Es. rewrite length_skipn in Es.
      simpl in Es. lia. }
    rewrite write_flat_app.
    destruct (write_flat 3 (grow_gradient (gradient p) k) 0
                (firstn (3 * k) l)) as [m|] eqn:Ew; [|reflexivity].
    apply write_flat_length in Ew.
    rewrite length_firstn, Nat.min_l by lia.
    rewrite write_flat_cons. cbn [Nat.add].
    destruct (div_mod_3 k 0) as [D _]; [lia|]. rewrite Nat.add_0_r in D.
    rewrite D, set_at2_beyond_rows by lia. reflexivity.
  - intros Hfit. unfold update_gradient.
    destruct (write_flat_in_range l
                (grow_gradient (gradient p) (length l / 3)) 0)
      as [g Hw].
    + apply grow_gradient_rows. exact Hg.
    + rewrite grow_gradient_length. lia.
    + rewrite Hw. eexists. reflexivity.
Qed.

Lemma update_gradient_in_bounds_witness :
  rows_of_three (gradient new_manager) /\
  (length four_values mod 3 <> 0)%nat /\
  (3 * length (gradient new_manager) < length four_values)%nat /\
  update_gradient four_values new_manager = None.
Proof.
  assert (Hrows : rows_of_three (gradient new_manager)) by constructor.
  assert (Hmod : (length four_values mod 3 <> 0)%nat)
    by (simpl; discriminate).
  assert (Hlen : (3 * length (gradient new_manager) < length four_values)%nat)
    by (simpl; lia).
  split; [exact Hrows|]. split; [exact Hmod|]. split; [exact Hlen|].
  exact (proj1 (proj2 (update_gradient_in_bounds new_manager four_values
                         Hrows)) Hmod Hlen).
Defined.

(** ** The properties on sample data *)

(** Three atoms at distance 1 from the pointer: the first one wins. *)
Example findClosestAtomIndex_tie :
  findClosestAtomIndex three_atoms origin = 0%Z.
Proof.
  assert (D : forall a, In a three_atoms -> calculateDistance a origin = 1).
  { intros a Ha. unfold calculateDistance, origin.
    rewrite <- sqrt_1. f_equal.
    simpl in Ha. destruct Ha as [<-|[<-|[<-|[]]]]; simpl; ring. }
  unfold findClosestAtomIndex, three_atoms.
  cbn [findClosest_loop Z.eqb orb].
  rewrite !D by (simpl; auto).
  assert (E : Rltb 1 1 = false) by (apply Rltb_false; lra).
  rewrite E. reflexivity.
Qed.

Lemma findClosestAtomIndex_spec_witness :
  three_atoms <> [] /\
  exists n a,
    findClosestAtomIndex three_atoms origin = Z.of_nat n /\
    nth_error three_atoms n = Some a /\
    forall m b, nth_error three_atoms m = Some b ->
      calculateDistance a origin <= calculateDistance b origin /\
      (calculateDistance b origin = calculateDistance a origin -> (n <= m)%nat).
Proof.
  assert (Hne : three_atoms <> []) by discriminate.
  split; [exact Hne|].
  exact (proj2 (findClosestAtomIndex_spec three_atoms origin) Hne).
Defined.

Lemma button_edges_witness :
  HD_DEVICE_ERROR rest_frame = false /\
  HD_DEVICE_ERROR press_frame = false /\
  HD_DEVICE_ERROR soon_frame = false /\
  HD_DEVICE_ERROR later_frame = false /\
  HD_LAST_BUTTONS press_frame = HD_CURRENT_BUTTONS rest_frame /\
  HD_LAST_BUTTONS soon_frame = HD_CURRENT_BUTTONS press_frame /\
  HD_LAST_BUTTONS later_frame = HD_CURRENT_BUTTONS soon_frame /\
  exists r1 r2 r3 r4,
    run [op_tick rest_frame; op_tick press_frame; op_tick soon_frame;
         op_tick later_frame] listening_manager =
      Some (manager r4, [r1; r2; r3; r4]) /\
    map (fun r => filter is_button1 (calls r)) [r1; r2; r3; r4] =
      [ []; [(7%nat, HapticCallback.first_button_down)];
        []; [(7%nat, HapticCallback.first_button_up)] ].
Proof.
  repeat (split; [reflexivity|]).
  destruct (button_edges listening_manager rest_frame press_frame soon_frame
              later_frame eq_refl eq_refl eq_refl eq_refl eq_refl eq_refl
              eq_refl)
    as (r1 & r2 & r3 & r4 & Hrun & _ & _ & _ & _ & Hb1 & _).
  exists r1, r2, r3, r4. split; [exact Hrun|].
  exact (proj1 (Hb1 eq_refl eq_refl)).
Defined.


Lemma flags_need_listeners_witness :
  forallb (fun op => negb (registers_listener op))
    [op_set_calc_gradient_in_loop true; op_add_atom (mkAtomData 0 0 0 0 1);
     op_tick both_buttons_frame] = true /\
  run [op_set_calc_gradient_in_loop true; op_add_atom (mkAtomData 0 0 0 0 1);
       op_tick both_buttons_frame] new_manager =
    Some (manager (tick_result both_buttons_frame one_atom_manager),
          [tick_result both_buttons_frame one_atom_manager]) /\
  second_button_down
    (manager (tick_result both_buttons_frame one_atom_manager)) = false /\
  force_is_zero (tick_result both_buttons_frame one_atom_manager).
Proof.
  assert (Hops : forallb (fun op => negb (registers_listener op))
            [op_set_calc_gradient_in_loop true;
             op_add_atom (mkAtomData 0 0 0 0 1);
             op_tick both_buttons_frame] = true) by reflexivity.
  assert (Hrun : run [op_set_calc_gradient_in_loop true;
                      op_add_atom (mkAtomData 0 0 0 0 1);
                      op_tick both_buttons_frame] new_manager =
            Some (manager (tick_result both_buttons_frame one_atom_manager),
                  [tick_result both_buttons_frame one_atom_manager])).
  { unfold run, step.
    fold one_atom_manager.
    rewrite (tick_returns both_buttons_frame) by reflexivity.
    reflexivity. }
  split; [exact Hops|]. split; [exact Hrun|].
  destruct (proj2 flags_need_listeners _ _ _ Hops Hrun) as (_ & H2 & Hout).
  split; [exact H2|].
  exact (proj2 (proj2 (Hout _ (or_introl eq_refl)))).
Defined.

(** ** The shape of the gradient table in every run *)

Lemma write_flat_rows_of_three values : forall m i m',
  rows_of_three m -> write_flat 3 m i values = Some m' -> rows_of_three m'.
Proof.
  induction values as [|v rest IH]; intros m i m' Hm H.
  - injection H as <-. exact Hm.
  - rewrite write_flat_cons in H.
    destruct (set_at2 m (i / 3) (i mod 3) v) as [m1|] eqn:E; [|discriminate].
    exact (IH m1 (S i) m' (set_at2_rows _ _ _ _ _ Hm E) H).
Qed.

Lemma step_rows_of_three op p p' out :
  rows_of_three (gradient p) -> step op p = Some (p', out) ->
  rows_of_three (gradient p').
Proof.
  intros Hg Hstep.
  destruct op; cbn [step] in Hstep.
  - injection Hstep as <- <-. unfold init_haptic_device.
    destruct (init_error hd); [|destruct (scheduler_error hd)]; exact Hg.
  - injection Hstep as <- <-. exact Hg.
  - injection Hstep as <- <-. unfold exit_haptic_device.
    destruct (negb _); exact Hg.
  - injection Hstep as <- <-. exact Hg.
  - injection Hstep as <- <-. exact Hg.
  - unfold update_atom in Hstep. destruct (_ <? _)%Z; [|discriminate].
    injection Hstep as <- <-. exact Hg.
  - unfold update_gradient in Hstep.
    destruct (write_flat _ _ _ _) as [g|] eqn:E; [|discriminate].
    injection Hstep as <- <-. cbn [gradient with_scene].
    exact (write_flat_rows_of_three _ _ _ _ (grow_gradient_rows _ _ Hg) E).
  - injection Hstep as <- <-. exact Hg.
  - unfold set_transformation_matrix in Hstep.
    destruct (write_flat _ _ _ t_matrix); [|discriminate].
    destruct (write_flat _ _ _ i_matrix); [|discriminate].
    injection Hstep as <- <-. exact Hg.
  - destruct (updateDeviceCallback frame p) as [r|] eqn:E; [|discriminate].
    injection Hstep as <- <-.
    apply tick_inversion in E. destruct E as [_ ->].
    cbn [manager tick_result].
    destruct (manager_after_scene frame p) as (_ & _ & -> & _). exact Hg.
Qed.

(** In every run from a new manager, every row of the gradient table has
    three entries. *)
Lemma run_rows_of_three ops : forall p p' out,
  rows_of_three (gradient p) -> run ops p = Some (p', out) ->
  rows_of_three (gradient p').
Proof.
  induction ops as [|op ops IH]; intros p p' out Hg Hrun.
  - injection Hrun as <- <-. exact Hg.
  - cbn [run] in Hrun.
    destruct (step op p) as [[p1 out1]|] eqn:Es; [|discriminate].
    destruct (run ops p1) as [[p2 out2]|] eqn:Er; [|discriminate].
    injection Hrun as <- <-.
    exact (IH p1 p2 out2 (step_rows_of_three op p p1 out1 Hg Es) Er).
Qed.


(** * Further properties of the code *)

(** ** Camera zoom *)

(** X1: [calculateZoom] answers 0.90 when the pointer moved 1.2 or more
    away along z since the recorded position, 1.10 when it moved 1.2 or
    more the other way, and 1 strictly in between; exchanging the two
    positions exchanges zooming out and zooming in. *)
Theorem calculateZoom_classes (position last_position : hduVector3Dd) :
  let d := vz last_position - vz position in
  (d <= -1.2 -> calculateZoom position last_position = 0.90) /\
  (1.2 <= d -> calculateZoom position last_position = 1.10) /\
  (-1.2 < d < 1.2 -> calculateZoom position last_position = 1) /\
  (calculateZoom position last_position = 0.90 <->
   calculateZoom last_position position = 1.10).
Proof.
  intros d. unfold calculateZoom. fold d.
  replace (vz position - vz last_position) with (- d) by (unfold d; ring).
  destruct (Rleb d (-1.2)) eqn:E1; destruct (Rleb 1.2 d) eqn:E2;
    destruct (Rleb (- d) (-1.2)) eqn:E3; destruct (Rleb 1.2 (- d)) eqn:E4;
    rewrite ?Rleb_true, ?Rleb_false in *;
    repeat split; intros; try lra.
Qed.

Lemma calculateZoom_classes_witness :
  vz zero - vz (mkVec 0 0 2) <= -1.2 /\
  calculateZoom (mkVec 0 0 2) zero = 0.90.
Proof.
  assert (H : vz zero - vz (mkVec 0 0 2) <= -1.2) by (simpl; lra).
  split; [exact H|].
  exact (proj1 (calculateZoom_classes (mkVec 0 0 2) zero) H).
Defined.

(** ** The atom list *)

Lemma to_size_t_nonneg n :
  (0 <= n < 2 ^ 64)%Z -> to_size_t n = n.
Proof. intros H. unfold to_size_t. apply Z.mod_small. exact H. Qed.

Lemma to_size_t_negative n :
  is_int n -> (n < 0)%Z -> (2 ^ 63 <= to_size_t n)%Z.
Proof.
  intros [Hlo Hhi] Hneg. unfold to_size_t.
  replace n with (n + 2 ^ 64 + (-1) * 2 ^ 64)%Z by ring.
  rewrite Z.mod_add by lia.
  rewrite Z.mod_small; lia.
Qed.

Lemma nth_error_list_set_same {A} (l : list A) n x :
  (n < length l)%nat -> nth_error (list_set l n x) n = Some x.
Proof.
  revert n. induction l as [|h t IH]; intros [|n] H; simpl in *; try lia.
  - reflexivity.
  - apply IH. lia.
Qed.

Lemma nth_error_list_set_other {A} (l : list A) n m x :
  n <> m -> nth_error (list_set l n x) m = nth_error l m.
Proof.
  revert n m. induction l as [|h t IH]; intros [|n] [|m] H; simpl;
    try reflexivity; try contradiction.
  apply IH. lia.
Qed.

(** X2: [update_atom] stores the atom at the position given by its id.  For
    an id that is an [int] and an atom list of fewer than 2^63 atoms, the
    call stays inside the list exactly when [0 <= id < size]; a negative
    id is out of range like a large one.  When it stays inside, the list
    keeps its length, holds the atom at position [id], keeps every other
    atom, and nothing else of the manager changes. *)
Theorem update_atom_spec (atom : AtomData) (p : HapticDeviceManager) :
  is_int (getId atom) ->
  (Z.of_nat (length (molecule p)) < 2 ^ 63)%Z ->
  (update_atom atom p = None <->
   (getId atom < 0 \/ Z.of_nat (length (molecule p)) <= getId atom)%Z) /\
  (forall q, update_atom atom p = Some q ->
     length (molecule q) = length (molecule p) /\
     nth_error (molecule q) (Z.to_nat (getId atom)) = Some atom /\
     (forall n, n <> Z.to_nat (getId atom) ->
        nth_error (molecule q) n = nth_error (molecule p) n) /\
     loop_session q = loop_session p /\
     (ghHD q, hUpdateDeviceCallback q, calc_gradient_in_loop q,
      transformation_matrix q, invert_matrix q, gradient q, callbacks q) =
     (ghHD p, hUpdateDeviceCallback p, calc_gradient_in_loop p,
      transformation_matrix p, invert_matrix p, gradient p, callbacks p)).
Proof.
  intros Hint Hsize.
  assert (Hguard : (to_size_t (getId atom) <
                    Z.of_nat (length (molecule p)))%Z <->
                   (0 <= getId atom < Z.of_nat (length (molecule p)))%Z).
  { destruct (Z.lt_ge_cases (getId atom) 0) as [Hneg|Hpos].
    - pose proof (to_size_t_negative _ Hint Hneg). lia.
    - rewrite to_size_t_nonneg by (destruct Hint; lia). lia. }
  unfold update_atom.
  destruct (to_size_t (getId atom) <? Z.of_nat (length (molecule p)))%Z eqn:E.
  - apply Z.ltb_lt in E. apply Hguard in E. split.
    + split; [discriminate|lia].
    + intros q Hq. injection Hq as <-. cbn [molecule with_scene].
      split; [apply list_set_length|].
      split; [apply nth_error_list_set_same; lia|].
      split; [|split; reflexivity].
      intros n Hn. apply nth_error_list_set_other. congruence.
  - apply Z.ltb_ge in E. split.
    + split; [intros _; lia|reflexivity].
    + intros q Hq. discriminate Hq.
Qed.

Lemma update_atom_spec_witness :
  is_int (getId (mkAtomData 1 9 9 9 2)) /\
  (Z.of_nat (length (molecule (add_atom (mkAtomData 1 0 1 0 1)
                                 (add_atom (mkAtomData 0 1 0 0 1)
                                    new_manager)))) < 2 ^ 63)%Z /\
  (update_atom (mkAtomData (-1) 9 9 9 2)
     (add_atom (mkAtomData 0 1 0 0 1) new_manager) = None) /\
  exists q,
    update_atom (mkAtomData 1 9 9 9 2)
      (add_atom (mkAtomData 1 0 1 0 1)
         (add_atom (mkAtomData 0 1 0 0 1) new_manager)) = Some q /\
    nth_error (molecule q) 1 = Some (mkAtomData 1 9 9 9 2).
Proof.
  assert (Hi : is_int 1) by (unfold is_int; lia).
  assert (Hn : is_int (-1)) by (unfold is_int; lia).
  split; [exact Hi|]. split; [simpl; lia|]. split.
  - apply (proj1 (update_atom_spec (mkAtomData (-1) 9 9 9 2)
                    (add_atom (mkAtomData 0 1 0 0 1) new_manager) Hn
                    ltac:(simpl; lia))).
    left. simpl. lia.
  - eexists. split; [reflexivity|].
    apply (proj2 (update_atom_spec (mkAtomData 1 9 9 9 2)
                    (add_atom (mkAtomData 1 0 1 0 1)
                       (add_atom (mkAtomData 0 1 0 0 1) new_manager)) Hi
                    ltac:(simpl; lia)) _ eq_refl).
Defined.

Lemma run_app ops1 : forall ops2 p,
  run (ops1 ++ ops2) p =
  match run ops1 p with
  | Some (p1, out1) =>
      match run ops2 p1 with
      | Some (p2, out2) => Some (p2, out1 ++ out2)
      | None => None
      end
  | None => None
  end.
Proof.
  induction ops1 as [|op ops1 IH]; intros ops2 p.
  - simpl. destruct (run ops2 p) as [[p2 out2]|]; reflexivity.
  - cbn [run app]. destruct (step op p) as [[p1 out1]|]; [|reflexivity].
    rewrite IH. destruct (run ops1 p1) as [[p1' out1']|]; [|reflexivity].
    destruct (run ops2 p1') as [[p2 out2]|]; [|reflexivity].
    rewrite app_assoc. reflexivity.
Qed.

Lemma run_add_atoms atoms : forall p,
  exists q,
    run (map op_add_atom atoms) p = Some (q, []) /\
    molecule q = molecule p ++ atoms /\
    loop_session q = loop_session p /\
    (ghHD q, hUpdateDeviceCallback q, calc_gradient_in_loop q,
     transformation_matrix q, invert_matrix q, gradient q, callbacks q) =
    (ghHD p, hUpdateDeviceCallback p, calc_gradient_in_loop p,
     transformation_matrix p, invert_matrix p, gradient p, callbacks p).
Proof.
  induction atoms as [|a atoms IH]; intros p.
  - exists p. rewrite app_nil_r. repeat split.
  - destruct (IH (add_atom a p)) as (q & Hrun & Hm & Hs & Hrest).
    exists q. cbn [map run step]. rewrite Hrun.
    split; [reflexivity|]. split.
    + rewrite Hm. cbn [molecule add_atom with_scene].
      rewrite <- app_assoc. reflexivity.
    + split; [exact Hs|exact Hrest].
Qed.

(** X3: a [clear_molecule] followed by one [add_atom] per atom leaves
    exactly those atoms, in the order given, whatever the list held
    before, and changes nothing else of the manager. *)
Theorem clear_and_fill_molecule (atoms : list AtomData)
    (p : HapticDeviceManager) :
  exists q,
    run (clear_and_fill atoms) p = Some (q, []) /\
    molecule q = atoms /\
    loop_session q = loop_session p /\
    (ghHD q, hUpdateDeviceCallback q, calc_gradient_in_loop q,
     transformation_matrix q, invert_matrix q, gradient q, callbacks q) =
    (ghHD p, hUpdateDeviceCallback p, calc_gradient_in_loop p,
     transformation_matrix p, invert_matrix p, gradient p, callbacks p).
Proof.
  destruct (run_add_atoms atoms (clear_molecule p))
    as (q & Hrun & Hm & Hs & Hrest).
  exists q. unfold clear_and_fill. cbn [run step]. rewrite Hrun.
  split; [reflexivity|]. split; [exact Hm|]. split; [exact Hs|exact Hrest].
Qed.

(** ** What a tick writes and what it leaves alone *)

(** X4: a tick writes a force to the device exactly when the atom list is
    not empty; with an empty list it performs no force write at all, and
    the id it would hand to [second_button_down] is -1. *)
Theorem force_written_iff_atoms (frame : HDFrame) (p : HapticDeviceManager)
    (r : TickResult) :
  updateDeviceCallback frame p = Some r ->
  (HD_CURRENT_FORCE r = None <-> molecule p = []) /\
  (molecule p = [] -> selected_atom_id frame p = (-1)%Z).
Proof.
  intros Hr. apply tick_inversion in Hr. destruct Hr as [_ ->].
  cbn [HD_CURRENT_FORCE tick_result].
  split; [|apply selected_none_when_empty].
  unfold tick_selection, selectAndSetForce.
  destruct (molecule p) as [|a rest].
  - split; reflexivity.
  - cbn [length Nat.ltb Nat.leb].
    destruct (Rleb _ _); [destruct (_ <? _)%Z|];
      cbn [snd]; split; intros H; discriminate H.
Qed.

Lemma force_written_iff_atoms_witness :
  updateDeviceCallback both_buttons_frame new_manager =
    Some (tick_result both_buttons_frame new_manager) /\
  HD_CURRENT_FORCE (tick_result both_buttons_frame new_manager) = None.
Proof.
  assert (H : updateDeviceCallback both_buttons_frame new_manager =
              Some (tick_result both_buttons_frame new_manager))
    by (apply tick_returns; reflexivity).
  split; [exact H|].
  apply (proj1 (force_written_iff_atoms _ _ _ H)). reflexivity.
Defined.

(** X5: a tick fails to return exactly when the device reports an error.
    A tick that returns leaves the device handles, the guidance flag, both
    matrices, the gradient table, the listener list and the atom list as
    they were: the servicing loop only reads them. *)
Theorem tick_keeps_scene (frame : HDFrame) (p : HapticDeviceManager) :
  (updateDeviceCallback frame p = None <-> HD_DEVICE_ERROR frame = true) /\
  (forall r, updateDeviceCallback frame p = Some r ->
     scene (manager r) = scene p).
Proof.
  split.
  - split.
    + intros H. destruct (HD_DEVICE_ERROR frame) eqn:E; [reflexivity|].
      rewrite (tick_returns frame p E) in H. discriminate H.
    + intros E. unfold updateDeviceCallback. rewrite E. reflexivity.
  - intros r Hr. apply tick_inversion in Hr. destruct Hr as [_ ->].
    cbn [manager tick_result]. unfold manager_after, scene.
    destruct (throttled frame p); reflexivity.
Qed.

(** ** The session state along a run *)

(** X6: along every run the throttle timestamp never goes back and the
    first-tick flag, once cleared, is never set again: no operation of the
    interface touches them (neither a stop nor a restart of the device),
    and a tick only moves the timestamp forward by [kMinDelay] or more. *)
Theorem session_only_advances (ops : list Op) (p p' : HapticDeviceManager)
    (out : list TickResult) :
  run ops p = Some (p', out) ->
  (last_event_timestamp p <= last_event_timestamp p')%Z /\
  (call_first_time p = false -> call_first_time p' = false).
Proof. apply session_only_advances_aux. Qed.

Lemma session_only_advances_witness :
  run [op_tick press_frame; op_exit_haptic_device;
       op_init_haptic_device (mkInit 1 false 2 false)] listening_manager =
    Some (fst (init_haptic_device (mkInit 1 false 2 false)
                 (exit_haptic_device
                    (manager (tick_result press_frame listening_manager)))),
          [tick_result press_frame listening_manager]) /\
  call_first_time
    (fst (init_haptic_device (mkInit 1 false 2 false)
            (exit_haptic_device
               (manager (tick_result press_frame listening_manager))))) =
  false.
Proof.
  assert (H1 : run [op_tick press_frame] listening_manager =
               Some (manager (tick_result press_frame listening_manager),
                     [tick_result press_frame listening_manager])).
  { unfold run, step. rewrite (tick_returns press_frame) by reflexivity.
    reflexivity. }
  assert (H2 : run [op_exit_haptic_device;
                    op_init_haptic_device (mkInit 1 false 2 false)]
                 (manager (tick_result press_frame listening_manager)) =
               Some (fst (init_haptic_device (mkInit 1 false 2 false)
                            (exit_haptic_device
                               (manager (tick_result press_frame
                                           listening_manager)))), []))
    by reflexivity.
  split.
  - change [op_tick press_frame; op_exit_haptic_device;
            op_init_haptic_device (mkInit 1 false 2 false)]
      with ([op_tick press_frame] ++
            [op_exit_haptic_device;
             op_init_haptic_device (mkInit 1 false 2 false)]).
    rewrite run_app, H1, H2. reflexivity.
  - apply (proj2 (session_only_advances _ _ _ _ H2)). reflexivity.
Defined.

(** X7: two ticks that both perform [move] calls are at least [kMinDelay]
    apart on the clock, whatever operations and ticks happen between
    them: the listeners get at most one [move] per [kMinDelay]. *)
Theorem move_rate_cap (p : HapticDeviceManager) (f1 f2 : HDFrame)
    (r1 r2 : TickResult) (ops : list Op) (p2 : HapticDeviceManager)
    (out : list TickResult) :
  updateDeviceCallback f1 p = Some r1 ->
  filter is_move (calls r1) <> [] ->
  run ops (manager r1) = Some (p2, out) ->
  updateDeviceCallback f2 p2 = Some r2 ->
  filter is_move (calls r2) <> [] ->
  (kMinDelay <= steady_clock_now f2 - steady_clock_now f1)%Z.
Proof.
  intros H1 M1 Hrun H2 M2.
  assert (Hpass : forall f q r,
            updateDeviceCallback f q = Some r ->
            filter is_move (calls r) <> [] ->
            throttled f q = false /\
            last_event_timestamp (manager r) = steady_clock_now f).
  { intros f q r Hr Hm. apply tick_inversion in Hr. destruct Hr as [_ ->].
    cbn [calls manager tick_result] in *. rewrite move_calls_of_tick in Hm.
    unfold move_calls in Hm. unfold manager_after.
    destruct (throttled f q); [contradiction|]. split; reflexivity. }
  destruct (Hpass f1 p r1 H1 M1) as [_ Ht1].
  destruct (Hpass f2 p2 r2 H2 M2) as [Hthr2 _].
  apply throttled_false in Hthr2.
  destruct (session_only_advances_aux ops (manager r1) p2 out Hrun) as [Hle _].
  lia.
Qed.

Lemma tick_moves frame p :
  throttled frame p = false ->
  tick_data frame p <> previous_data frame p ->
  callbacks p <> [] ->
  filter is_move (calls (tick_result frame p)) <> [].
Proof.
  intros Ht Hd Hc. cbn [calls tick_result].
  rewrite move_calls_of_tick. unfold move_calls. rewrite Ht.
  apply position_changed_true in Hd. rewrite Hd.
  destruct (callbacks p); [contradiction|discriminate].
Qed.

Lemma move_rate_cap_witness :
  updateDeviceCallback move_frame1 listening_manager =
    Some (tick_result move_frame1 listening_manager) /\
  filter is_move (calls (tick_result move_frame1 listening_manager)) <> [] /\
  run [op_tick soon_frame]
      (manager (tick_result move_frame1 listening_manager)) =
    Some (manager_after soon_frame
            (manager (tick_result move_frame1 listening_manager)),
          [tick_result soon_frame
             (manager (tick_result move_frame1 listening_manager))]) /\
  filter is_move
    (calls (tick_result move_frame2
              (manager_after soon_frame
                 (manager (tick_result move_frame1 listening_manager)))))
    <> [] /\
  (kMinDelay <= steady_clock_now move_frame2 - steady_clock_now move_frame1)%Z.
Proof.
  assert (H1 : updateDeviceCallback move_frame1 listening_manager =
               Some (tick_result move_frame1 listening_manager))
    by (apply tick_returns; reflexivity).
  assert (M1 : filter is_move
                 (calls (tick_result move_frame1 listening_manager)) <> []).
  { apply tick_moves; [reflexivity| |discriminate].
    intros E. apply (f_equal getPosX) in E.
    unfold tick_data, previous_data, previous_sent,
      transformToAppCoordinates, at2, scale_factor in E.
    simpl in E. lra. }
  assert (Hrun : run [op_tick soon_frame]
                   (manager (tick_result move_frame1 listening_manager)) =
                 Some (manager_after soon_frame
                         (manager (tick_result move_frame1 listening_manager)),
                       [tick_result soon_frame
                          (manager (tick_result move_frame1
                                      listening_manager))])).
  { unfold run, step. rewrite (tick_returns soon_frame) by reflexivity.
    reflexivity. }
  assert (H2 : updateDeviceCallback move_frame2
                 (manager_after soon_frame
                    (manager (tick_result move_frame1 listening_manager))) =
               Some (tick_result move_frame2
                       (manager_after soon_frame
                          (manager (tick_result move_frame1
                                      listening_manager)))))
    by (apply tick_returns; reflexivity).
  assert (M2 : filter is_move
                 (calls (tick_result move_frame2
                           (manager_after soon_frame
                              (manager (tick_result move_frame1
                                          listening_manager))))) <> []).
  { apply tick_moves; [reflexivity| |discriminate].
    intros E. apply (f_equal getPosX) in E.
    unfold tick_data, previous_data, previous_sent,
      transformToAppCoordinates, at2, scale_factor in E.
    simpl in E. lra. }
  split; [exact H1|]. split; [exact M1|]. split; [exact Hrun|].
  split; [exact M2|].
  exact (move_rate_cap _ _ _ _ _ _ _ _ H1 M1 Hrun H2 M2).
Defined.

(** ** Listeners along a run *)

Lemma registered_app ops1 ops2 :
  registered (ops1 ++ ops2) = registered ops1 ++ registered ops2.
Proof. unfold registered. apply flat_map_app. Qed.

(** X8: the listener list only grows, at its end: after any run it is the
    list before the run followed by the listeners the run registered, in
    the order of their registration, a listener registered twice standing
    twice.  No operation removes or reorders listeners. *)
Theorem listeners_append_only (ops : list Op) : forall p p' out,
  run ops p = Some (p', out) ->
  callbacks p' = callbacks p ++ registered ops.
Proof.
  induction ops as [|op ops IH]; intros p p' out Hrun.
  - injection Hrun as <- <-. cbn. rewrite app_nil_r. reflexivity.
  - cbn [run] in Hrun.
    destruct (step op p) as [[p1 out1]|] eqn:Es; [|discriminate].
    destruct (run ops p1) as [[p2 out2]|] eqn:Er; [|discriminate].
    injection Hrun as <- <-.
    rewrite (IH p1 p2 out2 Er).
    change (op :: ops) with ([op] ++ ops). rewrite registered_app, app_assoc.
    f_equal.
    destruct (step_cases op p p1 out1 Es)
      as [(frame & -> & _ & -> & _) | (_ & _ & _ & Hc)].
    + cbn. rewrite app_nil_r. apply manager_after_scene.
    + exact Hc.
Qed.

Lemma listeners_append_only_witness :
  run [op_add_haptic_callback 7%nat; op_tick press_frame;
       op_add_haptic_callback 7%nat; op_add_haptic_callback 3%nat]
      new_manager =
    Some (add_haptic_callback 3%nat
            (add_haptic_callback 7%nat
               (manager (tick_result press_frame listening_manager))),
          [tick_result press_frame listening_manager]) /\
  callbacks (add_haptic_callback 3%nat
               (add_haptic_callback 7%nat
                  (manager (tick_result press_frame listening_manager)))) =
  [7; 7; 3]%nat.
Proof.
  assert (Hrun : run [op_add_haptic_callback 7%nat; op_tick press_frame;
                      op_add_haptic_callback 7%nat;
                      op_add_haptic_callback 3%nat] new_manager =
                 Some (add_haptic_callback 3%nat
                         (add_haptic_callback 7%nat
                            (manager (tick_result press_frame
                                        listening_manager))),
                       [tick_result press_frame listening_manager])).
  { unfold run, step. fold listening_manager.
    rewrite (tick_returns press_frame) by reflexivity. reflexivity. }
  split; [exact Hrun|].
  exact (listeners_append_only _ _ _ _ Hrun).
Defined.

(** ** Button flags and the layout of the calls of a tick *)

Lemma land_button_1 x :
  Z.land x HD_DEVICE_BUTTON_1 = 0%Z \/ Z.land x HD_DEVICE_BUTTON_1 = 1%Z.
Proof.
  unfold HD_DEVICE_BUTTON_1.
  change 1%Z with (Z.ones 1). rewrite Z.land_ones by lia.
  pose proof (Z.mod_pos_bound x (2 ^ 1) ltac:(lia)).
  change (2 ^ 1)%Z with 2%Z in *. change (Z.ones 1) with 1%Z. lia.
Qed.

Lemma land_button_2 x :
  Z.land x HD_DEVICE_BUTTON_2 = 0%Z \/ Z.land x HD_DEVICE_BUTTON_2 = 2%Z.
Proof.
  unfold HD_DEVICE_BUTTON_2.
  destruct (Z.testbit x 1) eqn:B; [right|left]; apply Z.bits_inj';
    intros n Hn; rewrite Z.land_spec;
    change 2%Z with (2 ^ 1)%Z; rewrite Z.pow2_bits_eqb by lia;
    destruct (Z.eqb_spec 1 n) as [<-|Hne];
    rewrite ?B, ?andb_false_r, ?Z.bits_0; reflexivity.
Qed.

Lemma edges_exclusive mask current last :
  mask <> 0%Z ->
  rising mask current last = true -> falling mask current last = false.
Proof.
  intros Hm Hr. unfold rising, falling in *.
  apply andb_true_iff in Hr. destruct Hr as [_ Hl].
  apply Z.eqb_eq in Hl. rewrite Hl.
  destruct (Z.eqb_spec 0 mask) as [E|_]; [congruence|apply andb_false_r].
Qed.

Lemma flag_follows mask current last cbs flag :
  (Z.land current mask = 0 \/ Z.land current mask = mask)%Z ->
  (Z.land last mask = 0 \/ Z.land last mask = mask)%Z ->
  mask <> 0%Z -> cbs <> [] ->
  flag = negb (Z.land last mask =? 0)%Z ->
  edge_flag (falling mask current last) cbs
    (edge_flag (rising mask current last) cbs flag true) false =
  negb (Z.land current mask =? 0)%Z.
Proof.
  intros Hc Hl Hm Hcb ->. unfold rising, falling, edge_flag.
  destruct cbs as [|cb cbs]; [contradiction|].
  assert (Hm' : (mask =? 0)%Z = false) by (apply Z.eqb_neq; exact Hm).
  assert (Hm'' : (0 =? mask)%Z = false) by (apply Z.eqb_neq; congruence).
  destruct Hc as [-> | ->]; destruct Hl as [-> | ->];
    rewrite ?Z.eqb_refl, ?Hm', ?Hm''; reflexivity.
Qed.

(** X9: with at least one listener registered, the two button flags follow
    the device: if a flag tells whether its button was down in the tick's
    last buttons, then after the tick it tells whether the button is down
    in the tick's current buttons.  (Without a listener the flags never
    change.) *)
Theorem flags_follow_buttons (frame : HDFrame) (p : HapticDeviceManager)
    (r : TickResult) :
  callbacks p <> [] ->
  updateDeviceCallback frame p = Some r ->
  (first_button_down p =
     negb (Z.land (HD_LAST_BUTTONS frame) HD_DEVICE_BUTTON_1 =? 0)%Z ->
   first_button_down (manager r) =
     negb (Z.land (HD_CURRENT_BUTTONS frame) HD_DEVICE_BUTTON_1 =? 0)%Z) /\
  (second_button_down p =
     negb (Z.land (HD_LAST_BUTTONS frame) HD_DEVICE_BUTTON_2 =? 0)%Z ->
   second_button_down (manager r) =
     negb (Z.land (HD_CURRENT_BUTTONS frame) HD_DEVICE_BUTTON_2 =? 0)%Z).
Proof.
  intros Hcb Hr. apply tick_inversion in Hr. destruct Hr as [_ ->].
  cbn [manager tick_result].
  destruct (manager_after_scene frame p) as (_ & _ & _ & _ & -> & ->).
  unfold first_flag_after, second_flag_after. split; intros Hflag.
  - apply flag_follows; try assumption; try discriminate;
      apply land_button_1.
  - apply flag_follows; try assumption; try discriminate;
      apply land_button_2.
Qed.

Lemma flags_follow_buttons_witness :
  callbacks listening_manager <> [] /\
  updateDeviceCallback both_buttons_frame listening_manager =
    Some (tick_result both_buttons_frame listening_manager) /\
  second_button_down
    (manager (tick_result both_buttons_frame listening_manager)) = true.
Proof.
  assert (Hc : callbacks listening_manager <> []) by discriminate.
  assert (Hr : updateDeviceCallback both_buttons_frame listening_manager =
               Some (tick_result both_buttons_frame listening_manager))
    by (apply tick_returns; reflexivity).
  split; [exact Hc|]. split; [exact Hr|].
  exact (proj2 (flags_follow_buttons _ _ _ Hc Hr) eq_refl).
Defined.

(** X10: the calls of a tick come in a fixed order: those of button 1,
    then those of button 2, then the [move] calls.  For each button a tick
    performs either nothing, or one down call per listener entry, or one up
    call per listener entry, never both a down and an up; and either no
    [move] call or one per listener entry. *)
Theorem tick_calls_layout (frame : HDFrame) (p : HapticDeviceManager)
    (r : TickResult) :
  updateDeviceCallback frame p = Some r ->
  calls r = filter is_button1 (calls r) ++ filter is_button2 (calls r) ++
            filter is_move (calls r) /\
  (filter is_button1 (calls r) = [] \/
   filter is_button1 (calls r) =
     to_all (callbacks p) HapticCallback.first_button_down \/
   filter is_button1 (calls r) =
     to_all (callbacks p) HapticCallback.first_button_up) /\
  (filter is_button2 (calls r) = [] \/
   filter is_button2 (calls r) =
     to_all (callbacks p)
       (HapticCallback.second_button_down (selected_atom_id frame p)) \/
   filter is_button2 (calls r) =
     to_all (callbacks p) HapticCallback.second_button_up) /\
  (filter is_move (calls r) = [] \/
   filter is_move (calls r) = to_all (callbacks p) (move_call frame p)).
Proof.
  intros Hr. apply tick_inversion in Hr. destruct Hr as [_ ->].
  cbn [calls tick_result].
  rewrite button1_calls_of_tick, button2_calls_of_tick, move_calls_of_tick.
  split; [unfold button_calls; rewrite <- !app_assoc; reflexivity|].
  split; [|split].
  - destruct (rising HD_DEVICE_BUTTON_1 _ _) eqn:Er.
    + rewrite (edges_exclusive HD_DEVICE_BUTTON_1 _ _
                 ltac:(unfold HD_DEVICE_BUTTON_1; lia) Er).
      right; left. cbn. apply app_nil_r.
    + destruct (falling HD_DEVICE_BUTTON_1 _ _); [right; right|left];
        reflexivity.
  - destruct (rising HD_DEVICE_BUTTON_2 _ _) eqn:Er.
    + rewrite (edges_exclusive HD_DEVICE_BUTTON_2 _ _
                 ltac:(unfold HD_DEVICE_BUTTON_2; lia) Er).
      right; left. cbn. apply app_nil_r.
    + destruct (falling HD_DEVICE_BUTTON_2 _ _); [right; right|left];
        reflexivity.
  - unfold move_calls. destruct (throttled frame p); [left; reflexivity|].
    destruct (position_changed frame p); [right|left]; reflexivity.
Qed.

Lemma tick_calls_layout_witness :
  updateDeviceCallback both_buttons_frame listening_manager =
    Some (tick_result both_buttons_frame listening_manager) /\
  calls (tick_result both_buttons_frame listening_manager) =
  filter is_button1 (calls (tick_result both_buttons_frame listening_manager))
  ++ filter is_button2
       (calls (tick_result both_buttons_frame listening_manager))
  ++ filter is_move
       (calls (tick_result both_buttons_frame listening_manager)).
Proof.
  assert (Hr : updateDeviceCallback both_buttons_frame listening_manager =
               Some (tick_result both_buttons_frame listening_manager))
    by (apply tick_returns; reflexivity).
  split; [exact Hr|].
  exact (proj1 (tick_calls_layout _ _ _ Hr)).
Defined.

(** ** The guidance force *)

Lemma scaleForce_of_zero force_clamp v stiffness :
  vx v = 0 -> vy v = 0 -> vz v = 0 ->
  scaleForce force_clamp v stiffness = zero.
Proof.
  destruct v as [x y z]. cbn [vx vy vz]. intros -> -> ->.
  unfold scaleForce, hduVecScale. cbn [vx vy vz].
  replace (0 * stiffness) with 0 by ring. fold zero.
  rewrite magnitude_zero.
  destruct (Rltb force_clamp 0); [|reflexivity].
  unfold hduVecNormalize, hduVecScale, zero. cbn [vx vy vz].
  unfold Rdiv. rewrite !Rmult_0_l. reflexivity.
Qed.

Lemma guidance_force_form force_clamp position atom_pos atom_gradient p :
  calc_gradient_in_loop p = true -> second_button_down p = true ->
  setForce force_clamp position atom_pos atom_gradient p =
  scaleForce force_clamp (hduVecSubtract zero atom_gradient) 0.8.
Proof.
  intros Hg Hb. unfold setForce. rewrite Hg, Hb. cbn [andb].
  f_equal. unfold hduVecSubtract, zero. cbn [vx vy vz]. f_equal; ring.
Qed.

(** X11: the force [setForce] writes depends neither on the pointer
    position nor on the position of the atom: in guidance mode with the
    second button held it is the opposite of the transformed gradient,
    scaled by 0.8 and clamped, and otherwise zero. *)
Theorem setForce_ignores_positions (force_clamp : R)
    (position1 position2 atom_pos1 atom_pos2 atom_gradient : hduVector3Dd)
    (p : HapticDeviceManager) :
  setForce force_clamp position1 atom_pos1 atom_gradient p =
  setForce force_clamp position2 atom_pos2 atom_gradient p /\
  setForce force_clamp position1 atom_pos1 atom_gradient p =
  (if calc_gradient_in_loop p && second_button_down p
   then scaleForce force_clamp (hduVecSubtract zero atom_gradient) 0.8
   else zero).
Proof.
  destruct (calc_gradient_in_loop p) eqn:Hg;
    destruct (second_button_down p) eqn:Hb; cbn [andb].
  - rewrite !guidance_force_form by assumption. split; reflexivity.
  - unfold setForce. rewrite Hg, Hb. split; reflexivity.
  - unfold setForce. rewrite Hg, Hb. split; reflexivity.
  - unfold setForce. rewrite Hg, Hb. split; reflexivity.
Qed.

Lemma tick_force frame p :
  molecule p <> [] ->
  snd (tick_selection frame p) =
  Some (setForce (HD_NOMINAL_MAX_CONTINUOUS_FORCE frame)
          (HD_CURRENT_POSITION frame)
          (transformToHapticCoordinates
             (atomPosX (closest_atom frame p))
             (atomPosY (closest_atom frame p))
             (atomPosZ (closest_atom frame p))
             (invert_matrix p) scale_factor)
          (transformToHapticCoordinates
             (nth 0 (tick_gradient frame p) 0)
             (nth 1 (tick_gradient frame p) 0)
             (nth 2 (tick_gradient frame p) 0)
             (invert_matrix p) scale_factor) p).
Proof.
  intros Hne. unfold tick_selection, selectAndSetForce, tick_gradient.
  fold (closest_atom frame p).
  destruct (molecule p) as [|a rest]; [contradiction|].
  cbn [length Nat.ltb Nat.leb].
  destruct (Rleb _ _); [destruct (_ <? _)%Z|]; reflexivity.
Qed.

(** X12: in a tick with atoms, guidance mode on and the second-button flag
    set, the force written is the opposite of the gradient row used by the
    tick, carried to device coordinates like a point (inverse matrix with
    its translation column, scale factor 10), scaled by 0.8 and clamped.
    When the gradient used is zero, that is the opposite of the
    translation column of the inverse matrix, so the force is zero for an
    inverse matrix without translation. *)
Theorem guidance_force_of_tick (frame : HDFrame) (p : HapticDeviceManager)
    (r : TickResult) :
  updateDeviceCallback frame p = Some r ->
  molecule p <> [] ->
  calc_gradient_in_loop p = true -> second_button_down p = true ->
  let g := tick_gradient frame p in
  let clamp := HD_NOMINAL_MAX_CONTINUOUS_FORCE frame in
  HD_CURRENT_FORCE r =
    Some (scaleForce clamp
            (hduVecSubtract zero
               (transformToHapticCoordinates (nth 0 g 0) (nth 1 g 0)
                  (nth 2 g 0) (invert_matrix p) scale_factor)) 0.8) /\
  (g = [0; 0; 0] ->
   HD_CURRENT_FORCE r =
     Some (scaleForce clamp
             (mkVec (- at2 (invert_matrix p) 0 3)
                    (- at2 (invert_matrix p) 1 3)
                    (- at2 (invert_matrix p) 2 3)) 0.8)) /\
  (g = [0; 0; 0] ->
   at2 (invert_matrix p) 0 3 = 0 -> at2 (invert_matrix p) 1 3 = 0 ->
   at2 (invert_matrix p) 2 3 = 0 ->
   HD_CURRENT_FORCE r = Some zero).
Proof.
  intros Hr Hne Hg Hb g clamp.
  apply tick_inversion in Hr. destruct Hr as [_ ->].
  cbn [HD_CURRENT_FORCE tick_result].
  rewrite (tick_force frame p Hne).
  rewrite guidance_force_form by assumption.
  fold g. fold clamp.
  split; [reflexivity|]. split.
  - intros Hz. rewrite Hz. cbn [nth]. do 2 f_equal.
    unfold hduVecSubtract, transformToHapticCoordinates, zero.
    cbn [vx vy vz]. f_equal; ring.
  - intros Hz H0 H1 H2. rewrite Hz. cbn [nth]. f_equal.
    apply scaleForce_of_zero;
      unfold hduVecSubtract, transformToHapticCoordinates, zero;
      cbn [vx vy vz]; rewrite ?H0, ?H1, ?H2; ring.
Qed.

Lemma guidance_force_of_tick_witness :
  run [op_add_haptic_callback 7%nat; op_tick both_buttons_frame]
      one_atom_manager =
    Some (held_manager,
          [tick_result both_buttons_frame
             (add_haptic_callback 7%nat one_atom_manager)]) /\
  updateDeviceCallback hold_frame held_manager =
    Some (tick_result hold_frame held_manager) /\
  molecule held_manager <> [] /\
  calc_gradient_in_loop held_manager = true /\
  second_button_down held_manager = true /\
  HD_CURRENT_FORCE (tick_result hold_frame held_manager) =
    Some (scaleForce 1
            (hduVecSubtract zero
               (transformToHapticCoordinates
                  (nth 0 (tick_gradient hold_frame held_manager) 0)
                  (nth 1 (tick_gradient hold_frame held_manager) 0)
                  (nth 2 (tick_gradient hold_frame held_manager) 0)
                  (invert_matrix held_manager) scale_factor)) 0.8).
Proof.
  assert (Hrun : run [op_add_haptic_callback 7%nat;
                      op_tick both_buttons_frame] one_atom_manager =
                 Some (held_manager,
                       [tick_result both_buttons_frame
                          (add_haptic_callback 7%nat one_atom_manager)])).
  { unfold run, step.
    rewrite (tick_returns both_buttons_frame) by reflexivity. reflexivity. }
  assert (Hr : updateDeviceCallback hold_frame held_manager =
               Some (tick_result hold_frame held_manager))
    by (apply tick_returns; reflexivity).
  assert (Hne : molecule held_manager <> []) by discriminate.
  split; [exact Hrun|]. split; [exact Hr|]. split; [exact Hne|].
  split; [reflexivity|]. split; [reflexivity|].
  exact (proj1 (guidance_force_of_tick _ _ _ Hr Hne eq_refl eq_refl)).
Defined.

(** ** Edges of the selection *)

Lemma calculateDistance_nonneg atom data : 0 <= calculateDistance atom data.
Proof. apply sqrt_pos. Qed.

Lemma calculateDistance_at_atom atom data :
  atomPosX atom = getPosX data -> atomPosY atom = getPosY data ->
  atomPosZ atom = getPosZ data -> calculateDistance atom data = 0.
Proof.
  intros Hx Hy Hz. unfold calculateDistance. rewrite Hx, Hy, Hz.
  replace ((getPosX data - getPosX data) * (getPosX data - getPosX data) +
           (getPosY data - getPosY data) * (getPosY data - getPosY data) +
           (getPosZ data - getPosZ data) * (getPosZ data - getPosZ data))
    with 0 by ring.
  apply sqrt_0.
Qed.

(** X13: in a tick with atoms, a closest atom with a negative radius is
    never selected, whatever its distance (the selected id is -1); a
    closest atom with a radius of zero or more is selected whenever the
    pointer is exactly on it. *)
Theorem selection_edges (frame : HDFrame) (p : HapticDeviceManager) :
  molecule p <> [] ->
  let atom := closest_atom frame p in
  let data := tick_data frame p in
  (getDistance atom < 0 -> selected_atom_id frame p = (-1)%Z) /\
  (0 <= getDistance atom ->
   atomPosX atom = getPosX data -> atomPosY atom = getPosY data ->
   atomPosZ atom = getPosZ data ->
   selected_atom_id frame p = getId atom).
Proof.
  intros Hne atom data.
  rewrite (selected_cases frame p Hne). fold atom. fold data.
  pose proof (calculateDistance_nonneg atom data) as Hd.
  split.
  - intros Hr. destruct (Rleb _ _) eqn:E; [|reflexivity].
    apply Rleb_true in E. lra.
  - intros Hr Hx Hy Hz.
    rewrite (calculateDistance_at_atom atom data Hx Hy Hz).
    destruct (Rleb 0 (3 * getDistance atom)) eqn:E; [reflexivity|].
    apply Rleb_false in E. lra.
Qed.

Lemma selection_edges_witness :
  molecule one_atom_manager <> [] /\
  (0 <= getDistance (closest_atom rest_frame one_atom_manager) ->
   atomPosX (closest_atom rest_frame one_atom_manager) =
     getPosX (tick_data rest_frame one_atom_manager) ->
   atomPosY (closest_atom rest_frame one_atom_manager) =
     getPosY (tick_data rest_frame one_atom_manager) ->
   atomPosZ (closest_atom rest_frame one_atom_manager) =
     getPosZ (tick_data rest_frame one_atom_manager) ->
   selected_atom_id rest_frame one_atom_manager =
     getId (closest_atom rest_frame one_atom_manager)).
Proof.
  assert (Hne : molecule one_atom_manager <> []) by discriminate.
  split; [exact Hne|].
  exact (proj2 (selection_edges rest_frame one_atom_manager Hne)).
Defined.

(** ** The gradient a tick uses *)

(** X14: the gradient a tick uses for an [int] atom id and a table of
    fewer than 2^63 rows.  It is the zero vector when the closest atom is
    not selected, when its id is negative (the comparison with the table
    size is made on [size_t]), and when its id is the table size or more;
    when the atom is selected and [0 <= id < size] it is row [id] of the
    table, which exists. *)
Theorem gradient_of_tick (frame : HDFrame) (p : HapticDeviceManager) :
  is_int (getId (closest_atom frame p)) ->
  (Z.of_nat (length (gradient p)) < 2 ^ 63)%Z ->
  let atom := closest_atom frame p in
  let d := calculateDistance atom (tick_data frame p) in
  (3 * getDistance atom < d -> tick_gradient frame p = [0; 0; 0]) /\
  ((getId atom < 0)%Z -> tick_gradient frame p = [0; 0; 0]) /\
  ((Z.of_nat (length (gradient p)) <= getId atom)%Z ->
   tick_gradient frame p = [0; 0; 0]) /\
  (d <= 3 * getDistance atom ->
   (0 <= getId atom < Z.of_nat (length (gradient p)))%Z ->
   nth_error (gradient p) (Z.to_nat (getId atom)) =
   Some (tick_gradient frame p)).
Proof.
  intros Hint Hsize atom d. fold atom in Hint.
  assert (Hguard : (to_size_t (getId atom) <
                    Z.of_nat (length (gradient p)))%Z <->
                   (0 <= getId atom < Z.of_nat (length (gradient p)))%Z).
  { destruct (Z.lt_ge_cases (getId atom) 0) as [Hneg|Hpos].
    - pose proof (to_size_t_negative _ Hint Hneg). lia.
    - rewrite to_size_t_nonneg by (destruct Hint; lia). lia. }
  unfold tick_gradient. fold atom. fold d.
  destruct (Rleb d (3 * getDistance atom)) eqn:Ed;
    rewrite ?Rleb_true, ?Rleb_false in Ed;
    destruct (to_size_t (getId atom) <? Z.of_nat (length (gradient p)))%Z
      eqn:Eg;
    rewrite ?Z.ltb_lt, ?Z.ltb_ge in Eg;
    repeat split; intros; try reflexivity; try lra; try lia.
  apply nth_error_nth'. lia.
Qed.

Lemma gradient_of_tick_witness :
  is_int (getId (closest_atom rest_frame one_atom_manager)) /\
  (Z.of_nat (length (gradient one_atom_manager)) < 2 ^ 63)%Z /\
  ((Z.of_nat (length (gradient one_atom_manager)) <=
    getId (closest_atom rest_frame one_atom_manager))%Z ->
   tick_gradient rest_frame one_atom_manager = [0; 0; 0]).
Proof.
  assert (Hi : is_int (getId (closest_atom rest_frame one_atom_manager)))
    by (unfold is_int; cbn; lia).
  assert (Hs : (Z.of_nat (length (gradient one_atom_manager)) < 2 ^ 63)%Z)
    by (cbn; lia).
  split; [exact Hi|]. split; [exact Hs|].
  exact (proj1 (proj2 (proj2 (gradient_of_tick rest_frame one_atom_manager
                                Hi Hs)))).
Defined.

Lemma nth_error_chunk3 i : forall k l,
  length l = (3 * k)%nat -> (i < k)%nat ->
  nth_error (chunk3 l) i =
  Some [nth (3 * i) l 0; nth (3 * i + 1) l 0; nth (3 * i + 2) l 0].
Proof.
  induction i as [|i IH]; intros k l Hl Hi;
    destruct l as [|x [|y [|z rest]]]; try (simpl in Hl; lia).
  - reflexivity.
  - destruct k as [|k]; [lia|].
    cbn [chunk3 nth_error]. rewrite (IH k rest) by (simpl in Hl; lia).
    replace (3 * S i)%nat with (S (S (S (3 * i)))) by lia.
    reflexivity.
Qed.

(** X15: a gradient stored with [update_gradient] is the one a tick uses.
    After a call with [3 * k] values, row [i] of the table, for [i < k],
    holds the values [3i], [3i+1] and [3i+2] of the list; and a tick that
    selects an atom with id [i] uses exactly that row as its gradient. *)
Theorem gradient_lookup_after_update (p : HapticDeviceManager)
    (l : list R) (k i : nat) :
  rows_of_three (gradient p) -> length l = (3 * k)%nat -> (i < k)%nat ->
  (Z.of_nat (Nat.max (length (gradient p)) k) < 2 ^ 63)%Z ->
  exists q,
    update_gradient l p = Some q /\
    nth_error (gradient q) i =
      Some [nth (3 * i) l 0; nth (3 * i + 1) l 0; nth (3 * i + 2) l 0] /\
    forall frame,
      getId (closest_atom frame q) = Z.of_nat i ->
      calculateDistance (closest_atom frame q) (tick_data frame q) <=
        3 * getDistance (closest_atom frame q) ->
      tick_gradient frame q =
        [nth (3 * i) l 0; nth (3 * i + 1) l 0; nth (3 * i + 2) l 0].
Proof.
  intros Hg Hl Hi Hsize.
  destruct (update_gradient_table l p k Hg Hl) as (q & Hq & Hrows).
  assert (Hrow : nth_error (gradient q) i =
                 Some [nth (3 * i) l 0; nth (3 * i + 1) l 0;
                       nth (3 * i + 2) l 0]).
  { rewrite Hrows, nth_error_app1
      by (rewrite (chunk3_length k l Hl); exact Hi).
    apply (nth_error_chunk3 i k l Hl Hi). }
  assert (Hlen : length (gradient q) = Nat.max (length (gradient p)) k).
  { rewrite Hrows, length_app, (chunk3_length k l Hl), length_skipn. lia. }
  exists q. split; [exact Hq|]. split; [exact Hrow|].
  intros frame Hid Hd. unfold tick_gradient.
  apply Rleb_true in Hd. rewrite Hd, Hid.
  rewrite to_size_t_nonneg by lia.
  assert (Hlt : (Z.of_nat i <? Z.of_nat (length (gradient q)))%Z = true)
    by (apply Z.ltb_lt; lia).
  rewrite Hlt, Nat2Z.id.
  apply nth_error_nth. exact Hrow.
Qed.

Lemma gradient_lookup_after_update_witness :
  rows_of_three (gradient two_rows_manager) /\
  length [7; 8; 9] = (3 * 1)%nat /\ (0 < 1)%nat /\
  (Z.of_nat (Nat.max (length (gradient two_rows_manager)) 1) < 2 ^ 63)%Z /\
  exists q,
    update_gradient [7; 8; 9] two_rows_manager = Some q /\
    nth_error (gradient q) 0 = Some [7; 8; 9].
Proof.
  assert (Hrows : rows_of_three (gradient two_rows_manager))
    by (repeat constructor).
  assert (Hs : (Z.of_nat (Nat.max (length (gradient two_rows_manager)) 1)
                < 2 ^ 63)%Z) by (cbn; lia).
  split; [exact Hrows|]. split; [reflexivity|]. split; [lia|].
  split; [exact Hs|].
  destruct (gradient_lookup_after_update two_rows_manager [7; 8; 9] 1 0
              Hrows eq_refl ltac:(lia) Hs) as (q & Hq & Hrow & _).
  exists q. split; [exact Hq|exact Hrow].
Defined.

(** ** The transformation matrices *)

Lemma set_at2_keeps w m i j v m' :
  rows_of w m -> set_at2 m i j v = Some m' ->
  rows_of w m' /\ length m' = length m.
Proof.
  intros Hm. unfold set_at2.
  destruct (nth_error m i) as [row|] eqn:En; [|discriminate].
  destruct (_ <? _)%nat; [|discriminate].
  intros E. injection E as <-. split; [|apply list_set_length].
  apply list_set_forall; [exact Hm|].
  rewrite list_set_length.
  unfold rows_of in Hm. rewrite Forall_forall in Hm.
  apply Hm. eapply nth_error_In. exact En.
Qed.

Lemma write_flat_keeps w values : forall m i m',
  rows_of w m -> write_flat w m i values = Some m' ->
  rows_of w m' /\ length m' = length m.
Proof.
  induction values as [|v rest IH]; intros m i m' Hm H.
  - injection H as <-. split; [exact Hm|reflexivity].
  - rewrite write_flat_cons in H.
    destruct (set_at2 m (i / w) (i mod w) v) as [m1|] eqn:E; [|discriminate].
    destruct (set_at2_keeps _ _ _ _ _ _ Hm E) as [Hm1 Hl1].
    destruct (IH m1 (S i) m' Hm1 H) as [Hm' Hl']. split; [exact Hm'|lia].
Qed.

Lemma set_at2_inside w m i v :
  (0 < w)%nat -> rows_of w m -> (i < w * length m)%nat ->
  exists m', set_at2 m (i / w) (i mod w) v = Some m'.
Proof.
  intros Hw Hm Hi. unfold set_at2.
  assert (Hrow : (i / w < length m)%nat)
    by (apply Nat.Div0.div_lt_upper_bound; lia).
  destruct (nth_error m (i / w)) as [row|] eqn:En;
    [|apply nth_error_None in En; lia].
  assert (Hlen : length row = w).
  { unfold rows_of in Hm. rewrite Forall_forall in Hm.
    apply Hm. eapply nth_error_In. exact En. }
  assert (Hcol : (i mod w <? length row)%nat = true)
    by (apply Nat.ltb_lt; rewrite Hlen; apply Nat.mod_upper_bound; lia).
  rewrite Hcol. eexists. reflexivity.
Qed.

Lemma write_flat_fits w values : forall m i,
  (0 < w)%nat -> rows_of w m -> (i + length values <= w * length m)%nat ->
  exists m', write_flat w m i values = Some m'.
Proof.
  induction values as [|v rest IH]; intros m i Hw Hm Hfit.
  - exists m. reflexivity.
  - rewrite write_flat_cons. cbn [length] in Hfit.
    destruct (set_at2_inside w m i v Hw Hm ltac:(lia)) as [m1 E].
    rewrite E. destruct (set_at2_keeps _ _ _ _ _ _ Hm E) as [Hm1 Hl1].
    apply IH; [exact Hw|exact Hm1|]. rewrite Hl1. lia.
Qed.

Lemma write_flat_overflows w values : forall m i,
  (0 < w)%nat -> rows_of w m -> (i <= w * length m)%nat ->
  (w * length m < i + length values)%nat ->
  write_flat w m i values = None.
Proof.
  induction values as [|v rest IH]; intros m i Hw Hm Hi Hover.
  - cbn [length] in Hover. lia.
  - rewrite write_flat_cons. cbn [length] in Hover.
    destruct (Nat.eq_dec i (w * length m)) as [->|Hne].
    + rewrite Nat.mul_comm, Nat.div_mul by lia.
      rewrite set_at2_beyond_rows by lia. reflexivity.
    + destruct (set_at2_inside w m i v Hw Hm ltac:(lia)) as [m1 E].
      rewrite E. destruct (set_at2_keeps _ _ _ _ _ _ Hm E) as [Hm1 Hl1].
      apply IH; [exact Hw|exact Hm1| |]; rewrite Hl1; lia.
Qed.

Lemma is4x4_shape m :
  is4x4 m ->
  exists a0 a1 a2 a3 b0 b1 b2 b3 c0 c1 c2 c3 d0 d1 d2 d3,
    m = [[a0; a1; a2; a3]; [b0; b1; b2; b3];
         [c0; c1; c2; c3]; [d0; d1; d2; d3]].
Proof.
  intros [Hlen Hrows].
  destruct m as [|ra [|rb [|rc [|rd [|]]]]]; try discriminate Hlen.
  unfold rows_of in Hrows.
  inversion Hrows as [|? ? Ha Hr1]; subst.
  inversion Hr1 as [|? ? Hb Hr2]; subst.
  inversion Hr2 as [|? ? Hc Hr3]; subst.
  inversion Hr3 as [|? ? Hd _]; subst.
  destruct ra as [|a0 [|a1 [|a2 [|a3 [|]]]]]; try discriminate Ha.
  destruct rb as [|b0 [|b1 [|b2 [|b3 [|]]]]]; try discriminate Hb.
  destruct rc as [|c0 [|c1 [|c2 [|c3 [|]]]]]; try discriminate Hc.
  destruct rd as [|d0 [|d1 [|d2 [|d3 [|]]]]]; try discriminate Hd.
  repeat eexists.
Qed.

Lemma write_sixteen m values :
  is4x4 m -> length values = 16%nat ->
  write_flat 4 m 0 values = Some (chunk4 values).
Proof.
  intros Hm Hl.
  destruct (is4x4_shape m Hm)
    as (a0 & a1 & a2 & a3 & b0 & b1 & b2 & b3 & c0 & c1 & c2 & c3 &
        d0 & d1 & d2 & d3 & ->).
  destruct values as [|v0 [|v1 [|v2 [|v3 [|v4 [|v5 [|v6 [|v7 [|v8 [|v9
    [|v10 [|v11 [|v12 [|v13 [|v14 [|v15 [|]]]]]]]]]]]]]]]]];
    try discriminate Hl.
  reflexivity.
Qed.

Lemma chunk4_entries values r c :
  length values = 16%nat -> (r < 4)%nat -> (c < 4)%nat ->
  at2 (chunk4 values) r c = nth (4 * r + c) values 0.
Proof.
  intros Hl Hr Hc.
  destruct values as [|v0 [|v1 [|v2 [|v3 [|v4 [|v5 [|v6 [|v7 [|v8 [|v9
    [|v10 [|v11 [|v12 [|v13 [|v14 [|v15 [|]]]]]]]]]]]]]]]]];
    try discriminate Hl.
  below_four r; below_four c; reflexivity.
Qed.

Lemma chunk4_is4x4 values : length values = 16%nat -> is4x4 (chunk4 values).
Proof.
  intros Hl.
  destruct values as [|v0 [|v1 [|v2 [|v3 [|v4 [|v5 [|v6 [|v7 [|v8 [|v9
    [|v10 [|v11 [|v12 [|v13 [|v14 [|v15 [|]]]]]]]]]]]]]]]]];
    try discriminate Hl.
  split; [reflexivity|]. repeat constructor.
Qed.

(** X16: [set_transformation_matrix] on a manager whose matrices are 4x4.
    With two lists of 16 values both matrices are replaced: entry
    [(r, c)] of each is value [4r + c] of its list, and nothing else of
    the manager changes.  A list of more than 16 values makes a write fall
    outside the matrix; lists of at most 16 values are written inside,
    and the matrices stay 4x4. *)
Theorem set_transformation_matrix_spec (t_matrix i_matrix : list R)
    (p : HapticDeviceManager) :
  is4x4 (transformation_matrix p) -> is4x4 (invert_matrix p) ->
  (length t_matrix = 16%nat -> length i_matrix = 16%nat ->
   exists q,
     set_transformation_matrix t_matrix i_matrix p = Some q /\
     (forall r c, (r < 4)%nat -> (c < 4)%nat ->
        at2 (transformation_matrix q) r c = nth (4 * r + c) t_matrix 0 /\
        at2 (invert_matrix q) r c = nth (4 * r + c) i_matrix 0) /\
     transformation_matrix q = chunk4 t_matrix /\
     invert_matrix q = chunk4 i_matrix /\
     loop_session q = loop_session p /\
     (ghHD q, hUpdateDeviceCallback q, calc_gradient_in_loop q, gradient q,
      callbacks q, molecule q) =
     (ghHD p, hUpdateDeviceCallback p, calc_gradient_in_loop p, gradient p,
      callbacks p, molecule p)) /\
  ((16 < length t_matrix)%nat \/ (16 < length i_matrix)%nat ->
   set_transformation_matrix t_matrix i_matrix p = None) /\
  ((length t_matrix <= 16)%nat -> (length i_matrix <= 16)%nat ->
   exists q,
     set_transformation_matrix t_matrix i_matrix p = Some q /\
     is4x4 (transformation_matrix q) /\ is4x4 (invert_matrix q)).
Proof.
  intros Ht Hi. split; [|split].
  - intros Lt Li. unfold set_transformation_matrix.
    rewrite (write_sixteen _ _ Ht Lt), (write_sixteen _ _ Hi Li).
    eexists. split; [reflexivity|]. cbn [transformation_matrix invert_matrix
                                            with_scene].
    split; [|repeat split].
    intros r c Hr Hc. split; apply chunk4_entries; assumption.
  - intros Hover. unfold set_transformation_matrix.
    destruct Ht as [Htl Htr]. destruct Hi as [Hil Hir].
    destruct Hover as [Hover|Hover].
    + rewrite (write_flat_overflows 4 t_matrix (transformation_matrix p) 0)
        by (try exact Htr; lia). reflexivity.
    + destruct (write_flat 4 (transformation_matrix p) 0 t_matrix);
        [|reflexivity].
      rewrite (write_flat_overflows 4 i_matrix (invert_matrix p) 0)
        by (try exact Hir; lia). reflexivity.
  - intros Lt Li. unfold set_transformation_matrix.
    destruct Ht as [Htl Htr]. destruct Hi as [Hil Hir].
    destruct (write_flat_fits 4 t_matrix (transformation_matrix p) 0)
      as [t Et]; [lia|exact Htr|lia|].
    destruct (write_flat_fits 4 i_matrix (invert_matrix p) 0)
      as [i Ei]; [lia|exact Hir|lia|].
    rewrite Et, Ei. eexists. split; [reflexivity|].
    cbn [transformation_matrix invert_matrix with_scene].
    destruct (write_flat_keeps _ _ _ _ _ Htr Et) as [Ht' Hl'].
    destruct (write_flat_keeps _ _ _ _ _ Hir Ei) as [Hi' Hli'].
    split; split; try assumption; lia.
Qed.

Lemma identity4_is4x4 : is4x4 identity4.
Proof. split; [reflexivity|]. repeat constructor. Qed.

Lemma set_transformation_matrix_spec_witness :
  is4x4 (transformation_matrix new_manager) /\
  is4x4 (invert_matrix new_manager) /\
  set_transformation_matrix [1; 2; 3; 4; 5; 6; 7; 8; 9; 10; 11; 12; 13; 14;
                             15; 16; 17] [] new_manager = None.
Proof.
  split; [exact identity4_is4x4|]. split; [exact identity4_is4x4|].
  apply (proj1 (proj2 (set_transformation_matrix_spec _ [] new_manager
                         identity4_is4x4 identity4_is4x4))).
  left. cbn. lia.
Defined.

(** ** Shapes along a run *)

Lemma step_shapes op p p' out :
  step op p = Some (p', out) ->
  is4x4 (transformation_matrix p) /\ is4x4 (invert_matrix p) /\
  rows_of_three (gradient p) ->
  is4x4 (transformation_matrix p') /\ is4x4 (invert_matrix p') /\
  rows_of_three (gradient p').
Proof.
  intros Hstep (Ht & Hi & Hg).
  pose proof (step_rows_of_three op p p' out Hg Hstep) as Hg'.
  split; [|split; [|exact Hg']];
    destruct op; cbn [step] in Hstep;
    try (injection Hstep as <- <-; assumption).
  all: try (injection Hstep as <- <-; unfold init_haptic_device;
            destruct (init_error hd); [|destruct (scheduler_error hd)];
            assumption).
  all: try (injection Hstep as <- <-; unfold exit_haptic_device;
            destruct (negb _); assumption).
  all: try (unfold update_atom in Hstep; destruct (_ <? _)%Z;
            [|discriminate]; injection Hstep as <- <-; assumption).
  all: try (unfold update_gradient in Hstep;
            destruct (write_flat _ _ _ _); [|discriminate];
            injection Hstep as <- <-; assumption).
  all: try (destruct (updateDeviceCallback frame p) as [r|] eqn:E;
            [|discriminate]; injection Hstep as <- <-;
            apply tick_inversion in E; destruct E as [_ ->];
            cbn [manager tick_result]; unfold manager_after;
            destruct (throttled frame p); assumption).
  - unfold set_transformation_matrix in Hstep.
    destruct (write_flat 4 (transformation_matrix p) 0 t_matrix)
      as [t|] eqn:Et; [|discriminate].
    destruct (write_flat 4 (invert_matrix p) 0 i_matrix)
      as [i|] eqn:Ei; [|discriminate].
    injection Hstep as <- <-. cbn [transformation_matrix with_scene].
    destruct Ht as [Hl Hr].
    destruct (write_flat_keeps _ _ _ _ _ Hr Et) as [Hr' Hl'].
    split; [lia|exact Hr'].
  - unfold set_transformation_matrix in Hstep.
    destruct (write_flat 4 (transformation_matrix p) 0 t_matrix)
      as [t|] eqn:Et; [|discriminate].
    destruct (write_flat 4 (invert_matrix p) 0 i_matrix)
      as [i|] eqn:Ei; [|discriminate].
    injection Hstep as <- <-. cbn [invert_matrix with_scene].
    destruct Hi as [Hl Hr].
    destruct (write_flat_keeps _ _ _ _ _ Hr Ei) as [Hr' Hl'].
    split; [lia|exact Hr'].
Qed.

(** X17: in every run from a new manager both matrices are 4x4 and every
    row of the gradient table has three entries, so the reads
    [m[0..2][0..3]] and [gradient[0..2]] of the servicing loop are always
    inside their vectors. *)
Theorem shapes_along_runs (ops : list Op) (p' : HapticDeviceManager)
    (out : list TickResult) :
  run ops new_manager = Some (p', out) ->
  is4x4 (transformation_matrix p') /\ is4x4 (invert_matrix p') /\
  rows_of_three (gradient p').
Proof.
  intros Hrun.
  assert (Hkeep :
    is4x4 (transformation_matrix new_manager) /\
    is4x4 (invert_matrix new_manager) /\
    rows_of_three (gradient new_manager) ->
    is4x4 (transformation_matrix p') /\ is4x4 (invert_matrix p') /\
    rows_of_three (gradient p')).
  { revert Hrun.
    apply (run_relation
             (fun a b =>
                is4x4 (transformation_matrix a) /\ is4x4 (invert_matrix a) /\
                rows_of_three (gradient a) ->
                is4x4 (transformation_matrix b) /\ is4x4 (invert_matrix b) /\
                rows_of_three (gradient b))).
    - intros a H. exact H.
    - intros a b c Hab Hbc H. exact (Hbc (Hab H)).
    - intros op a b o Hs. exact (step_shapes op a b o Hs). }
  apply Hkeep.
  split; [exact identity4_is4x4|]. split; [exact identity4_is4x4|].
  constructor.
Qed.

Lemma shapes_along_runs_witness :
  run [op_update_gradient [1; 2; 3; 4; 5; 6]] new_manager =
    Some (two_rows_manager, []) /\
  rows_of_three (gradient two_rows_manager).
Proof.
  assert (H : run [op_update_gradient [1; 2; 3; 4; 5; 6]] new_manager =
              Some (two_rows_manager, [])) by reflexivity.
  split; [exact H|].
  exact (proj2 (proj2 (shapes_along_runs _ _ _ H))).
Defined.

(** ** Device start and stop *)

(** X18: [init_haptic_device] answers [true] exactly when neither the
    opening of the device nor the start of the scheduler reports an error;
    it stores the device handle even when the opening fails, and schedules
    the callback only when the opening succeeded.  [exit_haptic_device]
    always leaves the invalid handle, a second call changes nothing more,
    and it keeps the scheduler handle.  Neither of them touches the scene
    (guidance flag, matrices, gradients, listeners, atoms). *)
Theorem device_start_and_stop (hd : HDInit) (p : HapticDeviceManager) :
  (snd (init_haptic_device hd p) = true <->
   init_error hd = false /\ scheduler_error hd = false) /\
  ghHD (fst (init_haptic_device hd p)) = hdInitDevice hd /\
  hUpdateDeviceCallback (fst (init_haptic_device hd p)) =
    (if init_error hd then hUpdateDeviceCallback p
     else hdScheduleAsynchronous hd) /\
  ghHD (exit_haptic_device (fst (init_haptic_device hd p))) =
    HD_INVALID_HANDLE /\
  exit_haptic_device (exit_haptic_device p) = exit_haptic_device p /\
  hUpdateDeviceCallback (exit_haptic_device p) = hUpdateDeviceCallback p /\
  (calc_gradient_in_loop (fst (init_haptic_device hd p)),
   transformation_matrix (fst (init_haptic_device hd p)),
   invert_matrix (fst (init_haptic_device hd p)),
   gradient (fst (init_haptic_device hd p)),
   callbacks (fst (init_haptic_device hd p)),
   molecule (fst (init_haptic_device hd p))) =
  (calc_gradient_in_loop p, transformation_matrix p, invert_matrix p,
   gradient p, callbacks p, molecule p) /\
  (calc_gradient_in_loop (exit_haptic_device p),
   transformation_matrix (exit_haptic_device p),
   invert_matrix (exit_haptic_device p),
   gradient (exit_haptic_device p),
   callbacks (exit_haptic_device p),
   molecule (exit_haptic_device p)) =
  (calc_gradient_in_loop p, transformation_matrix p, invert_matrix p,
   gradient p, callbacks p, molecule p).
Proof.
  assert (Hexit : forall q, ghHD (exit_haptic_device q) = HD_INVALID_HANDLE)
    by (intros q; apply exit_invalidates_handle).
  split; [|split; [|split; [|split; [|split; [|split; [|split]]]]]].
  - unfold init_haptic_device.
    destruct (init_error hd); [|destruct (scheduler_error hd)]; cbn;
      split; intros H; try discriminate; try reflexivity;
      try (destruct H; discriminate); split; reflexivity.
  - unfold init_haptic_device.
    destruct (init_error hd); [|destruct (scheduler_error hd)]; reflexivity.
  - unfold init_haptic_device.
    destruct (init_error hd); [|destruct (scheduler_error hd)]; reflexivity.
  - apply Hexit.
  - unfold exit_haptic_device at 1. rewrite Hexit.
    rewrite Z.eqb_refl. reflexivity.
  - unfold exit_haptic_device. destruct (negb _); reflexivity.
  - unfold init_haptic_device.
    destruct (init_error hd); [|destruct (scheduler_error hd)]; reflexivity.
  - unfold exit_haptic_device. destruct (negb _); reflexivity.
Qed.

(** ** When a move is reported *)

Lemma transformToApp_injective T Tinv s v w :
  affine T -> exact_inverse T Tinv -> s <> 0%Z ->
  transformToAppCoordinates v T s = transformToAppCoordinates w T s ->
  v = w.
Proof.
  intros (A0 & A1 & A2 & _) Hinv Hs Heq.
  assert (Hs' : / IZR s <> 0)
    by (apply Rinv_neq_0_compat, not_0_IZR; exact Hs).
  assert (E : forall i j, (i < 3)%nat -> (j < 3)%nat ->
            at2 Tinv i 0 * at2 T 0 j + at2 Tinv i 1 * at2 T 1 j +
            at2 Tinv i 2 * at2 T 2 j = kronecker i j).
  { intros i j Hi Hj.
    pose proof (exact_inverse_rows T Tinv i j Hinv ltac:(lia) ltac:(lia))
      as H.
    unfold mat_mul4 in H.
    assert (Hz : at2 T 3 j = 0)
      by (destruct j as [|[|[|j]]]; [exact A0|exact A1|exact A2|lia]).
    rewrite Hz in H. lra. }
  destruct v as [vx0 vy0 vz0]. destruct w as [wx wy wz].
  unfold transformToAppCoordinates in Heq. cbn [vx vy vz] in Heq.
  injection Heq as Hx Hy Hz.
  unfold Rdiv in Hx, Hy, Hz.
  apply (Rmult_eq_reg_r _ _ _) in Hx; [|exact Hs'].
  apply (Rmult_eq_reg_r _ _ _) in Hy; [|exact Hs'].
  apply (Rmult_eq_reg_r _ _ _) in Hz; [|exact Hs'].
  set (dx := vx0 - wx). set (dy := vy0 - wy). set (dz := vz0 - wz).
  assert (R0 : at2 T 0 0 * dx + at2 T 0 1 * dy + at2 T 0 2 * dz = 0)
    by (unfold dx, dy, dz; lra).
  assert (R1 : at2 T 1 0 * dx + at2 T 1 1 * dy + at2 T 1 2 * dz = 0)
    by (unfold dx, dy, dz; lra).
  assert (R2 : at2 T 2 0 * dx + at2 T 2 1 * dy + at2 T 2 2 * dz = 0)
    by (unfold dx, dy, dz; lra).
  assert (D : forall i, (i < 3)%nat ->
            kronecker i 0 * dx + kronecker i 1 * dy + kronecker i 2 * dz = 0).
  { intros i Hi.
    rewrite <- (E i 0%nat Hi ltac:(lia)), <- (E i 1%nat Hi ltac:(lia)),
      <- (E i 2%nat Hi ltac:(lia)).
    transitivity
      (at2 Tinv i 0 * (at2 T 0 0 * dx + at2 T 0 1 * dy + at2 T 0 2 * dz) +
       at2 Tinv i 1 * (at2 T 1 0 * dx + at2 T 1 1 * dy + at2 T 1 2 * dz) +
       at2 Tinv i 2 * (at2 T 2 0 * dx + at2 T 2 1 * dy + at2 T 2 2 * dz));
      [ring|].
    rewrite R0, R1, R2. ring. }
  pose proof (D 0%nat ltac:(lia)) as D0.
  pose proof (D 1%nat ltac:(lia)) as D1.
  pose proof (D 2%nat ltac:(lia)) as D2.
  unfold kronecker in D0, D1, D2. cbn in D0, D1, D2.
  unfold dx, dy, dz in D0, D1, D2.
  f_equal; lra.
Qed.

(** X19: when the transformation matrix is affine and has an exact
    inverse, a tick that passes the throttle reports a move to every
    listener entry exactly when the device position differs from the
    recorded one (on the first pass: from the device's previous position),
    and reports nothing when the device has not moved. *)
Theorem move_iff_device_moved (frame : HDFrame) (p : HapticDeviceManager)
    (r : TickResult) (Tinv : Matrix) :
  updateDeviceCallback frame p = Some r ->
  (kMinDelay <= steady_clock_now frame - last_event_timestamp p)%Z ->
  affine (transformation_matrix p) ->
  exact_inverse (transformation_matrix p) Tinv ->
  (HD_CURRENT_POSITION frame <> previous_sent frame p ->
   filter is_move (calls r) = to_all (callbacks p) (move_call frame p)) /\
  (HD_CURRENT_POSITION frame = previous_sent frame p ->
   filter is_move (calls r) = []).
Proof.
  intros Hr Hpass Haff Hinv.
  apply tick_inversion in Hr. destruct Hr as [_ ->].
  cbn [calls tick_result]. rewrite move_calls_of_tick.
  apply throttled_false in Hpass. unfold move_calls. rewrite Hpass.
  split.
  - intros Hne.
    assert (Hd : position_changed frame p = true).
    { apply position_changed_true. intros E. apply Hne.
      apply (transformToApp_injective (transformation_matrix p) Tinv
               scale_factor _ _ Haff Hinv);
        [unfold scale_factor; lia|exact E]. }
    rewrite Hd. reflexivity.
  - intros Heq.
    assert (Hd : position_changed frame p = false).
    { apply position_changed_false. unfold tick_data, previous_data.
      rewrite Heq. reflexivity. }
    rewrite Hd. reflexivity.
Qed.

Lemma identity4_inverse : exact_inverse identity4 identity4.
Proof.
  intros i j Hi Hj.
  below_four i; below_four j;
    unfold mat_mul4, at2, kronecker, identity4; simpl; split; lra.
Qed.

Lemma identity4_affine : affine identity4.
Proof. unfold affine, at2, identity4; simpl; repeat split; lra. Qed.

Lemma move_iff_device_moved_witness :
  updateDeviceCallback press_frame listening_manager =
    Some (tick_result press_frame listening_manager) /\
  (kMinDelay <= steady_clock_now press_frame -
                last_event_timestamp listening_manager)%Z /\
  affine (transformation_matrix listening_manager) /\
  exact_inverse (transformation_matrix listening_manager) identity4 /\
  HD_CURRENT_POSITION press_frame =
    previous_sent press_frame listening_manager /\
  filter is_move (calls (tick_result press_frame listening_manager)) = [].
Proof.
  assert (Hr : updateDeviceCallback press_frame listening_manager =
               Some (tick_result press_frame listening_manager))
    by (apply tick_returns; reflexivity).
  assert (Hp : (kMinDelay <= steady_clock_now press_frame -
                             last_event_timestamp listening_manager)%Z)
    by (rewrite kMinDelay_value; cbn; lia).
  split; [exact Hr|]. split; [exact Hp|].
  split; [exact identity4_affine|]. split; [exact identity4_inverse|].
  split; [reflexivity|].
  exact (proj2 (move_iff_device_moved _ _ _ identity4 Hr Hp identity4_affine
                  identity4_inverse) eq_refl).
Defined.

(** ** Between two passes through the throttle *)

Lemma step_same_stamp op p p' out :
  step op p = Some (p', out) ->
  last_event_timestamp p' = last_event_timestamp p ->
  call_first_time p' = call_first_time p /\
  last_send_data p' = last_send_data p /\
  forall r, In r out -> filter is_move (calls r) = [].
Proof.
  intros Hstep Hsame.
  destruct (step_cases op p p' out Hstep)
    as [(frame & -> & _ & -> & ->) | (_ & -> & Hs & _)].
  - assert (Ht : throttled frame p = true).
    { destruct (throttled frame p) eqn:E; [reflexivity|].
      unfold manager_after in Hsame. rewrite E in Hsame. cbn in Hsame.
      apply throttled_false in E. pose proof kMinDelay_positive. lia. }
    unfold manager_after. rewrite Ht. cbn.
    repeat split. intros r [<-|[]]. cbn [calls tick_result].
    rewrite move_calls_of_tick. unfold move_calls. rewrite Ht. reflexivity.
  - unfold loop_session in Hs. injection Hs as _ _ Hc Hd _.
    repeat split; try assumption. intros r [].
Qed.

(** X20: as long as the throttle timestamp has not changed, nothing of the
    move reporting has happened: along a run that ends with the timestamp
    it started with, no tick performed a [move] call, and the recorded
    device position and the first-tick flag are what they were.  The next
    move is therefore measured from the position of the last pass. *)
Theorem quiet_while_stamp_unchanged (ops : list Op) :
  forall (p p' : HapticDeviceManager) (out : list TickResult),
  run ops p = Some (p', out) ->
  last_event_timestamp p' = last_event_timestamp p ->
  call_first_time p' = call_first_time p /\
  last_send_data p' = last_send_data p /\
  forall r, In r out -> filter is_move (calls r) = [].
Proof.
  induction ops as [|op ops IH]; intros p p' out Hrun Hsame.
  - injection Hrun as <- <-. repeat split. intros r [].
  - cbn [run] in Hrun.
    destruct (step op p) as [[p1 out1]|] eqn:Es; [|discriminate].
    destruct (run ops p1) as [[p2 out2]|] eqn:Er; [|discriminate].
    injection Hrun as <- <-.
    destruct (step_session_order op p p1 out1 Es) as [Hle1 _].
    destruct (session_only_advances_aux ops p1 p2 out2 Er) as [Hle2 _].
    assert (H1 : last_event_timestamp p1 = last_event_timestamp p) by lia.
    assert (H2 : last_event_timestamp p2 = last_event_timestamp p1) by lia.
    destruct (step_same_stamp op p p1 out1 Es H1) as (Hc1 & Hd1 & Ho1).
    destruct (IH p1 p2 out2 Er H2) as (Hc2 & Hd2 & Ho2).
    split; [congruence|]. split; [congruence|].
    intros r Hin. apply in_app_or in Hin. destruct Hin; auto.
Qed.

Lemma quiet_while_stamp_unchanged_witness :
  run [op_tick soon_frame; op_add_atom (mkAtomData 0 0 0 0 1)]
      (manager (tick_result move_frame1 listening_manager)) =
    Some (add_atom (mkAtomData 0 0 0 0 1)
            (manager_after soon_frame
               (manager (tick_result move_frame1 listening_manager))),
          [tick_result soon_frame
             (manager (tick_result move_frame1 listening_manager))]) /\
  last_event_timestamp
    (add_atom (mkAtomData 0 0 0 0 1)
       (manager_after soon_frame
          (manager (tick_result move_frame1 listening_manager)))) =
  last_event_timestamp (manager (tick_result move_frame1 listening_manager))
  /\
  last_send_data
    (add_atom (mkAtomData 0 0 0 0 1)
       (manager_after soon_frame
          (manager (tick_result move_frame1 listening_manager)))) =
  last_send_data (manager (tick_result move_frame1 listening_manager)).
Proof.
  assert (Hrun : run [op_tick soon_frame; op_add_atom (mkAtomData 0 0 0 0 1)]
                   (manager (tick_result move_frame1 listening_manager)) =
                 Some (add_atom (mkAtomData 0 0 0 0 1)
                         (manager_after soon_frame
                            (manager (tick_result move_frame1
                                        listening_manager))),
                       [tick_result soon_frame
                          (manager (tick_result move_frame1
                                      listening_manager))])).
  { unfold run, step. rewrite (tick_returns soon_frame) by reflexivity.
    reflexivity. }
  assert (Hs : last_event_timestamp
                 (add_atom (mkAtomData 0 0 0 0 1)
                    (manager_after soon_frame
                       (manager (tick_result move_frame1
                                   listening_manager)))) =
               last_event_timestamp
                 (manager (tick_result move_frame1 listening_manager)))
    by reflexivity.
  split; [exact Hrun|]. split; [exact Hs|].
  exact (proj1 (proj2 (quiet_while_stamp_unchanged _ _ _ _ Hrun Hs))).
Defined.

Lemma tick_keeps_scene_witness :
  updateDeviceCallback both_buttons_frame held_manager =
    Some (tick_result both_buttons_frame held_manager) /\
  scene (manager (tick_result both_buttons_frame held_manager)) =
  scene held_manager.
Proof.
  assert (Hr : updateDeviceCallback both_buttons_frame held_manager =
               Some (tick_result both_buttons_frame held_manager))
    by (apply tick_returns; reflexivity).
  split; [exact Hr|].
  exact (proj2 (tick_keeps_scene both_buttons_frame held_manager) _ Hr).
Defined.
